(** * The SRT plugin of gst-plugins-bad: a shallow embedding

    The three C files of [ext/srt] are embedded as functions of a small
    state-and-fault monad:

    - [gstsrt.c]           reference-counted client sessions ([Module gstsrt]);
    - [gstsrtserversink.c] the broadcasting server sink ([Module gstsrtserversink]);
    - [gstsrtclientsrc.c]  the pulling client source ([Module gstsrtclientsrc]).

    Everything the C code obtains from libsrt, GLib or GStreamer at run time
    (return values of [srt_accept], [srt_sendmsg2], [g_thread_try_new], the
    clock, ...) is answered by an oracle over an abstract world, so every
    theorem holds for every behaviour of the network.  Each call is recorded
    in a trace, together with mutex operations, emitted signals and log
    lines; properties of the form "closes once", "holds the lock while
    sending" are statements about that trace. *)

From Stdlib Require Import ZArith List String Lia Bool.
From stdpp Require Import base tactics option list gmap strings.

#[local] Open Scope string_scope.
#[local] Open Scope list_scope.
#[local] Open Scope Z_scope.

(* ===================================================================== *)
(** ** C and library types *)
(* ===================================================================== *)

Definition gboolean := bool.
Definition TRUE : gboolean := true.
Definition FALSE : gboolean := false.

(** [SRTSOCKET] and [gint] are 32-bit C ints; [guint] is an unsigned 32-bit
    int whose arithmetic wraps. *)
Definition SRTSOCKET := Z.
Definition guint_modulus : Z := 2 ^ 32.
Definition guint_wrap (z : Z) : Z := z mod guint_modulus.

(** Constants of [srt/srt.h]. *)
Definition SRT_ERROR : Z := -1.
Definition SRT_INVALID_SOCK : SRTSOCKET := -1.
Definition SRT_ETIMEOUT : Z := 6003.
Definition SRT_EPOLL_IN : Z := 1.
Definition SRT_EPOLL_OUT : Z := 4.

(** Constants of [gst/gsturi.h]. *)
Definition GST_URI_NO_PORT : Z := 0.

Inductive GstFlowReturn := GST_FLOW_OK | GST_FLOW_EOS | GST_FLOW_ERROR.

Inductive GSocketFamily :=
| G_SOCKET_FAMILY_INVALID
| G_SOCKET_FAMILY_UNIX
| G_SOCKET_FAMILY_IPV4
| G_SOCKET_FAMILY_IPV6.

Record GInetAddress := mkGInetAddress {
  inet_family : GSocketFamily;
  inet_bytes : list Z
}.

Record GstUri := mkGstUri {
  uri_scheme : option string;
  uri_host : option string;
  uri_port : Z
}.

(** A [GstBuffer]: its payload and its presentation timestamp
    ([None] is [GST_CLOCK_TIME_NONE]). *)
Record GstBuffer := mkGstBuffer {
  buf_data : list Z;
  buf_pts : option Z
}.

Definition gst_buffer_get_size (b : GstBuffer) : Z := Z.of_nat (length (buf_data b)).

(** [gst_buffer_resize (buf, 0, size)].  The buffers of the model have no
    memory beyond their size.  [gst_buffer_resize_range] takes a size of -1
    for "to the end of the buffer" and refuses, with a critical warning, a
    size below -1 and a size that does not fit; a refused resize leaves the
    buffer as it is. *)
Definition gst_buffer_resize_fits (b : GstBuffer) (size : Z) : bool :=
  Z.leb (-1) size && Z.leb size (gst_buffer_get_size b).

Definition gst_buffer_resize (b : GstBuffer) (size : Z) : GstBuffer :=
  if Z.leb 0 size && Z.leb size (gst_buffer_get_size b)
  then mkGstBuffer (take (Z.to_nat size) (buf_data b)) (buf_pts b)
  else b.

(** [GstClockTime] is a [guint64]. *)
Definition guint64_wrap (z : Z) : Z := z mod 2 ^ 64.

(** [g_inet_socket_address_get_port]: the socket address made by
    [g_inet_socket_address_new_from_string (host, port)] keeps the port as
    a [guint16]. *)
Definition g_inet_socket_address_get_port (port : Z) : Z := port mod 2 ^ 16.

Inductive GError := GST_URI_ERROR_BAD_URI.

Inductive LogLevel := LTrace | LLog | LDebug | LInfo | LWarning | LCritical.

Inductive Signal := SIG_CLIENT_ADDED | SIG_CLIENT_REMOVED.

(** The callbacks this plugin installs on GLib idle sources. *)
Inductive GSourceFunc := cb_idle_listen_callback | cb_srt_send_buffer.

#[global] Instance GSourceFunc_eq_dec : EqDecision GSourceFunc.
Proof. solve_decision. Defined.

(** The two GLib main contexts the plugin attaches sources to: the default
    one ([g_source_attach (source, NULL)]) and the server's own
    [priv->context]. *)
Inductive Ctx := CtxDefault | CtxServer.

(* ===================================================================== *)
(** ** The environment: library calls, replies, traces *)
(* ===================================================================== *)

(** The library calls whose outcome is decided outside the plugin. *)
Inductive Call :=
| srt_socket (family : GSocketFamily)
| srt_setsockopt_sndsyn (s : SRTSOCKET) (v : Z)
| srt_epoll_create
| srt_epoll_add_usock (eid : Z) (s : SRTSOCKET) (events : Z)
| srt_epoll_remove_usock (eid : Z) (s : SRTSOCKET)
| srt_epoll_release (eid : Z)
| srt_epoll_wait_read (eid : Z) (timeout : Z)
| srt_epoll_wait_write (eid : Z) (timeout : Z)
| srt_getlasterror
| srt_clearlasterror
| srt_bind (s : SRTSOCKET) (a : GInetAddress) (port : Z)
| srt_listen (s : SRTSOCKET) (backlog : Z)
| srt_connect (s : SRTSOCKET) (a : GInetAddress) (port : Z)
| srt_accept (s : SRTSOCKET)
| srt_sendmsg2 (s : SRTSOCKET) (data : list Z)
| srt_recvmsg (s : SRTSOCKET) (size : Z)
| srt_close (s : SRTSOCKET)
| g_thread_try_new
| g_main_loop_quit
| g_thread_join
| gst_buffer_map (b : GstBuffer)
| gst_clock_get_time.

(** What a call hands back: the C return value, and what it wrote through
    its out-pointers ([sa.sa_family] and [sa.sa_data] for [srt_accept], the
    received bytes for [srt_recvmsg]). *)
Record Reply := mkReply {
  ret : Z;
  out_family : GSocketFamily;
  out_bytes : list Z
}.

Inductive Event :=
| ECall (c : Call) (r : Reply)
| EMutexLock
| EMutexUnlock
| EObjectLock
| EObjectUnlock
| ESignal (s : Signal) (sock : SRTSOCKET) (addr : GInetAddress)
| ELog (l : LogLevel)
| EElementError
| ESourceAttach (c : Ctx) (f : GSourceFunc)
| ESourceRemove (c : Ctx) (f : GSourceFunc).

Class Env := {
  World : Type;
  oracle : World -> Call -> Reply * World;
  (** pure parsers of GLib and GStreamer *)
  gst_uri_from_string : string -> option GstUri;
  gst_uri_to_string : option GstUri -> option string;
  g_inet_socket_address_new_from_string : string -> Z -> option GInetAddress
}.

(** An environment without memory: every call is answered by [f]. *)
Definition fn_env (f : Call -> Reply)
    (parse : string -> option GstUri) (print : option GstUri -> option string)
    (resolve : string -> Z -> option GInetAddress) : Env :=
  {| World := unit;
     oracle := fun w c => (f c, w);
     gst_uri_from_string := parse;
     gst_uri_to_string := print;
     g_inet_socket_address_new_from_string := resolve |}.

Definition reply (z : Z) : Reply := mkReply z G_SOCKET_FAMILY_INVALID [].

(* ===================================================================== *)
(** ** GLib helpers *)
(* ===================================================================== *)

(** [g_strcmp0]: NULL-safe string comparison; only equality is used. *)
Definition g_strcmp0_eq (a b : option string) : bool :=
  match a, b with
  | None, None => true
  | Some x, Some y => String.eqb x y
  | _, _ => false
  end.

(** [gst_uri_get_scheme], [gst_uri_get_host], [gst_uri_get_port] accept NULL. *)
Definition gst_uri_get_scheme (u : option GstUri) : option string :=
  match u with Some u => uri_scheme u | None => None end.
Definition gst_uri_get_host (u : option GstUri) : option string :=
  match u with Some u => uri_host u | None => None end.
Definition gst_uri_get_port (u : option GstUri) : Z :=
  match u with Some u => uri_port u | None => GST_URI_NO_PORT end.

(** [g_list_remove]: drop the first node whose data is [x]. *)
Fixpoint g_list_remove {A} `{EqDecision A} (l : list A) (x : A) : list A :=
  match l with
  | [] => []
  | y :: l' => if decide (y = x) then l' else y :: g_list_remove l' x
  end.

Definition g_list_append {A} (l : list A) (x : A) : list A := l ++ [x].

(** [g_inet_address_new_from_bytes] returns NULL unless the family is an
    internet family. *)
Definition g_inet_address_new_from_bytes (bytes : list Z) (family : GSocketFamily)
    : option GInetAddress :=
  match family with
  | G_SOCKET_FAMILY_IPV4 | G_SOCKET_FAMILY_IPV6 => Some (mkGInetAddress family bytes)
  | _ => None
  end.

(* ===================================================================== *)
(** ** gstsrt.h / gstsrt.c *)
(* ===================================================================== *)

Module gstsrt_h.

Record GstSRTClient := mkGstSRTClient {
  sock : Z;
  addr : GInetAddress;
  ref_count : Z  (* guint *)
}.

End gstsrt_h.
Abbreviation GstSRTClient := gstsrt_h.GstSRTClient.
Abbreviation mkGstSRTClient := gstsrt_h.mkGstSRTClient.
Abbreviation ref_count := gstsrt_h.ref_count.

(** Heap addresses of [GstSRTClient] objects. *)
Definition loc := nat.

(* ===================================================================== *)
(** ** The run-time state and the monad *)
(* ===================================================================== *)

Section runtime.
Context {E : Env}.

Record Runtime := mkRuntime {
  rt_world : World;
  rt_heap : gmap loc GstSRTClient;
  rt_default_ctx : list GSourceFunc;
  rt_server_ctx : list GSourceFunc;
  rt_trace : list Event
}.

(** [None] is a fault: a NULL or freed object was dereferenced. *)
Definition M (A : Type) : Type := Runtime -> option (A * Runtime).

Definition ret_ {A} (a : A) : M A := fun rt => Some (a, rt).
Definition bind_ {A B} (m : M A) (k : A -> M B) : M B :=
  fun rt => match m rt with
            | Some (a, rt') => k a rt'
            | None => None
            end.
Definition fault {A} : M A := fun _ => None.

Definition emit (e : Event) : M unit := fun rt =>
  Some (tt, mkRuntime (rt_world rt) (rt_heap rt) (rt_default_ctx rt)
              (rt_server_ctx rt) (rt_trace rt ++ [e])).

Definition call (c : Call) : M Reply := fun rt =>
  let '(r, w) := oracle (rt_world rt) c in
  Some (r, mkRuntime w (rt_heap rt) (rt_default_ctx rt) (rt_server_ctx rt)
             (rt_trace rt ++ [ECall c r])).

Definition gst_log (l : LogLevel) : M unit := emit (ELog l).

Definition heap_alloc (c : GstSRTClient) : M loc := fun rt =>
  let p := fresh (dom (rt_heap rt)) in
  Some (p, mkRuntime (rt_world rt) (<[p := c]> (rt_heap rt)) (rt_default_ctx rt)
             (rt_server_ctx rt) (rt_trace rt)).

Definition heap_load (p : loc) : M GstSRTClient := fun rt =>
  match rt_heap rt !! p with
  | Some c => Some (c, rt)
  | None => None
  end.

Definition heap_store (p : loc) (c : GstSRTClient) : M unit := fun rt =>
  Some (tt, mkRuntime (rt_world rt) (<[p := c]> (rt_heap rt)) (rt_default_ctx rt)
              (rt_server_ctx rt) (rt_trace rt)).

Definition heap_free (p : loc) : M unit := fun rt =>
  Some (tt, mkRuntime (rt_world rt) (delete p (rt_heap rt)) (rt_default_ctx rt)
              (rt_server_ctx rt) (rt_trace rt)).

Definition get_sources (c : Ctx) : M (list GSourceFunc) := fun rt =>
  Some (match c with CtxDefault => rt_default_ctx rt | CtxServer => rt_server_ctx rt end, rt).

Definition set_sources (c : Ctx) (l : list GSourceFunc) : M unit := fun rt =>
  Some (tt, match c with
            | CtxDefault => mkRuntime (rt_world rt) (rt_heap rt) l (rt_server_ctx rt) (rt_trace rt)
            | CtxServer => mkRuntime (rt_world rt) (rt_heap rt) (rt_default_ctx rt) l (rt_trace rt)
            end).

End runtime.

#[global] Instance M_ret {E : Env} : MRet (@M E) := @ret_ E.
#[global] Instance M_bind {E : Env} : MBind (@M E) := fun A B k m => bind_ m k.

Module gstsrt.
Section with_env.
Context {E : Env}.

(** [gst_srt_client_new]: [g_return_val_if_fail] rejects an invalid socket
    and a NULL address by returning NULL. *)
Definition gst_srt_client_new (s : Z) (a : option GInetAddress) : M (option loc) :=
  match a with
  | Some a' =>
      if Z.eqb s (-1) then gst_log LCritical ;; mret None
      else p ← heap_alloc (mkGstSRTClient s a' 1); mret (Some p)
  | None => gst_log LCritical ;; mret None
  end.

Definition gst_srt_client_ref (client : option loc) : M (option loc) :=
  match client with
  | None => gst_log LCritical ;; mret None
  | Some p =>
      c ← heap_load p;
      heap_store p
        (mkGstSRTClient (gstsrt_h.sock c) (gstsrt_h.addr c) (guint_wrap (ref_count c + 1))) ;;
      mret (Some p)
  end.

Definition gst_srt_client_unref (client : option loc) : M unit :=
  match client with
  | None => gst_log LCritical
  | Some p =>
      c ← heap_load p;
      let n := guint_wrap (ref_count c - 1) in
      if Z.ltb 0 n then
        heap_store p (mkGstSRTClient (gstsrt_h.sock c) (gstsrt_h.addr c) n)
      else
        call (srt_close (gstsrt_h.sock c)) ;;
        heap_free p
  end.

End with_env.
End gstsrt.
Import gstsrt.

(* ===================================================================== *)
(** ** gstsrtserversink.c *)
(* ===================================================================== *)

Module gstsrtserversink.

(** [struct _GstSRTServerSinkPrivate].  The GLib objects [loop], [context],
    [server_source] and [thread] are pointers of which the code only tests
    whether they are NULL: [true] is non-NULL.  [clients] holds the
    addresses stored in the [GList]; the field keeps its value when the
    list it points to is freed. *)
Record GstSRTServerSinkPrivate := mkPriv {
  sock : SRTSOCKET;
  srt_poll_id : Z;
  poll_timeout : Z;
  uri : option GstUri;
  loop : bool;
  context : bool;
  server_source : bool;
  thread : bool;
  clients : list loc;
  queued_buffers : list GstBuffer
}.

Definition SRT_DEFAULT_POLL_TIMEOUT : Z := -1.
Definition SRT_URI_SCHEME : string := "srt".

Definition set_sock (p : GstSRTServerSinkPrivate) (v : SRTSOCKET) :=
  mkPriv v (srt_poll_id p) (poll_timeout p) (uri p) (loop p) (context p)
    (server_source p) (thread p) (clients p) (queued_buffers p).
Definition set_srt_poll_id (p : GstSRTServerSinkPrivate) (v : Z) :=
  mkPriv (sock p) v (poll_timeout p) (uri p) (loop p) (context p)
    (server_source p) (thread p) (clients p) (queued_buffers p).
Definition set_uri (p : GstSRTServerSinkPrivate) (v : option GstUri) :=
  mkPriv (sock p) (srt_poll_id p) (poll_timeout p) v (loop p) (context p)
    (server_source p) (thread p) (clients p) (queued_buffers p).
Definition set_loop (p : GstSRTServerSinkPrivate) (v : bool) :=
  mkPriv (sock p) (srt_poll_id p) (poll_timeout p) (uri p) v (context p)
    (server_source p) (thread p) (clients p) (queued_buffers p).
Definition set_context (p : GstSRTServerSinkPrivate) (v : bool) :=
  mkPriv (sock p) (srt_poll_id p) (poll_timeout p) (uri p) (loop p) v
    (server_source p) (thread p) (clients p) (queued_buffers p).
Definition set_server_source (p : GstSRTServerSinkPrivate) (v : bool) :=
  mkPriv (sock p) (srt_poll_id p) (poll_timeout p) (uri p) (loop p) (context p)
    v (thread p) (clients p) (queued_buffers p).
Definition set_thread (p : GstSRTServerSinkPrivate) (v : bool) :=
  mkPriv (sock p) (srt_poll_id p) (poll_timeout p) (uri p) (loop p) (context p)
    (server_source p) v (clients p) (queued_buffers p).
Definition set_clients (p : GstSRTServerSinkPrivate) (v : list loc) :=
  mkPriv (sock p) (srt_poll_id p) (poll_timeout p) (uri p) (loop p) (context p)
    (server_source p) (thread p) v (queued_buffers p).
Definition set_queued_buffers (p : GstSRTServerSinkPrivate) (v : list GstBuffer) :=
  mkPriv (sock p) (srt_poll_id p) (poll_timeout p) (uri p) (loop p) (context p)
    (server_source p) (thread p) (clients p) v.

Section with_env.
Context {E : Env}.

(** [g_source_attach (source, context)]. *)
Definition g_source_attach (c : Ctx) (f : GSourceFunc) : M unit :=
  l ← get_sources c;
  set_sources c (g_list_append l f) ;;
  emit (ESourceAttach c f).

(** GLib takes a source out of its context when the source is destroyed,
    which is also what it does when the callback returns FALSE. *)
Definition g_source_destroy (c : Ctx) (f : GSourceFunc) : M unit :=
  l ← get_sources c;
  set_sources c (g_list_remove l f) ;;
  emit (ESourceRemove c f).

Definition srt_emit_client_removed (client : loc) : M unit :=
  c ← heap_load client;
  emit (ESignal SIG_CLIENT_REMOVED (gstsrt_h.sock c) (gstsrt_h.addr c)).

Definition idle_listen_callback (priv : GstSRTServerSinkPrivate)
    : M (gboolean * GstSRTServerSinkPrivate) :=
  w ← call (srt_epoll_wait_read (srt_poll_id priv) (poll_timeout priv));
  if Z.eqb (ret w) (-1) then
    (* Assuming that timeout error is normal *)
    e ← call srt_getlasterror;
    r ← (if negb (Z.eqb (ret e) SRT_ETIMEOUT)
         then gst_log LDebug ;; mret FALSE
         else mret TRUE);
    call srt_clearlasterror ;;
    mret (r, priv)
  else
    a ← call (srt_accept (sock priv));
    let client_sock := ret a in
    if Z.eqb client_sock SRT_INVALID_SOCK then
      gst_log LWarning ;;
      call srt_clearlasterror ;;
      mret (FALSE, priv)
    else
      let client_addr := g_inet_address_new_from_bytes (out_bytes a) (out_family a) in
      srt_client ← gst_srt_client_new client_sock client_addr;
      match srt_client, client_addr with
      | Some p, Some ca =>
          let priv := set_clients priv (g_list_append (clients priv) p) in
          c ← heap_load p;
          emit (ESignal SIG_CLIENT_ADDED (gstsrt_h.sock c) ca) ;;
          gst_log LDebug ;;
          mret (TRUE, priv)
      | _, _ =>
          (* [srt_client] is NULL and [srt_client->sock] is read *)
          fault
      end.

(** The tail of [gst_srt_server_sink_start], from [priv->context =
    g_main_context_new ()] on. *)
Definition start_loop (priv : GstSRTServerSinkPrivate)
    : M (gboolean * GstSRTServerSinkPrivate) :=
  (* [g_main_context_new ()]: the server's context is a new, empty one *)
  let priv := set_context priv true in
  set_sources CtxServer [] ;;
  let priv := set_server_source priv true in
  g_source_attach CtxServer cb_idle_listen_callback ;;
  let priv := set_loop priv true in
  emit EMutexLock ;;
  t ← call g_thread_try_new;
  (* [ret t] is the GThread pointer; it is NULL exactly when [error] is set *)
  let priv := set_thread priv (negb (Z.eqb (ret t) 0)) in
  r ← (if Z.eqb (ret t) 0 then gst_log LWarning ;; mret FALSE else mret TRUE);
  emit EMutexUnlock ;;
  mret (r, priv).

(** The middle of [gst_srt_server_sink_start]: after [srt_bind] returned
    [srt_stat]. *)
Definition start_bound (priv : GstSRTServerSinkPrivate) (srt_stat : Z)
    : M (gboolean * GstSRTServerSinkPrivate) :=
  if Z.eqb srt_stat SRT_ERROR then
    gst_log LWarning ;;
    call (srt_close (sock priv)) ;;
    mret (FALSE, priv)
  else
    l ← call (srt_listen (sock priv) 1);
    if Z.eqb (ret l) SRT_ERROR then
      gst_log LWarning ;;
      call (srt_close (sock priv)) ;;
      mret (FALSE, priv)
    else start_loop priv.

Definition gst_srt_server_sink_start (priv : GstSRTServerSinkPrivate)
    : M (gboolean * GstSRTServerSinkPrivate) :=
  let host := gst_uri_get_host (uri priv) in
  let port := gst_uri_get_port (uri priv) in
  match host with
  | None => gst_log LWarning ;; mret (FALSE, priv)
  | Some host =>
  if Z.eqb port GST_URI_NO_PORT then gst_log LWarning ;; mret (FALSE, priv) else
  match g_inet_socket_address_new_from_string host port with
  | None => gst_log LWarning ;; mret (FALSE, priv)
  | Some inet_addr =>
      s ← call (srt_socket (inet_family inet_addr));
      let priv := set_sock priv (ret s) in
      if Z.eqb (sock priv) SRT_ERROR then
        gst_log LWarning ;; mret (FALSE, priv)
      else
        (* Make SRT non-blocking *)
        call (srt_setsockopt_sndsyn (sock priv) 0) ;;
        e ← call srt_epoll_create;
        let priv := set_srt_poll_id priv (ret e) in
        if Z.eqb (srt_poll_id priv) (-1) then
          gst_log LWarning ;;
          call (srt_close (sock priv)) ;;
          (* [ret] still holds its initial value TRUE *)
          mret (TRUE, priv)
        else
          call (srt_epoll_add_usock (srt_poll_id priv) (sock priv) SRT_EPOLL_IN) ;;
          match inet_family inet_addr with
          | G_SOCKET_FAMILY_IPV4 | G_SOCKET_FAMILY_IPV6 =>
              b ← call (srt_bind (sock priv) inet_addr
                          (g_inet_socket_address_get_port port));
              gst_log LInfo ;;
              start_bound priv (ret b)
          | _ =>
              gst_log LWarning ;;
              call (srt_close (sock priv)) ;;
              mret (FALSE, priv)
          end
  end
  end.

(** The inner [while (clients != NULL)] loop of [srt_send_buffer].
    [cursor] is the local [clients], advanced before the send;
    [registry] is [priv->clients]. *)
Fixpoint send_to_clients (data : list Z) (cursor : list loc) (registry : list loc)
    : M (list loc) :=
  match cursor with
  | [] => mret registry
  | client :: next =>
      c ← heap_load client;
      r ← call (srt_sendmsg2 (gstsrt_h.sock c) data);
      if Z.eqb (ret r) SRT_ERROR then
        gst_log LWarning ;;
        let registry := g_list_remove registry client in
        emit (ESignal SIG_CLIENT_REMOVED (gstsrt_h.sock c) (gstsrt_h.addr c)) ;;
        gst_srt_client_unref (Some client) ;;
        send_to_clients data next registry
      else
        send_to_clients data next registry
  end.

(** The outer [for (; buffers; buffers = buffers->next)] loop.  The local
    [clients] is initialised once, before the loop: after the first mapped
    buffer it is NULL. *)
Fixpoint send_buffers (buffers : list GstBuffer) (cursor : list loc)
    (registry : list loc) : M (list loc) :=
  match buffers with
  | [] => mret registry
  | buffer :: next =>
      gst_log LTrace ;;
      m ← call (gst_buffer_map buffer);
      if Z.eqb (ret m) 0 then
        emit EElementError ;;
        send_buffers next cursor registry
      else
        registry ← send_to_clients (buf_data buffer) cursor registry;
        send_buffers next [] registry
  end.

Definition srt_send_buffer (priv : GstSRTServerSinkPrivate)
    : M (gboolean * GstSRTServerSinkPrivate) :=
  let buffers := queued_buffers priv in
  let clients_ := clients priv in
  gst_log LTrace ;;
  emit EMutexLock ;;
  registry ← send_buffers buffers clients_ (clients priv);
  let priv := set_clients priv registry in
  (* g_list_free_full (priv->queued_buffers, gst_buffer_unref) *)
  let priv := set_queued_buffers priv [] in
  emit EMutexUnlock ;;
  mret (FALSE, priv).

Definition gst_srt_server_sink_render (priv : GstSRTServerSinkPrivate)
    (buffer : GstBuffer) : M (GstFlowReturn * GstSRTServerSinkPrivate) :=
  emit EMutexLock ;;
  priv ← (match queued_buffers priv with
          | [] =>
              let priv :=
                set_queued_buffers priv (g_list_append (queued_buffers priv) buffer) in
              g_source_attach CtxDefault cb_srt_send_buffer ;;
              mret priv
          | _ :: _ => mret priv
          end);
  emit EMutexUnlock ;;
  mret (GST_FLOW_OK, priv).

(** [g_list_foreach (l, f)]. *)
Fixpoint g_list_foreach (l : list loc) (f : loc -> M unit) : M unit :=
  match l with
  | [] => mret tt
  | x :: l' => f x ;; g_list_foreach l' f
  end.

Definition gst_srt_server_sink_stop (priv : GstSRTServerSinkPrivate)
    : M (gboolean * GstSRTServerSinkPrivate) :=
  gst_log LDebug ;;
  g_list_foreach (clients priv) srt_emit_client_removed ;;
  (* g_list_free_full: the nodes are freed, [priv->clients] is not reset *)
  g_list_foreach (clients priv) (fun c => gst_srt_client_unref (Some c)) ;;
  gst_log LDebug ;;
  call (srt_epoll_remove_usock (srt_poll_id priv) (sock priv)) ;;
  call (srt_epoll_release (srt_poll_id priv)) ;;
  call (srt_close (sock priv)) ;;
  priv ← (if loop priv then
            call g_main_loop_quit ;;
            call g_thread_join ;;
            mret (set_thread (set_loop priv false) false)
          else mret priv);
  priv ← (if server_source priv then
            g_source_destroy CtxServer cb_idle_listen_callback ;;
            mret (set_server_source priv false)
          else mret priv);
  let priv := set_context priv false in
  mret (TRUE, priv).

(** *** The GLib main loop

    One dispatch of an idle source runs its callback; GLib destroys the
    source when the callback returns FALSE ([G_SOURCE_REMOVE]) and keeps it
    armed when it returns TRUE ([G_SOURCE_CONTINUE]). *)
Definition dispatch (ctx : Ctx) (f : GSourceFunc) (priv : GstSRTServerSinkPrivate)
    : M GstSRTServerSinkPrivate :=
  '(continue, priv) ← (match f with
                       | cb_idle_listen_callback => idle_listen_callback priv
                       | cb_srt_send_buffer => srt_send_buffer priv
                       end);
  if continue : bool then mret priv
  else g_source_destroy ctx f ;; mret priv.

Fixpoint dispatch_all (ctx : Ctx) (l : list GSourceFunc) (priv : GstSRTServerSinkPrivate)
    : M GstSRTServerSinkPrivate :=
  match l with
  | [] => mret priv
  | f :: l' => priv ← dispatch ctx f priv; dispatch_all ctx l' priv
  end.

(** One iteration dispatches the idle sources attached when it begins. *)
Definition g_main_context_iteration (ctx : Ctx) (priv : GstSRTServerSinkPrivate)
    : M GstSRTServerSinkPrivate :=
  l ← get_sources ctx;
  dispatch_all ctx l priv.

(** [thread_func]: [g_main_loop_run (priv->loop)], for [n] iterations. *)
Fixpoint thread_func (n : nat) (priv : GstSRTServerSinkPrivate)
    : M GstSRTServerSinkPrivate :=
  match n with
  | O => mret priv
  | S n' => priv ← g_main_context_iteration CtxServer priv; thread_func n' priv
  end.

Definition gst_srt_server_sink_uri_get_uri (priv : GstSRTServerSinkPrivate)
    : M (option string) :=
  emit EObjectLock ;;
  let uri_str := gst_uri_to_string (uri priv) in
  emit EObjectUnlock ;;
  mret uri_str.

(** [error] tells whether the caller passed a non-NULL [GError **]; the
    second component of the result is what [g_set_error] stores there. *)
Definition gst_srt_server_sink_uri_set_uri (priv : GstSRTServerSinkPrivate)
    (uri_ : string) (error : bool)
    : M (gboolean * option GError * GstSRTServerSinkPrivate) :=
  let parsed_uri := gst_uri_from_string uri_ in
  gst_log LTrace ;;
  if negb (g_strcmp0_eq (gst_uri_get_scheme parsed_uri) (Some SRT_URI_SCHEME)) then
    mret (FALSE, if error then Some GST_URI_ERROR_BAD_URI else None, priv)
  else
    emit EObjectLock ;;
    let priv := set_uri priv parsed_uri in
    emit EObjectUnlock ;;
    mret (TRUE, None, priv).

End with_env.
End gstsrtserversink.

(* ===================================================================== *)
(** ** gstsrtclientsrc.c *)
(* ===================================================================== *)

Module gstsrtclientsrc.

(** [struct _GstSrtClientSrcPrivate]; [caps] plays no part below. *)
Record GstSrtClientSrcPrivate := mkPriv {
  srt_sock : SRTSOCKET;
  srt_poll_id : Z;
  uri : option GstUri
}.

Definition SRT_URI_SCHEME : string := "srt".

Definition set_srt_sock (p : GstSrtClientSrcPrivate) (v : SRTSOCKET) :=
  mkPriv v (srt_poll_id p) (uri p).
Definition set_srt_poll_id (p : GstSrtClientSrcPrivate) (v : Z) :=
  mkPriv (srt_sock p) v (uri p).
Definition set_uri (p : GstSrtClientSrcPrivate) (v : option GstUri) :=
  mkPriv (srt_sock p) (srt_poll_id p) v.

(** What [srt_recvmsg] leaves in the mapped memory: the received bytes
    over the start of the buffer, never past its end. *)
Definition mem_write (old new : list Z) : list Z :=
  let new := take (length old) new in
  new ++ drop (length new) old.

Section with_env.
Context {E : Env}.

(** [base_time] is [GST_ELEMENT_CAST (src)->base_time]. *)
Definition gst_srt_client_src_fill (priv : GstSrtClientSrcPrivate)
    (base_time : Z) (outbuf : GstBuffer) : M (GstFlowReturn * GstBuffer) :=
  w ← call (srt_epoll_wait_write (srt_poll_id priv) (-1));
  if Z.eqb (ret w) (-1) then
    gst_log LDebug ;;
    mret (GST_FLOW_ERROR, outbuf)
  else
    m ← call (gst_buffer_map outbuf);
    if Z.eqb (ret m) 0 then
      emit EElementError ;;
      mret (GST_FLOW_ERROR, outbuf)
    else
      r ← call (srt_recvmsg (srt_sock priv) (gst_buffer_get_size outbuf));
      let recv_len := ret r in
      let outbuf := mkGstBuffer (mem_write (buf_data outbuf) (out_bytes r)) (buf_pts outbuf) in
      if Z.eqb recv_len SRT_ERROR then
        gst_log LWarning ;;
        mret (GST_FLOW_ERROR, outbuf)
      else if Z.eqb recv_len 0 then
        mret (GST_FLOW_EOS, outbuf)
      else
        t ← call gst_clock_get_time;
        let outbuf := mkGstBuffer (buf_data outbuf) (Some (guint64_wrap (ret t - base_time))) in
        (if gst_buffer_resize_fits outbuf recv_len then mret tt else gst_log LCritical) ;;
        let outbuf := gst_buffer_resize outbuf recv_len in
        gst_log LLog ;;
        mret (GST_FLOW_OK, outbuf).

Definition gst_srt_client_src_start (priv : GstSrtClientSrcPrivate)
    : M (gboolean * GstSrtClientSrcPrivate) :=
  let host := gst_uri_get_host (uri priv) in
  let port := gst_uri_get_port (uri priv) in
  match host with
  | None => gst_log LWarning ;; mret (FALSE, priv)
  | Some host =>
  if Z.eqb port GST_URI_NO_PORT then gst_log LWarning ;; mret (FALSE, priv) else
  match g_inet_socket_address_new_from_string host port with
  | None => gst_log LWarning ;; mret (FALSE, priv)
  | Some inet_addr =>
      s ← call (srt_socket (inet_family inet_addr));
      let priv := set_srt_sock priv (ret s) in
      if Z.eqb (srt_sock priv) SRT_ERROR then
        gst_log LWarning ;; mret (FALSE, priv)
      else
        e ← call srt_epoll_create;
        let priv := set_srt_poll_id priv (ret e) in
        if Z.eqb (srt_poll_id priv) (-1) then
          gst_log LWarning ;;
          call (srt_close (srt_sock priv)) ;;
          (* [ret] still holds its initial value TRUE *)
          mret (TRUE, priv)
        else
          call (srt_epoll_add_usock (srt_poll_id priv) (srt_sock priv) SRT_EPOLL_OUT) ;;
          match inet_family inet_addr with
          | G_SOCKET_FAMILY_IPV4 | G_SOCKET_FAMILY_IPV6 =>
              c ← call (srt_connect (srt_sock priv) inet_addr
                          (g_inet_socket_address_get_port port));
              if Z.eqb (ret c) SRT_ERROR then
                gst_log LWarning ;;
                call (srt_close (srt_sock priv)) ;;
                mret (FALSE, priv)
              else mret (TRUE, priv)
          | _ =>
              gst_log LWarning ;;
              call (srt_close (srt_sock priv)) ;;
              mret (FALSE, priv)
          end
  end
  end.

Definition gst_srt_client_src_stop (priv : GstSrtClientSrcPrivate)
    : M (gboolean * GstSrtClientSrcPrivate) :=
  call (srt_epoll_remove_usock (srt_poll_id priv) (srt_sock priv)) ;;
  call (srt_epoll_release (srt_poll_id priv)) ;;
  gst_log LDebug ;;
  call (srt_close (srt_sock priv)) ;;
  mret (TRUE, priv).

Definition gst_srt_client_src_uri_get_uri (priv : GstSrtClientSrcPrivate)
    : M (option string) :=
  emit EObjectLock ;;
  let uri_str := gst_uri_to_string (uri priv) in
  emit EObjectUnlock ;;
  mret uri_str.

Definition gst_srt_client_src_uri_set_uri (priv : GstSrtClientSrcPrivate)
    (uri_ : string) (error : bool)
    : M (gboolean * option GError * GstSrtClientSrcPrivate) :=
  let parsed_uri := gst_uri_from_string uri_ in
  gst_log LTrace ;;
  if negb (g_strcmp0_eq (gst_uri_get_scheme parsed_uri) (Some SRT_URI_SCHEME)) then
    mret (FALSE, if error then Some GST_URI_ERROR_BAD_URI else None, priv)
  else
    emit EObjectLock ;;
    let priv := set_uri priv parsed_uri in
    emit EObjectUnlock ;;
    mret (TRUE, None, priv).

End with_env.
End gstsrtclientsrc.

(* ===================================================================== *)
(** ** Observations on traces *)
(* ===================================================================== *)

Section observe.
Context {E : Env}.

(** The events a run added to the trace. *)
Definition new_events (rt rt' : Runtime) : list Event :=
  drop (length (rt_trace rt)) (rt_trace rt').

End observe.

(** Socket and payload of every [srt_sendmsg2] call, in order. *)
Fixpoint sends (evs : list Event) : list (SRTSOCKET * list Z) :=
  match evs with
  | [] => []
  | ECall (srt_sendmsg2 s d) _ :: t => (s, d) :: sends t
  | _ :: t => sends t
  end.

(** Return value of every [srt_sendmsg2] call, in order. *)
Fixpoint send_results (evs : list Event) : list Z :=
  match evs with
  | [] => []
  | ECall (srt_sendmsg2 _ _) r :: t => ret r :: send_results t
  | _ :: t => send_results t
  end.

(** The sockets handed to [srt_close], in order. *)
Fixpoint closes (evs : list Event) : list SRTSOCKET :=
  match evs with
  | [] => []
  | ECall (srt_close s) _ :: t => s :: closes t
  | _ :: t => closes t
  end.

(** The poll ids handed to [srt_epoll_release], in order. *)
Fixpoint epoll_releases (evs : list Event) : list Z :=
  match evs with
  | [] => []
  | ECall (srt_epoll_release e) _ :: t => e :: epoll_releases t
  | _ :: t => epoll_releases t
  end.

(** The poll ids [srt_epoll_create] handed out. *)
Fixpoint epoll_creates (evs : list Event) : list Z :=
  match evs with
  | [] => []
  | ECall srt_epoll_create r :: t =>
      if Z.eqb (ret r) (-1) then epoll_creates t else ret r :: epoll_creates t
  | _ :: t => epoll_creates t
  end.

(** The sockets [srt_socket] handed out. *)
Fixpoint socket_creates (evs : list Event) : list SRTSOCKET :=
  match evs with
  | [] => []
  | ECall (srt_socket _) r :: t =>
      if Z.eqb (ret r) SRT_ERROR then socket_creates t else ret r :: socket_creates t
  | _ :: t => socket_creates t
  end.

(** The signals of kind [s], with their arguments, in order. *)
Fixpoint signals (s : Signal) (evs : list Event) : list (SRTSOCKET * GInetAddress) :=
  match evs with
  | [] => []
  | ESignal s' k a :: t =>
      match s, s' with
      | SIG_CLIENT_ADDED, SIG_CLIENT_ADDED
      | SIG_CLIENT_REMOVED, SIG_CLIENT_REMOVED => (k, a) :: signals s t
      | _, _ => signals s t
      end
  | _ :: t => signals s t
  end.

(** The log lines of level [l]. *)
Fixpoint logged (l : LogLevel) (evs : list Event) : nat :=
  match evs with
  | [] => O
  | ELog l' :: t =>
      match l, l' with
      | LTrace, LTrace | LLog, LLog | LDebug, LDebug | LInfo, LInfo
      | LWarning, LWarning | LCritical, LCritical => S (logged l t)
      | _, _ => logged l t
      end
  | _ :: t => logged l t
  end.


Definition is_mutex_event (e : Event) : bool :=
  match e with
  | EMutexLock | EMutexUnlock => true
  | _ => false
  end.

(** A stretch of trace in which [priv->mutex] is neither taken nor given up. *)
Definition lock_free (evs : list Event) : Prop :=
  Forall (λ e, is_mutex_event e = false) evs.


Section repeated.
Context {E : Env}.

Fixpoint ref_times (n : nat) (p : loc) : M unit :=
  match n with
  | O => mret tt
  | S n' => gst_srt_client_ref (Some p) ;; ref_times n' p
  end.

Fixpoint unref_times (n : nat) (p : loc) : M unit :=
  match n with
  | O => mret tt
  | S n' => gst_srt_client_unref (Some p) ;; unref_times n' p
  end.

End repeated.

(* ===================================================================== *)
(** ** Concrete environments *)
(* ===================================================================== *)

Definition ipv4_localhost : GInetAddress := mkGInetAddress G_SOCKET_FAMILY_IPV4 [127; 0; 0; 1].

(** A toy URI reader that knows three strings. *)
Definition parse_uri (s : string) : option GstUri :=
  if String.eqb s "srt://127.0.0.1:7001"
  then Some (mkGstUri (Some "srt") (Some "127.0.0.1") 7001)
  else if String.eqb s "srt://127.0.0.1:7000"
  then Some (mkGstUri (Some "srt") (Some "127.0.0.1") 7000)
  else if String.eqb s "http://example.org:80"
  then Some (mkGstUri (Some "http") (Some "example.org") 80)
  else None.

Definition print_uri (u : option GstUri) : option string :=
  match u with
  | Some (mkGstUri (Some sch) (Some h) 7001) => Some (sch ++ "://" ++ h ++ ":7001")%string
  | Some (mkGstUri (Some sch) (Some h) 7000) => Some (sch ++ "://" ++ h ++ ":7000")%string
  | Some (mkGstUri (Some sch) (Some h) _) => Some (sch ++ "://" ++ h)%string
  | _ => None
  end.

Definition resolve_host (h : string) (port : Z) : option GInetAddress :=
  if String.eqb h "127.0.0.1" then Some ipv4_localhost else None.

(** The environment in which every call is answered by [f]. *)
Definition env_of (f : Call -> Reply) : Env := fn_env f parse_uri print_uri resolve_host.

(** A network on which everything succeeds: sockets and poll ids are handed
    out as 3 and 7, sends and other calls return 0. *)
Definition calm (c : Call) : Reply :=
  match c with
  | srt_socket _ => reply 3
  | srt_epoll_create => reply 7
  | srt_accept _ => mkReply 11 G_SOCKET_FAMILY_IPV4 [10; 0; 0; 2]
  | g_thread_try_new => reply 1
  | gst_buffer_map _ => reply 1
  | gst_clock_get_time => reply 100
  | _ => reply 0
  end.

Definition empty_runtime (E : Env) (w : @World E) : @Runtime E :=
  mkRuntime w ∅ [] [] [].

Definition server_priv0 : gstsrtserversink.GstSRTServerSinkPrivate :=
  gstsrtserversink.mkPriv 0 0 gstsrtserversink.SRT_DEFAULT_POLL_TIMEOUT
    (parse_uri "srt://127.0.0.1:7001") false false false false [] [].

Definition client_priv0 : gstsrtclientsrc.GstSrtClientSrcPrivate :=
  gstsrtclientsrc.mkPriv 0 0 (parse_uri "srt://127.0.0.1:7000").

(** A network that delivers the three bytes 1, 2, 3 at clock time 100. *)
Definition receiving (c : Call) : Reply :=
  match c with
  | srt_recvmsg _ _ => mkReply 3 G_SOCKET_FAMILY_INVALID [1; 2; 3]
  | c => calm c
  end.


Definition outbuf0 : GstBuffer := mkGstBuffer [0; 0; 0; 0; 0] None.

(** Who is left in the registry, and who was evicted, given the return
    values of the sends in registry order. *)
Fixpoint survivors (l : list loc) (rs : list Z) : list loc :=
  match l, rs with
  | p :: l', r :: rs' =>
      if Z.eqb r SRT_ERROR then survivors l' rs' else p :: survivors l' rs'
  | _, _ => []
  end.

Fixpoint casualties (l : list loc) (rs : list Z) : list loc :=
  match l, rs with
  | p :: l', r :: rs' =>
      if Z.eqb r SRT_ERROR then p :: casualties l' rs' else casualties l' rs'
  | _, _ => []
  end.

Definition default_client : GstSRTClient :=
  mkGstSRTClient SRT_INVALID_SOCK (mkGInetAddress G_SOCKET_FAMILY_INVALID []) 0.

(** The session stored at [p]. *)
Definition client_at (h : gmap loc GstSRTClient) (p : loc) : GstSRTClient :=
  default (default_client) (h !! p).

Definition peer_of (h : gmap loc GstSRTClient) (p : loc) : SRTSOCKET * GInetAddress :=
  (gstsrt_h.sock (client_at h p), gstsrt_h.addr (client_at h p)).

(** A network on which the peer behind socket 12 is gone: sends to it fail,
    everything else is as in [calm]. *)
Definition lossy (c : Call) : Reply :=
  match c with
  | srt_sendmsg2 12 _ => reply SRT_ERROR
  | c => calm c
  end.

Definition peer (n : Z) : GInetAddress := mkGInetAddress G_SOCKET_FAMILY_IPV4 [10; 0; 0; n].

(** Three accepted sessions, at addresses 0, 1, 2, on sockets 11, 12, 13. *)
Definition three_sessions : gmap loc GstSRTClient :=
  <[0%nat := mkGstSRTClient 11 (peer 1) 1]>
    (<[1%nat := mkGstSRTClient 12 (peer 2) 1]>
       (<[2%nat := mkGstSRTClient 13 (peer 3) 1]> ∅)).

Definition serving (E : Env) (w : @World E) : @Runtime E :=
  mkRuntime w three_sessions [cb_srt_send_buffer] [cb_idle_listen_callback] [].

Definition buffer_B0 : GstBuffer := mkGstBuffer [100] None.
Definition buffer_B1 : GstBuffer := mkGstBuffer [101] None.
Definition buffer_B2 : GstBuffer := mkGstBuffer [102] None.
Definition buffer_B3 : GstBuffer := mkGstBuffer [103] None.

(** A started server with the three sessions registered and [B0] queued. *)
Definition server_busy : gstsrtserversink.GstSRTServerSinkPrivate :=
  gstsrtserversink.mkPriv 3 7 gstsrtserversink.SRT_DEFAULT_POLL_TIMEOUT
    (parse_uri "srt://127.0.0.1:7001") true true true true [0; 1; 2]%nat [buffer_B0].

(** A network whose first [srt_accept] fails and whose later ones hand out
    socket 11; the world counts the accepts made. *)
Definition flaky_accept : Env :=
  {| World := nat;
     oracle := fun w c =>
       match c with
       | srt_accept _ =>
           (match w with
            | O => reply SRT_INVALID_SOCK
            | S _ => mkReply 11 G_SOCKET_FAMILY_IPV4 [10; 0; 0; 2]
            end, S w)
       | c => (calm c, w)
       end;
     gst_uri_from_string := parse_uri;
     gst_uri_to_string := print_uri;
     g_inet_socket_address_new_from_string := resolve_host |}.

(** A started server with nobody connected and nothing queued. *)
Definition server_listening : gstsrtserversink.GstSRTServerSinkPrivate :=
  gstsrtserversink.mkPriv 3 7 gstsrtserversink.SRT_DEFAULT_POLL_TIMEOUT
    (parse_uri "srt://127.0.0.1:7001") true true true true [] [].

Definition listening (E : Env) (w : @World E) : @Runtime E :=
  mkRuntime w ∅ [] [cb_idle_listen_callback] [].

(** A network on which the port is taken: [srt_bind] fails. *)
Definition bind_refused (c : Call) : Reply :=
  match c with
  | srt_bind _ _ _ => reply SRT_ERROR
  | c => calm c
  end.

(** A network with nobody listening: [srt_connect] fails. *)
Definition connect_refused (c : Call) : Reply :=
  match c with
  | srt_connect _ _ _ => reply SRT_ERROR
  | c => calm c
  end.

(** A libsrt that has run out of poll ids. *)
Definition no_poll_ids (c : Call) : Reply :=
  match c with
  | srt_epoll_create => reply (-1)
  | c => calm c
  end.

(** A client connected on socket 3 with poll id 7. *)
Definition client_connected : gstsrtclientsrc.GstSrtClientSrcPrivate :=
  gstsrtclientsrc.mkPriv 3 7 (parse_uri "srt://127.0.0.1:7000").

(** The calls to [g_main_loop_quit] and [g_thread_join]. *)
Fixpoint loop_shutdowns (evs : list Event) : nat :=
  match evs with
  | [] => O
  | ECall g_main_loop_quit _ :: t | ECall g_thread_join _ :: t => S (loop_shutdowns t)
  | _ :: t => loop_shutdowns t
  end.

(** A network for the two-peer scenario: the n-th accept hands out socket
    [11 + n]; the peer behind socket 11 is gone by the time the payload
    [[101]] is sent. *)
Definition two_peers : Env :=
  {| World := nat;
     oracle := fun w c =>
       match c with
       | srt_accept _ =>
           (mkReply (11 + Z.of_nat w) G_SOCKET_FAMILY_IPV4 [10; 0; 0; 1 + Z.of_nat w], S w)
       | srt_sendmsg2 11 [101] => (reply SRT_ERROR, w)
       | c => (calm c, w)
       end;
     gst_uri_from_string := parse_uri;
     gst_uri_to_string := print_uri;
     g_inet_socket_address_new_from_string := resolve_host |}.

(** A buffer whose memory cannot be mapped. *)
Definition map_refused (c : Call) : Reply :=
  match c with
  | gst_buffer_map _ => reply 0
  | c => calm c
  end.

(** A readiness wait that fails, with [e] as the last error. *)
Definition wait_fails (e : Z) (c : Call) : Reply :=
  match c with
  | srt_epoll_wait_read _ _ => reply (-1)
  | srt_getlasterror => reply e
  | c => calm c
  end.

(** A peer whose [sa_family] is not an internet family. *)
Definition unix_peer (c : Call) : Reply :=
  match c with
  | srt_accept _ => mkReply 11 G_SOCKET_FAMILY_UNIX []
  | c => calm c
  end.


(** A process that cannot make another thread. *)
Definition no_threads (c : Call) : Reply :=
  match c with
  | g_thread_try_new => reply 0
  | c => calm c
  end.

(** An element whose URI names port 70000. *)
Definition client_priv_70000 : gstsrtclientsrc.GstSrtClientSrcPrivate :=
  gstsrtclientsrc.mkPriv 0 0 (Some (mkGstUri (Some "srt") (Some "127.0.0.1") 70000)).

Definition server_priv_70000 : gstsrtserversink.GstSRTServerSinkPrivate :=
  gstsrtserversink.mkPriv 0 0 gstsrtserversink.SRT_DEFAULT_POLL_TIMEOUT
    (Some (mkGstUri (Some "srt") (Some "127.0.0.1") 70000)) false false false false [] [].

(** A started server with the three sessions registered and nothing
    queued, and the runtime it lives in. *)
Definition server_idle : gstsrtserversink.GstSRTServerSinkPrivate :=
  gstsrtserversink.mkPriv 3 7 gstsrtserversink.SRT_DEFAULT_POLL_TIMEOUT
    (parse_uri "srt://127.0.0.1:7001") true true true true [0; 1; 2]%nat [].

Definition waiting (E : Env) (w : @World E) : @Runtime E :=
  mkRuntime w three_sessions [] [cb_idle_listen_callback] [].

Section registry_invariant.
Context {E : Env}.

(** The registry holds distinct, live sessions. *)
Definition registry_ok (rt : Runtime) (l : list loc) : Prop :=
  NoDup l ∧ ∀ p, p ∈ l -> is_Some (rt_heap rt !! p).

End registry_invariant.

(* ===================================================================== *)
(** ** Object properties and instance initialisation *)
(* ===================================================================== *)

(** A [GValue] holding a string (possibly NULL) or an int. *)
Inductive GValue := GString (s : option string) | GInt (z : Z).

(** [g_value_get_string] and [g_value_get_int] answer NULL and 0 for a
    value of the other type. *)
Definition g_value_get_string (v : GValue) : option string :=
  match v with GString s => s | GInt _ => None end.
Definition g_value_get_int (v : GValue) : Z :=
  match v with GInt z => z | GString _ => 0 end.

Module gstsrtserversink_object.

Definition PROP_URI : Z := 1.
Definition PROP_POLL_TIMEOUT : Z := 2.
Definition SRT_DEFAULT_URI : string := "srt://127.0.0.1:7001".

Definition set_poll_timeout (p : gstsrtserversink.GstSRTServerSinkPrivate) (v : Z) :=
  gstsrtserversink.mkPriv (gstsrtserversink.sock p) (gstsrtserversink.srt_poll_id p) v
    (gstsrtserversink.uri p) (gstsrtserversink.loop p) (gstsrtserversink.context p)
    (gstsrtserversink.server_source p) (gstsrtserversink.thread p)
    (gstsrtserversink.clients p) (gstsrtserversink.queued_buffers p).

(** The instance's private data as GObject hands it out: all zero. *)
Definition zeroed : gstsrtserversink.GstSRTServerSinkPrivate :=
  gstsrtserversink.mkPriv 0 0 0 None false false false false [] [].

Section with_env.
Context {E : Env}.

Definition gst_srt_server_sink_get_property
    (priv : gstsrtserversink.GstSRTServerSinkPrivate) (prop_id : Z) (value : GValue)
    : M GValue :=
  if Z.eqb prop_id PROP_URI then
    match gstsrtserversink.uri priv with
    | Some _ =>
        uri_str ← gstsrtserversink.gst_srt_server_sink_uri_get_uri priv;
        mret (GString uri_str)
    | None => mret value
    end
  else if Z.eqb prop_id PROP_POLL_TIMEOUT then
    mret (GInt (gstsrtserversink.poll_timeout priv))
  else
    (* G_OBJECT_WARN_INVALID_PROPERTY_ID *)
    gst_log LWarning ;; mret value.

(** The URI case calls [set_uri] with a NULL [GError **] and drops its
    result.  For a NULL string the parsed URI has no scheme, so [set_uri]
    takes its error path: it logs and changes nothing. *)
Definition gst_srt_server_sink_set_property
    (priv : gstsrtserversink.GstSRTServerSinkPrivate) (prop_id : Z) (value : GValue)
    : M gstsrtserversink.GstSRTServerSinkPrivate :=
  if Z.eqb prop_id PROP_URI then
    match g_value_get_string value with
    | Some s =>
        '(_, _, priv) ← gstsrtserversink.gst_srt_server_sink_uri_set_uri priv s false;
        mret priv
    | None => gst_log LTrace ;; mret priv
    end
  else if Z.eqb prop_id PROP_POLL_TIMEOUT then
    mret (set_poll_timeout priv (g_value_get_int value))
  else
    gst_log LWarning ;; mret priv.

(** [gst_srt_server_sink_init]: the default URI is stored as parsed, with
    no look at its scheme. *)
Definition gst_srt_server_sink_init : gstsrtserversink.GstSRTServerSinkPrivate :=
  let priv := gstsrtserversink.set_uri zeroed (gst_uri_from_string SRT_DEFAULT_URI) in
  let priv := gstsrtserversink.set_queued_buffers priv [] in
  set_poll_timeout priv gstsrtserversink.SRT_DEFAULT_POLL_TIMEOUT.

End with_env.
End gstsrtserversink_object.

Module gstsrtclientsrc_object.

Definition SRT_DEFAULT_URI : string := "srt://127.0.0.1:7000".

Definition zeroed : gstsrtclientsrc.GstSrtClientSrcPrivate :=
  gstsrtclientsrc.mkPriv 0 0 None.

Section with_env.
Context {E : Env}.

(** [gst_srt_client_src_init]: the default URI goes through [set_uri]. *)
Definition gst_srt_client_src_init : M gstsrtclientsrc.GstSrtClientSrcPrivate :=
  '(_, _, priv) ← gstsrtclientsrc.gst_srt_client_src_uri_set_uri zeroed SRT_DEFAULT_URI false;
  mret priv.

End with_env.
End gstsrtclientsrc_object.

(* ===================================================================== *)
(** ** The server between start and stop *)
(* ===================================================================== *)

(** What runs on a started server: an iteration of the server thread's
    loop, a submission by the producer, an iteration of the default main
    context. *)
Inductive ServerOp :=
| OpServerLoop
| OpSubmit (b : GstBuffer)
| OpDefaultLoop.


(** The library calls in a trace. *)
Fixpoint calls (evs : list Event) : list Call :=
  match evs with
  | [] => []
  | ECall c _ :: t => c :: calls t
  | _ :: t => calls t
  end.

(** The element errors posted on the bus. *)
Fixpoint element_errors (evs : list Event) : nat :=
  match evs with
  | [] => O
  | EElementError :: t => S (element_errors t)
  | _ :: t => element_errors t
  end.

Section server_invariant.
Context {E : Env}.

(** The registry holds distinct live sessions, each with the one reference
    the registry owns. *)
Definition registry_owned (rt : Runtime) (l : list loc) : Prop :=
  NoDup l ∧ ∀ p, p ∈ l -> ∃ c, rt_heap rt !! p = Some c ∧ ref_count c = 1.

Definition server_inv (rt : Runtime) (priv : gstsrtserversink.GstSRTServerSinkPrivate) : Prop :=
  registry_owned rt (gstsrtserversink.clients priv)
  ∧ (length (gstsrtserversink.queued_buffers priv) <= 1)%nat
  ∧ rt_default_ctx rt =
      replicate (length (gstsrtserversink.queued_buffers priv)) cb_srt_send_buffer
  ∧ (rt_server_ctx rt = [] ∨ rt_server_ctx rt = [cb_idle_listen_callback]).

Definition run_op (op : ServerOp) (priv : gstsrtserversink.GstSRTServerSinkPrivate)
    : M gstsrtserversink.GstSRTServerSinkPrivate :=
  match op with
  | OpServerLoop => gstsrtserversink.g_main_context_iteration CtxServer priv
  | OpSubmit b =>
      '(_, priv) ← gstsrtserversink.gst_srt_server_sink_render priv b;
      mret priv
  | OpDefaultLoop => gstsrtserversink.g_main_context_iteration CtxDefault priv
  end.

Fixpoint run_ops (ops : list ServerOp) (priv : gstsrtserversink.GstSRTServerSinkPrivate)
    : M gstsrtserversink.GstSRTServerSinkPrivate :=
  match ops with
  | [] => mret priv
  | op :: ops' => priv ← run_op op priv; run_ops ops' priv
  end.

End server_invariant.

(* ===================================================================== *)
(** ** Reference counting of sessions (gstsrt.c) *)
(* ===================================================================== *)

Ltac munfold :=
  unfold mbind, mret, M_bind, M_ret, bind_, ret_, gst_log, emit, call,
    heap_load, heap_store, heap_free, heap_alloc, fault in *.

Lemma guint_wrap_small (z : Z) : 0 <= z < guint_modulus -> guint_wrap z = z.
Proof. intros H. unfold guint_wrap. now apply Z.mod_small. Qed.

Section refcount.
Context {E : Env}.

Lemma gst_srt_client_new_ok (rt : Runtime) (s : Z) (a : GInetAddress) :
  s ≠ -1 ->
  ∃ p rt', gst_srt_client_new s (Some a) rt = Some (Some p, rt')
    ∧ rt_heap rt !! p = None
    ∧ rt_heap rt' = <[p := mkGstSRTClient s a 1]> (rt_heap rt)
    ∧ rt_world rt' = rt_world rt
    ∧ rt_trace rt' = rt_trace rt.
Proof.
  intros Hs. unfold gst_srt_client_new.
  destruct (Z.eqb_spec s (-1)) as [->|_]; [congruence|].
  munfold. simpl. eexists _, _. split; [reflexivity|]. simpl.
  split; [|auto].
  apply not_elem_of_dom, is_fresh.
Qed.

Lemma gst_srt_client_ref_live (rt : Runtime) (p : loc) (c : GstSRTClient) :
  rt_heap rt !! p = Some c ->
  gst_srt_client_ref (Some p) rt =
    Some (Some p,
          mkRuntime (rt_world rt)
            (<[p := mkGstSRTClient (gstsrt_h.sock c) (gstsrt_h.addr c)
                      (guint_wrap (ref_count c + 1))]> (rt_heap rt))
            (rt_default_ctx rt) (rt_server_ctx rt) (rt_trace rt)).
Proof. intros H. unfold gst_srt_client_ref. munfold. rewrite H. reflexivity. Qed.

(** An unref that leaves the count positive stores the decremented count
    and does nothing else. *)
Lemma gst_srt_client_unref_shared (rt : Runtime) (p : loc) (c : GstSRTClient) :
  rt_heap rt !! p = Some c ->
  1 < ref_count c < guint_modulus ->
  gst_srt_client_unref (Some p) rt =
    Some (tt,
          mkRuntime (rt_world rt)
            (<[p := mkGstSRTClient (gstsrt_h.sock c) (gstsrt_h.addr c)
                      (ref_count c - 1)]> (rt_heap rt))
            (rt_default_ctx rt) (rt_server_ctx rt) (rt_trace rt)).
Proof.
  intros H Hc. unfold gst_srt_client_unref. munfold. rewrite H.
  rewrite guint_wrap_small by lia.
  destruct (Z.ltb_spec 0 (ref_count c - 1)); [reflexivity|lia].
Qed.

(** The unref of the last reference closes the socket and frees the object. *)
Lemma gst_srt_client_unref_last (rt : Runtime) (p : loc) (c : GstSRTClient) :
  rt_heap rt !! p = Some c ->
  ref_count c = 1 ->
  gst_srt_client_unref (Some p) rt =
    Some (tt,
          mkRuntime (oracle (rt_world rt) (srt_close (gstsrt_h.sock c))).2
            (delete p (rt_heap rt))
            (rt_default_ctx rt) (rt_server_ctx rt)
            (rt_trace rt ++
               [ECall (srt_close (gstsrt_h.sock c))
                  (oracle (rt_world rt) (srt_close (gstsrt_h.sock c))).1])).
Proof.
  intros H Hc. unfold gst_srt_client_unref. munfold. rewrite H, Hc. simpl.
  destruct (oracle (rt_world rt) (srt_close (gstsrt_h.sock c))). reflexivity.
Qed.

Lemma ref_times_S (n : nat) (p : loc) (rt : Runtime) :
  ref_times (S n) p rt =
  match gst_srt_client_ref (Some p) rt with
  | Some (_, rt') => ref_times n p rt'
  | None => None
  end.
Proof. reflexivity. Qed.

Lemma unref_times_S (n : nat) (p : loc) (rt : Runtime) :
  unref_times (S n) p rt =
  match gst_srt_client_unref (Some p) rt with
  | Some (_, rt') => unref_times n p rt'
  | None => None
  end.
Proof. reflexivity. Qed.

Lemma ref_times_live (n : nat) : ∀ (rt : Runtime) (p : loc) (s : Z) (a : GInetAddress) (k : Z),
  rt_heap rt !! p = Some (mkGstSRTClient s a k) ->
  0 <= k -> k + Z.of_nat n < guint_modulus ->
  ∃ rt', ref_times n p rt = Some (tt, rt')
    ∧ rt_heap rt' = <[p := mkGstSRTClient s a (k + Z.of_nat n)]> (rt_heap rt)
    ∧ rt_world rt' = rt_world rt
    ∧ rt_trace rt' = rt_trace rt.
Proof.
  induction n as [|n IH]; intros rt p s a k Hp Hk Hn.
  - simpl. exists rt. repeat split; try reflexivity.
    rewrite Z.add_0_r. symmetry. now apply insert_id.
  - rewrite ref_times_S, (gst_srt_client_ref_live rt p _ Hp).
    cbn [gstsrt_h.ref_count gstsrt_h.sock gstsrt_h.addr].
    rewrite guint_wrap_small by lia.
    edestruct (IH (mkRuntime (rt_world rt)
                     (<[p := mkGstSRTClient s a (k + 1)]> (rt_heap rt))
                     (rt_default_ctx rt) (rt_server_ctx rt) (rt_trace rt))
                 p s a (k + 1)) as (rt' & Hrun & Hh & Hw & Ht).
    + simpl. apply lookup_insert_eq.
    + lia.
    + lia.
    + exists rt'. split; [exact Hrun|]. simpl in *.
      rewrite Hh, insert_insert_eq. repeat split; auto.
      f_equal. f_equal. lia.
Qed.

Lemma unref_times_shared (j : nat) : ∀ (rt : Runtime) (p : loc) (s : Z) (a : GInetAddress) (k : Z),
  rt_heap rt !! p = Some (mkGstSRTClient s a k) ->
  Z.of_nat j < k < guint_modulus ->
  ∃ rt', unref_times j p rt = Some (tt, rt')
    ∧ rt_heap rt' = <[p := mkGstSRTClient s a (k - Z.of_nat j)]> (rt_heap rt)
    ∧ rt_world rt' = rt_world rt
    ∧ rt_trace rt' = rt_trace rt.
Proof.
  induction j as [|j IH]; intros rt p s a k Hp Hk.
  - simpl. exists rt. repeat split; try reflexivity.
    rewrite Z.sub_0_r. symmetry. now apply insert_id.
  - rewrite unref_times_S, (gst_srt_client_unref_shared rt p _ Hp) by (simpl; lia).
    cbn [gstsrt_h.ref_count gstsrt_h.sock gstsrt_h.addr].
    edestruct (IH (mkRuntime (rt_world rt)
                     (<[p := mkGstSRTClient s a (k - 1)]> (rt_heap rt))
                     (rt_default_ctx rt) (rt_server_ctx rt) (rt_trace rt))
                 p s a (k - 1)) as (rt' & Hrun & Hh & Hw & Ht).
    + simpl. apply lookup_insert_eq.
    + lia.
    + exists rt'. split; [exact Hrun|]. simpl in *.
      rewrite Hh, insert_insert_eq. repeat split; auto.
      f_equal. f_equal. lia.
Qed.

Lemma unref_times_app (i j : nat) (p : loc) (rt : Runtime) :
  unref_times (i + j) p rt =
  match unref_times i p rt with
  | Some (_, rt') => unref_times j p rt'
  | None => None
  end.
Proof.
  revert rt. induction i as [|i IH]; intros rt.
  - reflexivity.
  - change (S i + j)%nat with (S (i + j)). rewrite !unref_times_S.
    destruct (gst_srt_client_unref (Some p) rt) as [[[] rt1]|]; [apply IH|reflexivity].
Qed.

(** C9.  A session made by [gst_srt_client_new] has reference count 1.
    After [n] further references the count is [1 + n]; each of the first
    [j <= n] unrefs lowers the count by one and closes nothing; the unref
    that brings the count to zero, and only that one, calls [srt_close] on
    the session's socket, once, and frees the session. *)
Theorem client_refcount_lifecycle (rt : Runtime) (s : Z) (a : GInetAddress) (n : nat) :
  s ≠ -1 ->
  Z.of_nat n < guint_modulus - 1 ->
  ∃ p rt0,
    gst_srt_client_new s (Some a) rt = Some (Some p, rt0)
    ∧ rt_heap rt0 !! p = Some (mkGstSRTClient s a 1)
    ∧ closes (new_events rt rt0) = []
    ∧ ∃ rt1,
        ref_times n p rt0 = Some (tt, rt1)
        ∧ rt_heap rt1 !! p = Some (mkGstSRTClient s a (1 + Z.of_nat n))
        ∧ (∀ j : nat, (j <= n)%nat ->
             ∃ rt2, unref_times j p rt1 = Some (tt, rt2)
               ∧ rt_heap rt2 !! p = Some (mkGstSRTClient s a (1 + Z.of_nat n - Z.of_nat j))
               ∧ closes (new_events rt rt2) = [])
        ∧ ∃ rt3, unref_times (S n) p rt1 = Some (tt, rt3)
            ∧ rt_heap rt3 !! p = None
            ∧ closes (new_events rt rt3) = [s].
Proof.
  intros Hs Hn.
  destruct (gst_srt_client_new_ok rt s a Hs) as (p & rt0 & Hnew & Hfresh & Hh0 & Hw0 & Ht0).
  exists p, rt0. split; [exact Hnew|].
  assert (Hp0 : rt_heap rt0 !! p = Some (mkGstSRTClient s a 1))
    by (rewrite Hh0; apply lookup_insert_eq).
  split; [exact Hp0|].
  split.
  { unfold new_events. rewrite Ht0, drop_all. reflexivity. }
  destruct (ref_times_live n rt0 p s a 1 Hp0) as (rt1 & Href & Hh1 & Hw1 & Ht1); [lia|lia|].
  exists rt1. split; [exact Href|].
  assert (Hp1 : rt_heap rt1 !! p = Some (mkGstSRTClient s a (1 + Z.of_nat n)))
    by (rewrite Hh1; apply lookup_insert_eq).
  split; [exact Hp1|].
  assert (Hshared : ∀ j : nat, (j <= n)%nat ->
             ∃ rt2, unref_times j p rt1 = Some (tt, rt2)
               ∧ rt_heap rt2 !! p = Some (mkGstSRTClient s a (1 + Z.of_nat n - Z.of_nat j))
               ∧ rt_trace rt2 = rt_trace rt).
  { intros j Hj.
    destruct (unref_times_shared j rt1 p s a (1 + Z.of_nat n) Hp1) as (rt2 & Hun & Hh2 & Hw2 & Ht2);
      [lia|].
    exists rt2. split; [exact Hun|]. split.
    - rewrite Hh2. apply lookup_insert_eq.
    - congruence. }
  split.
  { intros j Hj. destruct (Hshared j Hj) as (rt2 & Hun & Hp2 & Ht2).
    exists rt2. repeat split; auto.
    unfold new_events. rewrite Ht2, drop_all. reflexivity. }
  destruct (Hshared n (Nat.le_refl n)) as (rt2 & Hun & Hp2 & Ht2).
  replace (S n) with (n + 1)%nat by lia.
  rewrite unref_times_app, Hun, unref_times_S.
  rewrite (gst_srt_client_unref_last rt2 p _ Hp2) by (simpl; lia).
  simpl. eexists. split; [reflexivity|]. simpl. split.
  - apply lookup_delete_eq.
  - unfold new_events. simpl. rewrite Ht2, drop_app_length. reflexivity.
Qed.

End refcount.

Lemma client_refcount_lifecycle_witness :
  let E := env_of calm in
  let rt := empty_runtime E tt in
  ∃ p rt0,
    gst_srt_client_new 11 (Some ipv4_localhost) rt = Some (Some p, rt0)
    ∧ rt_heap rt0 !! p = Some (mkGstSRTClient 11 ipv4_localhost 1)
    ∧ closes (new_events rt rt0) = []
    ∧ ∃ rt1,
        ref_times 2 p rt0 = Some (tt, rt1)
        ∧ rt_heap rt1 !! p = Some (mkGstSRTClient 11 ipv4_localhost (1 + Z.of_nat 2))
        ∧ (∀ j : nat, (j <= 2)%nat ->
             ∃ rt2, unref_times j p rt1 = Some (tt, rt2)
               ∧ rt_heap rt2 !! p =
                   Some (mkGstSRTClient 11 ipv4_localhost (1 + Z.of_nat 2 - Z.of_nat j))
               ∧ closes (new_events rt rt2) = [])
        ∧ ∃ rt3, unref_times 3 p rt1 = Some (tt, rt3)
            ∧ rt_heap rt3 !! p = None
            ∧ closes (new_events rt rt3) = [11].
Proof.
  intros E rt.
  apply (@client_refcount_lifecycle E rt 11 ipv4_localhost 2).
  - discriminate.
  - unfold guint_modulus. simpl. lia.
Defined.

(* ===================================================================== *)
(** ** Stepping through the monad *)
(* ===================================================================== *)

Section steps.
Context {E : Env}.

Lemma new_events_app (rt rt' : Runtime) (l : list Event) :
  rt_trace rt' = rt_trace rt ++ l -> new_events rt rt' = l.
Proof. intros H. unfold new_events. rewrite H. apply drop_app_length. Qed.

Lemma new_events_refl (rt rt' : Runtime) :
  rt_trace rt' = rt_trace rt -> new_events rt rt' = [].
Proof. intros H. unfold new_events. rewrite H. apply drop_all. Qed.

Lemma bind_run {A B : Type} (m : M A) (k : A -> M B) (rt rt' : Runtime) (a : A) :
  m rt = Some (a, rt') -> (m ≫= k) rt = k a rt'.
Proof. intros H. unfold mbind, M_bind, bind_. now rewrite H. Qed.

Lemma bind_fault {A B : Type} (m : M A) (k : A -> M B) (rt : Runtime) :
  m rt = None -> (m ≫= k) rt = None.
Proof. intros H. unfold mbind, M_bind, bind_. now rewrite H. Qed.

Lemma call_run (c : Call) (rt : Runtime) :
  call c rt =
    Some ((oracle (rt_world rt) c).1,
          mkRuntime (oracle (rt_world rt) c).2 (rt_heap rt) (rt_default_ctx rt)
            (rt_server_ctx rt) (rt_trace rt ++ [ECall c (oracle (rt_world rt) c).1])).
Proof. unfold call. now destruct (oracle (rt_world rt) c). Qed.

Lemma bind_ret_r {A : Type} (m : M A) (rt : Runtime) :
  (m ≫= λ a, mret a) rt = m rt.
Proof.
  unfold mbind, mret, M_bind, M_ret, bind_, ret_.
  destruct (m rt) as [[a rt']|]; reflexivity.
Qed.

Lemma g_strcmp0_eq_true (a : option string) (s : string) :
  g_strcmp0_eq a (Some s) = true <-> a = Some s.
Proof.
  destruct a as [x|]; simpl.
  - rewrite String.eqb_eq. split; congruence.
  - split; discriminate.
Qed.

End steps.

(** Run the straight-line part of a function: unfold the monad, name the
    oracle's answers, and flatten the trace. *)
Ltac mstep :=
  munfold; simpl;
  repeat match goal with
         | |- context [oracle ?w ?c] =>
             let r := fresh "r" in
             let w' := fresh "w" in
             let Ho := fresh "Ho" in
             destruct (oracle w c) as [r w'] eqn:Ho; simpl
         end.

Ltac trace_norm := repeat rewrite <- app_assoc; simpl.

(** Find an event in an explicit list. *)
Ltac find_in :=
  solve [repeat first [apply list_elem_of_here | apply list_elem_of_further]].

(** Split a membership in an explicit list into its cases, dropping the
    cases where the constructors differ. *)
Ltac elim_in H :=
  repeat match type of H with
         | _ ∈ [] => apply elem_of_nil in H; destruct H
         | _ ∈ _ :: _ =>
             apply elem_of_cons in H; destruct H as [H|H]; [try discriminate H|]
         end;
  try (injection H as; subst); try subst.

(* ===================================================================== *)
(** ** URI handlers *)
(* ===================================================================== *)

Section uri.
Context {E : Env}.

(** C10.  On both elements, [set_uri] with a string whose scheme is not
    "srt" (an unparseable string has no scheme) returns FALSE, stores
    [GST_URI_ERROR_BAD_URI] in the caller's error slot when there is one,
    and leaves the element as it was: [get_uri] afterwards yields the
    string of the URI stored before. *)
Theorem set_uri_bad_scheme_keeps_uri (uri_ : string) (error : bool) :
  gst_uri_get_scheme (gst_uri_from_string uri_) ≠ Some "srt" ->
  (∀ (priv : gstsrtserversink.GstSRTServerSinkPrivate) (rt : Runtime),
     ∃ rt1 rt2,
       gstsrtserversink.gst_srt_server_sink_uri_set_uri priv uri_ error rt =
         Some ((FALSE, if error then Some GST_URI_ERROR_BAD_URI else None, priv), rt1)
       ∧ gstsrtserversink.gst_srt_server_sink_uri_get_uri priv rt1 =
           Some (gst_uri_to_string (gstsrtserversink.uri priv), rt2)
       ∧ fst <$> gstsrtserversink.gst_srt_server_sink_uri_get_uri priv rt =
           Some (gst_uri_to_string (gstsrtserversink.uri priv)))
  ∧
  (∀ (priv : gstsrtclientsrc.GstSrtClientSrcPrivate) (rt : Runtime),
     ∃ rt1 rt2,
       gstsrtclientsrc.gst_srt_client_src_uri_set_uri priv uri_ error rt =
         Some ((FALSE, if error then Some GST_URI_ERROR_BAD_URI else None, priv), rt1)
       ∧ gstsrtclientsrc.gst_srt_client_src_uri_get_uri priv rt1 =
           Some (gst_uri_to_string (gstsrtclientsrc.uri priv), rt2)
       ∧ fst <$> gstsrtclientsrc.gst_srt_client_src_uri_get_uri priv rt =
           Some (gst_uri_to_string (gstsrtclientsrc.uri priv))).
Proof.
  intros Hscheme.
  assert (Hcmp : g_strcmp0_eq (gst_uri_get_scheme (gst_uri_from_string uri_)) (Some "srt") = false).
  { destruct (g_strcmp0_eq _ _) eqn:Hc; [|reflexivity].
    apply g_strcmp0_eq_true in Hc. contradiction. }
  split; intros priv rt.
  - unfold gstsrtserversink.gst_srt_server_sink_uri_set_uri,
      gstsrtserversink.gst_srt_server_sink_uri_get_uri,
      gstsrtserversink.SRT_URI_SCHEME.
    mstep. rewrite Hcmp. simpl. eexists _, _. repeat split.
  - unfold gstsrtclientsrc.gst_srt_client_src_uri_set_uri,
      gstsrtclientsrc.gst_srt_client_src_uri_get_uri,
      gstsrtclientsrc.SRT_URI_SCHEME.
    mstep. rewrite Hcmp. simpl. eexists _, _. repeat split.
Qed.

End uri.

Lemma set_uri_bad_scheme_keeps_uri_witness :
  let E := env_of calm in
  let rt := empty_runtime E tt in
  (∃ rt1 rt2,
     gstsrtserversink.gst_srt_server_sink_uri_set_uri server_priv0 "http://example.org:80" true rt =
       Some ((FALSE, Some GST_URI_ERROR_BAD_URI, server_priv0), rt1)
     ∧ gstsrtserversink.gst_srt_server_sink_uri_get_uri server_priv0 rt1 =
         Some (Some "srt://127.0.0.1:7001", rt2))
  ∧
  (∃ rt1 rt2,
     gstsrtclientsrc.gst_srt_client_src_uri_set_uri client_priv0 "no uri at all" true rt =
       Some ((FALSE, Some GST_URI_ERROR_BAD_URI, client_priv0), rt1)
     ∧ gstsrtclientsrc.gst_srt_client_src_uri_get_uri client_priv0 rt1 =
         Some (Some "srt://127.0.0.1:7000", rt2)).
Proof.
  intros E rt. split.
  - destruct (@set_uri_bad_scheme_keeps_uri E "http://example.org:80" true) as [Hs _];
      [discriminate|].
    destruct (Hs server_priv0 rt) as (rt1 & rt2 & H1 & H2 & _).
    exists rt1, rt2. split; [exact H1|exact H2].
  - destruct (@set_uri_bad_scheme_keeps_uri E "no uri at all" true) as [_ Hc];
      [discriminate|].
    destruct (Hc client_priv0 rt) as (rt1 & rt2 & H1 & H2 & _).
    exists rt1, rt2. split; [exact H1|exact H2].
Defined.

(* ===================================================================== *)
(** ** The client's fill *)
(* ===================================================================== *)

Lemma length_mem_write (old new : list Z) :
  length (gstsrtclientsrc.mem_write old new) = length old.
Proof.
  unfold gstsrtclientsrc.mem_write.
  rewrite length_app, length_drop, length_take. lia.
Qed.

(** C8, as the claim has it, fails: at clock time 100 with base time 40 the
    buffer is stamped 60, not 100. *)
Lemma fill_pts_is_not_the_clock_time :
  let E := env_of receiving in
  let rt := empty_runtime E tt in
  ∃ buf' rt',
    gstsrtclientsrc.gst_srt_client_src_fill client_priv0 40 outbuf0 rt =
      Some ((GST_FLOW_OK, buf'), rt')
    ∧ ECall gst_clock_get_time (reply 100) ∈ new_events rt rt'
    ∧ buf_pts buf' = Some 60
    ∧ buf_pts buf' ≠ Some (ret (reply 100)).
Proof.
  intros E rt. eexists _, _. split; [cbv; reflexivity|].
  split; [unfold new_events; simpl; find_in|]. split; [reflexivity|]. discriminate.
Qed.

(* ===================================================================== *)
(** ** The broadcast dispatcher *)
(* ===================================================================== *)

Lemma sends_app (l1 l2 : list Event) : sends (l1 ++ l2) = sends l1 ++ sends l2.
Proof.
  induction l1 as [|e l1 IH]; [reflexivity|].
  destruct e as [c r| | | | | | | | |]; simpl; try exact IH.
  destruct c; simpl; try exact IH. now rewrite IH.
Qed.

Lemma send_results_app (l1 l2 : list Event) :
  send_results (l1 ++ l2) = send_results l1 ++ send_results l2.
Proof.
  induction l1 as [|e l1 IH]; [reflexivity|].
  destruct e as [c r| | | | | | | | |]; simpl; try exact IH.
  destruct c; simpl; try exact IH. now rewrite IH.
Qed.

Lemma closes_app (l1 l2 : list Event) : closes (l1 ++ l2) = closes l1 ++ closes l2.
Proof.
  induction l1 as [|e l1 IH]; [reflexivity|].
  destruct e as [c r| | | | | | | | |]; simpl; try exact IH.
  destruct c; simpl; try exact IH. now rewrite IH.
Qed.

Lemma signals_app (s : Signal) (l1 l2 : list Event) :
  signals s (l1 ++ l2) = signals s l1 ++ signals s l2.
Proof.
  induction l1 as [|e l1 IH]; [reflexivity|].
  destruct e as [| | | | |s' k a| | | |]; simpl; try exact IH.
  destruct s, s'; simpl; try exact IH; now rewrite IH.
Qed.

Lemma g_list_remove_middle (pre next : list loc) (p : loc) :
  p ∉ pre -> g_list_remove (pre ++ p :: next) p = pre ++ next.
Proof.
  induction pre as [|q pre IH]; intros Hp; simpl.
  - destruct (decide (p = p)); [reflexivity|congruence].
  - apply not_elem_of_cons in Hp as [Hne Hp].
    destruct (decide (q = p)); [congruence|]. now rewrite IH.
Qed.

Lemma survivors_only_one_fails (l : list loc) : ∀ (rs : list Z) (k : nat),
  length rs = length l ->
  rs !! k = Some SRT_ERROR ->
  (∀ j, j ≠ k -> rs !! j ≠ Some SRT_ERROR) ->
  survivors l rs = delete k l
  ∧ casualties l rs = match l !! k with Some p => [p] | None => [] end.
Proof.
  induction l as [|p l IH]; intros rs k Hlen Hk Hothers.
  - destruct rs; [|discriminate]. destruct k; discriminate.
  - destruct rs as [|r rs]; [discriminate|]. simpl in Hlen.
    destruct k as [|k]; simpl in *.
    + injection Hk as ->. rewrite Z.eqb_refl.
      assert (Hall : ∀ (l' : list loc) (rs' : list Z), length rs' = length l' ->
                (∀ j, rs' !! j ≠ Some SRT_ERROR) ->
                survivors l' rs' = l' ∧ casualties l' rs' = []).
      { induction l' as [|q l' IH']; intros rs' Hl Hno.
        - destruct rs'; [split; reflexivity|discriminate].
        - destruct rs' as [|r' rs']; [discriminate|]. simpl.
          destruct (Z.eqb_spec r' SRT_ERROR) as [->|Hne].
          + exfalso. now apply (Hno O).
          + destruct (IH' rs') as [-> ->]; [simpl in Hl; lia| |split; reflexivity].
            intros j. apply (Hno (S j)). }
      destruct (Hall l rs) as [-> ->]; [lia| |split; reflexivity].
      intros j. apply (Hothers (S j)). lia.
    + destruct (Z.eqb_spec r SRT_ERROR) as [->|Hne].
      * exfalso. now apply (Hothers O).
      * destruct (IH rs k) as [-> ->]; [lia|exact Hk| |split; reflexivity].
        intros j Hj. apply (Hothers (S j)). lia.
Qed.

Lemma send_results_nil_of_sends (evs : list Event) : sends evs = [] -> send_results evs = [].
Proof.
  induction evs as [|e l IH]; [reflexivity|].
  destruct e as [c r| | | | | | | | |]; simpl; auto.
  destruct c; simpl; auto. discriminate.
Qed.

Lemma casualties_subset (l : list loc) : ∀ (rs : list Z) (q : loc),
  q ∈ casualties l rs -> q ∈ l.
Proof.
  induction l as [|x l IH]; intros rs q Hq; [destruct rs; inversion Hq|].
  destruct rs as [|r rs]; [inversion Hq|]. simpl in Hq.
  destruct (Z.eqb r SRT_ERROR).
  - apply elem_of_cons in Hq as [->|Hq]; [apply list_elem_of_here|].
    apply list_elem_of_further. eapply IH; eauto.
  - apply list_elem_of_further. eapply IH; eauto.
Qed.

(** Reduce the projections of an explicit run-time state and flatten its
    trace. *)
Ltac rt_norm :=
  cbn [rt_world rt_heap rt_default_ctx rt_server_ctx rt_trace fst snd];
  repeat rewrite <- app_assoc; cbn [app].

Lemma survivors_subset (l : list loc) : ∀ (rs : list Z) (q : loc),
  q ∈ survivors l rs -> q ∈ l.
Proof.
  induction l as [|x l IH]; intros rs q Hq; [destruct rs; inversion Hq|].
  destruct rs as [|r rs]; [inversion Hq|]. simpl in Hq.
  destruct (Z.eqb r SRT_ERROR).
  - apply list_elem_of_further. eapply IH; eauto.
  - apply elem_of_cons in Hq as [->|Hq]; [apply list_elem_of_here|].
    apply list_elem_of_further. eapply IH; eauto.
Qed.

Lemma survivors_NoDup (l : list loc) : ∀ (rs : list Z), NoDup l -> NoDup (survivors l rs).
Proof.
  induction l as [|x l IH]; intros rs Hnd; [destruct rs; constructor|].
  destruct rs as [|r rs]; [constructor|]. simpl.
  apply NoDup_cons in Hnd as [Hx Hnd].
  destruct (Z.eqb r SRT_ERROR); [now apply IH|].
  apply NoDup_cons. split; [|now apply IH].
  intros Hin. apply Hx. eapply survivors_subset; eauto.
Qed.

Lemma survivors_not_casualties (l : list loc) : ∀ (rs : list Z) (q : loc),
  NoDup l -> q ∈ survivors l rs -> q ∉ casualties l rs.
Proof.
  induction l as [|x l IH]; intros rs q Hnd Hq; [destruct rs; inversion Hq|].
  destruct rs as [|r rs]; [inversion Hq|]. simpl in *.
  apply NoDup_cons in Hnd as [Hx Hnd].
  destruct (Z.eqb r SRT_ERROR).
  - apply not_elem_of_cons. split; [|now apply IH].
    intros ->. apply Hx. eapply survivors_subset; eauto.
  - apply elem_of_cons in Hq as [->|Hq]; [|now apply IH].
    intros Hin. apply Hx. eapply casualties_subset; eauto.
Qed.

Ltac bind_step tac := erewrite bind_run by tac; cbv beta; rt_norm.

Section dispatcher.
Context {E : Env}.

(** An unref of a live session returns; it sends nothing, signals nothing
    and leaves the other sessions alone. *)
Lemma gst_srt_client_unref_live (rt : Runtime) (p : loc) (c : GstSRTClient) :
  rt_heap rt !! p = Some c ->
  ∃ rt' evs, gst_srt_client_unref (Some p) rt = Some (tt, rt')
    ∧ rt_trace rt' = rt_trace rt ++ evs
    ∧ sends evs = [] ∧ signals SIG_CLIENT_REMOVED evs = []
    ∧ rt_default_ctx rt' = rt_default_ctx rt
    ∧ rt_server_ctx rt' = rt_server_ctx rt
    ∧ ∀ q, q ≠ p -> rt_heap rt' !! q = rt_heap rt !! q.
Proof.
  intros H. unfold gst_srt_client_unref. munfold. rewrite H.
  destruct (Z.ltb 0 (guint_wrap (ref_count c - 1))).
  - eexists _, []. split; [reflexivity|]. simpl. rewrite app_nil_r.
    repeat split; auto. intros q Hq. now apply lookup_insert_ne.
  - destruct (oracle (rt_world rt) (srt_close (gstsrt_h.sock c))) as [r w] eqn:Ho. simpl.
    eexists _, [_]. split; [reflexivity|]. simpl.
    repeat split; auto. intros q Hq. now apply lookup_delete_ne.
Qed.

(** The inner loop: every session under the cursor is sent the data, the
    failing ones leave the registry with one notification each, the others
    stay. *)
Lemma send_to_clients_spec (data : list Z) (cursor : list loc) :
  ∀ (rt : Runtime) (pre : list loc),
    NoDup (pre ++ cursor) ->
    (∀ p, p ∈ cursor -> is_Some (rt_heap rt !! p)) ->
    ∃ rt' evs,
      gstsrtserversink.send_to_clients data cursor (pre ++ cursor) rt =
        Some (pre ++ survivors cursor (send_results evs), rt')
      ∧ rt_trace rt' = rt_trace rt ++ evs
      ∧ sends evs = (λ p, (gstsrt_h.sock (client_at (rt_heap rt) p), data)) <$> cursor
      ∧ length (send_results evs) = length cursor
      ∧ signals SIG_CLIENT_REMOVED evs =
          peer_of (rt_heap rt) <$> casualties cursor (send_results evs)
      ∧ rt_default_ctx rt' = rt_default_ctx rt
      ∧ rt_server_ctx rt' = rt_server_ctx rt
      ∧ ∀ q, q ∉ casualties cursor (send_results evs) -> rt_heap rt' !! q = rt_heap rt !! q.
Proof.
  induction cursor as [|p next IH]; intros rt pre Hnd Hlive.
  - exists rt, []. simpl. rewrite !app_nil_r. repeat split; auto.
  - destruct (Hlive p) as [c Hc]; [apply list_elem_of_here|].
    assert (Hp_pre : p ∉ pre).
    { intros Hin. apply NoDup_app in Hnd as (_ & Hdisj & _).
      apply (Hdisj p Hin). apply list_elem_of_here. }
    assert (Hp_next : p ∉ next).
    { apply NoDup_app in Hnd as (_ & _ & Hn). now apply NoDup_cons in Hn as [Hn _]. }
    cbn [gstsrtserversink.send_to_clients].
    bind_step ltac:(unfold heap_load; rewrite Hc; reflexivity).
    bind_step ltac:(apply call_run).
    destruct (oracle (rt_world rt) (srt_sendmsg2 (gstsrt_h.sock c) data)) as [r w] eqn:Ho.
    cbn [fst snd].
    set (rt1 := mkRuntime w (rt_heap rt) (rt_default_ctx rt) (rt_server_ctx rt)
                  (rt_trace rt ++ [ECall (srt_sendmsg2 (gstsrt_h.sock c) data) r])).
    destruct (Z.eqb_spec (ret r) SRT_ERROR) as [Herr|Hok].
    + (* the send failed *)
      rewrite g_list_remove_middle by exact Hp_pre.
      bind_step ltac:(reflexivity).
      bind_step ltac:(reflexivity).
      match goal with
      | |- context [mbind _ (gst_srt_client_unref (Some p)) ?r2] => set (rt2 := r2)
      end.
      destruct (gst_srt_client_unref_live rt2 p c Hc)
        as (rt3 & evs3 & Hun & Ht3 & Hs3 & Hsig3 & Hd3 & Hsv3 & Hh3).
      bind_step ltac:(exact Hun).
      destruct (IH rt3 pre) as (rt' & evs & Hrun & Ht & Hs & Hlen & Hsig & Hd & Hsv & Hkeep).
      { apply NoDup_app in Hnd as (Hpre & Hdisj & Hn).
        apply NoDup_app. split; [exact Hpre|]. split.
        - intros x Hx Hx'. apply (Hdisj x Hx). now apply list_elem_of_further.
        - now apply NoDup_cons in Hn as [_ Hn]. }
      { intros q Hq. rewrite Hh3 by (intros ->; contradiction).
        apply Hlive. now apply list_elem_of_further. }
      assert (Hheap : ∀ q, q ∈ next -> rt_heap rt3 !! q = rt_heap rt !! q).
      { intros q Hq. rewrite Hh3 by (intros ->; contradiction). reflexivity. }
      assert (Hr3 : send_results evs3 = []) by now apply send_results_nil_of_sends.
      exists rt'.
      exists ([ECall (srt_sendmsg2 (gstsrt_h.sock c) data) r; ELog LWarning;
               ESignal SIG_CLIENT_REMOVED (gstsrt_h.sock c) (gstsrt_h.addr c)]
              ++ evs3 ++ evs).
      split.
      { rewrite Hrun. simpl. rewrite !send_results_app, Hr3. simpl.
        rewrite Herr. reflexivity. }
      split.
      { rewrite Ht, Ht3. subst rt2 rt1. simpl. trace_norm. reflexivity. }
      split.
      { simpl. rewrite sends_app, Hs3, Hs. simpl. f_equal.
        - unfold client_at. rewrite Hc. reflexivity.
        - apply list_fmap_ext. intros i q Hq.
          unfold client_at. rewrite Hheap; [reflexivity|].
          eapply list_elem_of_lookup_2; eauto. }
      split.
      { simpl. rewrite send_results_app, Hr3. simpl. now rewrite Hlen. }
      split.
      { simpl. rewrite !send_results_app, Hr3, signals_app, Hsig3, Hsig. simpl.
        rewrite Herr. simpl. f_equal.
        - unfold peer_of, client_at. rewrite Hc. reflexivity.
        - apply list_fmap_ext. intros i q Hq.
          unfold peer_of, client_at. rewrite Hheap; [reflexivity|].
          eapply casualties_subset, list_elem_of_lookup_2; eauto. }
      split; [rewrite Hd, Hd3; reflexivity|].
      split; [rewrite Hsv, Hsv3; reflexivity|].
      intros q Hq. simpl in Hq. rewrite !send_results_app, Hr3 in Hq. simpl in Hq.
      rewrite Herr in Hq. simpl in Hq.
      apply not_elem_of_cons in Hq as [Hqp Hq].
      rewrite (Hkeep q Hq). apply Hh3. exact Hqp.
    + (* the send succeeded *)
      destruct (IH rt1 (pre ++ [p])) as (rt' & evs & Hrun & Ht & Hs & Hlen & Hsig & Hd & Hsv & Hkeep).
      { rewrite <- app_assoc. exact Hnd. }
      { intros q Hq. apply Hlive. now apply list_elem_of_further. }
      exists rt', (ECall (srt_sendmsg2 (gstsrt_h.sock c) data) r :: evs).
      rewrite <- !app_assoc in Hrun. simpl in Hrun.
      split.
      { rewrite Hrun. simpl.
        destruct (Z.eqb_spec (ret r) SRT_ERROR); [contradiction|]. reflexivity. }
      split; [rewrite Ht; subst rt1; simpl; trace_norm; reflexivity|].
      split.
      { simpl. rewrite Hs. f_equal. unfold client_at. simpl. rewrite Hc. reflexivity. }
      split; [simpl; now rewrite Hlen|].
      split.
      { simpl. rewrite Hsig.
        destruct (Z.eqb_spec (ret r) SRT_ERROR); [contradiction|]. reflexivity. }
      split; [rewrite Hd; reflexivity|].
      split; [rewrite Hsv; reflexivity|].
      intros q Hq. simpl in Hq.
      destruct (Z.eqb_spec (ret r) SRT_ERROR); [contradiction|].
      rewrite (Hkeep q Hq). reflexivity.
Qed.

End dispatcher.

Lemma not_elem_of_delete_NoDup (l : list loc) (k : nat) (p : loc) :
  NoDup l -> l !! k = Some p -> p ∉ delete k l.
Proof.
  intros Hnd Hk Hin. apply list_elem_of_lookup in Hin as [j Hj].
  destruct (decide (j < k)%nat) as [Hlt|Hge].
  - rewrite list_lookup_delete_lt in Hj by exact Hlt.
    pose proof (NoDup_lookup l j k p Hnd Hj Hk). lia.
  - rewrite list_lookup_delete_ge in Hj by lia.
    pose proof (NoDup_lookup l (S j) k p Hnd Hj Hk). lia.
Qed.

Lemma elem_of_delete_other (l : list loc) (k j : nat) (p : loc) :
  j ≠ k -> l !! j = Some p -> p ∈ delete k l.
Proof.
  intros Hjk Hj. apply list_elem_of_lookup.
  destruct (decide (j < k)%nat) as [Hlt|Hge].
  - exists j. now rewrite list_lookup_delete_lt.
  - exists (pred j). rewrite list_lookup_delete_ge by lia.
    replace (S (pred j)) with j by lia. exact Hj.
Qed.

Section fault_isolation.
Context {E : Env}.

(** The producer's entry point returns [GST_FLOW_OK] in every state. *)
Lemma render_returns_ok (priv : gstsrtserversink.GstSRTServerSinkPrivate)
    (buffer : GstBuffer) (rt : Runtime) :
  ∃ priv' rt',
    gstsrtserversink.gst_srt_server_sink_render priv buffer rt = Some ((GST_FLOW_OK, priv'), rt').
Proof.
  unfold gstsrtserversink.gst_srt_server_sink_render, gstsrtserversink.g_source_attach.
  destruct (gstsrtserversink.queued_buffers priv); mstep; eexists _, _; reflexivity.
Qed.

(** A queue of one mappable buffer: the outer loop runs the inner loop
    once, with the cursor at the head of the registry. *)
Lemma send_buffers_single (b : GstBuffer) (cursor registry : list loc) (rt : Runtime) :
  ret (oracle (rt_world rt) (gst_buffer_map b)).1 ≠ 0 ->
  gstsrtserversink.send_buffers [b] cursor registry rt =
  gstsrtserversink.send_to_clients (buf_data b) cursor registry
    (mkRuntime (oracle (rt_world rt) (gst_buffer_map b)).2 (rt_heap rt)
       (rt_default_ctx rt) (rt_server_ctx rt)
       (rt_trace rt ++ [ELog LTrace;
                        ECall (gst_buffer_map b) (oracle (rt_world rt) (gst_buffer_map b)).1])).
Proof.
  intros Hmap. cbn [gstsrtserversink.send_buffers].
  bind_step ltac:(reflexivity).
  bind_step ltac:(apply call_run).
  destruct (Z.eqb_spec (ret (oracle (rt_world rt) (gst_buffer_map b)).1) 0) as [Hz|_];
    [contradiction|].
  apply bind_ret_r.
Qed.

(** C4.  One dispatch of a queued buffer over a registry of distinct live
    sessions returns; every session is sent the buffer's bytes, in registry
    order, whatever happens to the others; the sessions whose send failed,
    and only they, leave the registry, with one client-removed signal
    each; the sessions that stay are distinct and untouched.  In
    particular, when the send to session K alone fails, the others are
    sent the bytes and stay, K is gone from the registry when the dispatch
    returns, and client-removed is emitted once, for K.  The dispatcher's
    return value tells GLib not to call it again, and the producer's
    [render] returns [GST_FLOW_OK] in every state. *)
Theorem broadcast_fault_isolation (priv : gstsrtserversink.GstSRTServerSinkPrivate)
    (rt : Runtime) (b : GstBuffer) :
  gstsrtserversink.queued_buffers priv = [b] ->
  NoDup (gstsrtserversink.clients priv) ->
  (∀ p, p ∈ gstsrtserversink.clients priv -> is_Some (rt_heap rt !! p)) ->
  ret (oracle (rt_world rt) (gst_buffer_map b)).1 ≠ 0 ->
  ∃ priv' rt',
    gstsrtserversink.srt_send_buffer priv rt = Some ((FALSE, priv'), rt')
    ∧ gstsrtserversink.queued_buffers priv' = []
    ∧ sends (new_events rt rt') =
        (λ p, (gstsrt_h.sock (client_at (rt_heap rt) p), buf_data b))
          <$> gstsrtserversink.clients priv
    ∧ length (send_results (new_events rt rt')) = length (gstsrtserversink.clients priv)
    ∧ gstsrtserversink.clients priv' =
        survivors (gstsrtserversink.clients priv) (send_results (new_events rt rt'))
    ∧ signals SIG_CLIENT_REMOVED (new_events rt rt') =
        peer_of (rt_heap rt)
          <$> casualties (gstsrtserversink.clients priv) (send_results (new_events rt rt'))
    ∧ NoDup (gstsrtserversink.clients priv')
    ∧ (∀ q, q ∈ gstsrtserversink.clients priv' -> rt_heap rt' !! q = rt_heap rt !! q)
    ∧ (∀ (k : nat) (pK : loc),
         gstsrtserversink.clients priv !! k = Some pK ->
         send_results (new_events rt rt') !! k = Some SRT_ERROR ->
         (∀ j, j ≠ k -> send_results (new_events rt rt') !! j ≠ Some SRT_ERROR) ->
         gstsrtserversink.clients priv' = delete k (gstsrtserversink.clients priv)
         ∧ (pK ∉ gstsrtserversink.clients priv')
         ∧ signals SIG_CLIENT_REMOVED (new_events rt rt') = [peer_of (rt_heap rt) pK]
         ∧ ∀ (j : nat) (pJ : loc),
             j ≠ k -> gstsrtserversink.clients priv !! j = Some pJ ->
             sends (new_events rt rt') !! j =
               Some (gstsrt_h.sock (client_at (rt_heap rt) pJ), buf_data b)
             ∧ pJ ∈ gstsrtserversink.clients priv')
    ∧ (∀ priv2 b2 rt2, ∃ priv3 rt3,
         gstsrtserversink.gst_srt_server_sink_render priv2 b2 rt2 =
           Some ((GST_FLOW_OK, priv3), rt3)).
Proof.
  intros Hq Hnd Hlive Hmap.
  unfold gstsrtserversink.srt_send_buffer. rewrite Hq.
  bind_step ltac:(reflexivity).
  bind_step ltac:(reflexivity).
  set (rt1 := mkRuntime (oracle (rt_world rt) (gst_buffer_map b)).2 (rt_heap rt)
                (rt_default_ctx rt) (rt_server_ctx rt)
                (rt_trace rt ++ [ELog LTrace; EMutexLock; ELog LTrace;
                                 ECall (gst_buffer_map b) (oracle (rt_world rt) (gst_buffer_map b)).1])).
  destruct (send_to_clients_spec (buf_data b) (gstsrtserversink.clients priv) rt1 [])
    as (rt2 & evs & Hrun & Ht2 & Hs & Hlen & Hsig & Hd & Hsv & Hkeep); [exact Hnd|exact Hlive|].
  cbn [app] in Hrun.
  erewrite (bind_run _ _ _ rt2 _).
  2:{ rewrite send_buffers_single by exact Hmap. rt_norm. exact Hrun. }
  cbv beta.
  bind_step ltac:(reflexivity).
  eexists _, _. split; [reflexivity|].
  match goal with |- context [new_events rt ?r] => set (rt' := r) end.
  assert (Hev : new_events rt rt' =
                  [ELog LTrace; EMutexLock; ELog LTrace;
                   ECall (gst_buffer_map b) (oracle (rt_world rt) (gst_buffer_map b)).1]
                  ++ evs ++ [EMutexUnlock]).
  { apply new_events_app. subst rt'. simpl. rewrite Ht2. subst rt1. simpl.
    trace_norm. reflexivity. }
  assert (Hres : send_results (new_events rt rt') = send_results evs).
  { rewrite Hev. simpl. rewrite send_results_app. simpl. apply app_nil_r. }
  assert (Hsends : sends (new_events rt rt') = sends evs).
  { rewrite Hev. simpl. rewrite sends_app. simpl. apply app_nil_r. }
  assert (Hsigs : signals SIG_CLIENT_REMOVED (new_events rt rt') = signals SIG_CLIENT_REMOVED evs).
  { rewrite Hev. simpl. rewrite signals_app. simpl. apply app_nil_r. }
  rewrite Hres, Hsends, Hsigs.
  split; [reflexivity|].
  split; [exact Hs|].
  split; [exact Hlen|].
  split; [reflexivity|].
  split; [exact Hsig|].
  split; [now apply survivors_NoDup|].
  split.
  { intros q Hin. cbn [gstsrtserversink.clients gstsrtserversink.set_queued_buffers
                       gstsrtserversink.set_clients] in Hin.
    subst rt'. cbn [rt_heap]. rewrite Hkeep; [reflexivity|].
    now apply survivors_not_casualties. }
  split; [|intros priv2 b2 rt2'; apply render_returns_ok].
  intros k pK HpK Hfail Hothers. simpl.
  destruct (survivors_only_one_fails (gstsrtserversink.clients priv) (send_results evs) k
              Hlen Hfail Hothers) as [Hsurv Hcas].
  rewrite HpK in Hcas.
  split; [exact Hsurv|].
  split; [rewrite Hsurv; now apply not_elem_of_delete_NoDup|].
  split; [rewrite Hsig, Hcas; reflexivity|].
  intros j pJ Hjk HpJ. split.
  - rewrite Hs, list_lookup_fmap, HpJ. reflexivity.
  - rewrite Hsurv. eapply elem_of_delete_other; eauto.
Qed.

End fault_isolation.

Lemma broadcast_fault_isolation_witness :
  let E := env_of lossy in
  let rt := serving E tt in
  ∃ priv' rt',
    gstsrtserversink.srt_send_buffer server_busy rt = Some ((FALSE, priv'), rt')
    ∧ sends (new_events rt rt') = [(11, [100]); (12, [100]); (13, [100])]
    ∧ send_results (new_events rt rt') = [0; -1; 0]
    ∧ gstsrtserversink.clients priv' = [0; 2]%nat
    ∧ signals SIG_CLIENT_REMOVED (new_events rt rt') = [(12, peer 2)].
Proof.
  intros E rt.
  destruct (@broadcast_fault_isolation E server_busy rt buffer_B0)
    as (priv' & rt' & Hrun & _ & Hsends & _ & _ & _ & _ & _ & HK & _).
  - reflexivity.
  - apply (bool_decide_unpack _). vm_compute. exact I.
  - intros p Hp. simpl in Hp. elim_in Hp; eexists; vm_compute; reflexivity.
  - vm_compute. discriminate.
  - assert (Hres : send_results (new_events rt rt') = [0; -1; 0]).
    { vm_compute in Hrun. injection Hrun as _ <-. vm_compute. reflexivity. }
    destruct (HK 1%nat 1%nat) as (Hclients & _ & Hsig & _).
    + reflexivity.
    + rewrite Hres. reflexivity.
    + intros j Hj. rewrite Hres. destruct j as [|[|[|j]]]; try discriminate. congruence.
    + exists priv', rt'. split; [exact Hrun|]. split; [rewrite Hsends; reflexivity|].
      split; [exact Hres|]. split; [rewrite Hclients; reflexivity|].
      rewrite Hsig. vm_compute. reflexivity.
Defined.

(* ===================================================================== *)
(** ** The mutex and the network *)
(* ===================================================================== *)



Section locking.
Context {E : Env}.





End locking.



(* ===================================================================== *)
(** ** Submitting while a dispatch is outstanding *)
(* ===================================================================== *)

Section coalescing.
Context {E : Env}.

(** With an empty queue, [render] queues the buffer and attaches one
    dispatch source to the default main context. *)
Lemma render_idle (priv : gstsrtserversink.GstSRTServerSinkPrivate)
    (buffer : GstBuffer) (rt : Runtime) :
  gstsrtserversink.queued_buffers priv = [] ->
  gstsrtserversink.gst_srt_server_sink_render priv buffer rt =
    Some ((GST_FLOW_OK, gstsrtserversink.set_queued_buffers priv [buffer]),
          mkRuntime (rt_world rt) (rt_heap rt)
            (rt_default_ctx rt ++ [cb_srt_send_buffer]) (rt_server_ctx rt)
            (rt_trace rt ++ [EMutexLock; ESourceAttach CtxDefault cb_srt_send_buffer;
                             EMutexUnlock])).
Proof.
  intros Hq.
  unfold gstsrtserversink.gst_srt_server_sink_render, gstsrtserversink.g_source_attach.
  rewrite Hq. mstep. trace_norm. reflexivity.
Qed.

(** With a buffer already queued, [render] takes and releases the mutex
    and does nothing else: the buffer it was given is not queued, no source
    is attached, and the answer is still [GST_FLOW_OK]. *)
Lemma render_busy (priv : gstsrtserversink.GstSRTServerSinkPrivate)
    (buffer : GstBuffer) (rt : Runtime) :
  gstsrtserversink.queued_buffers priv ≠ [] ->
  gstsrtserversink.gst_srt_server_sink_render priv buffer rt =
    Some ((GST_FLOW_OK, priv),
          mkRuntime (rt_world rt) (rt_heap rt) (rt_default_ctx rt) (rt_server_ctx rt)
            (rt_trace rt ++ [EMutexLock; EMutexUnlock])).
Proof.
  intros Hq.
  unfold gstsrtserversink.gst_srt_server_sink_render.
  destruct (gstsrtserversink.queued_buffers priv); [congruence|].
  mstep. trace_norm. reflexivity.
Qed.

End coalescing.

(** C1 on the code.  [B0] is queued and its dispatch source is attached.
    [B1], [B2], [B3] are then submitted: each [render] returns
    [GST_FLOW_OK], the queue stays [[B0]] and no source is added.  The
    outstanding dispatch sends the bytes of [B0] to the three sessions and
    nothing else: [B1], [B2], [B3] are never sent. *)
Theorem render_drops_while_dispatch_outstanding :
  let E := env_of calm in
  let rt := serving E tt in
  ∃ priv1 rt1 priv2 rt2 priv3 rt3 priv4 rt4,
    gstsrtserversink.gst_srt_server_sink_render server_busy buffer_B1 rt =
      Some ((GST_FLOW_OK, priv1), rt1)
    ∧ gstsrtserversink.gst_srt_server_sink_render priv1 buffer_B2 rt1 =
        Some ((GST_FLOW_OK, priv2), rt2)
    ∧ gstsrtserversink.gst_srt_server_sink_render priv2 buffer_B3 rt2 =
        Some ((GST_FLOW_OK, priv3), rt3)
    ∧ gstsrtserversink.queued_buffers priv3 = [buffer_B0]
    ∧ rt_default_ctx rt3 = [cb_srt_send_buffer]
    ∧ gstsrtserversink.g_main_context_iteration CtxDefault priv3 rt3 = Some (priv4, rt4)
    ∧ sends (new_events rt3 rt4) = [(11, [100]); (12, [100]); (13, [100])]
    ∧ gstsrtserversink.queued_buffers priv4 = []
    ∧ rt_default_ctx rt4 = [].
Proof.
  intros E rt. do 8 eexists.
  split; [vm_compute; reflexivity|].
  split; [vm_compute; reflexivity|].
  split; [vm_compute; reflexivity|].
  split; [reflexivity|]. split; [reflexivity|].
  split; [vm_compute; reflexivity|].
  split; [vm_compute; reflexivity|].
  split; reflexivity.
Qed.

(* ===================================================================== *)
(** ** The accept unit *)
(* ===================================================================== *)

Section accept.
Context {E : Env}.

(** With no source attached, the loop's iterations do nothing. *)
Lemma thread_func_idle (n : nat) (priv : gstsrtserversink.GstSRTServerSinkPrivate)
    (rt : Runtime) :
  rt_server_ctx rt = [] ->
  gstsrtserversink.thread_func n priv rt = Some (priv, rt).
Proof.
  intros Hctx. induction n as [|n IH]; [reflexivity|].
  cbn [gstsrtserversink.thread_func].
  erewrite bind_run; [exact IH|].
  unfold gstsrtserversink.g_main_context_iteration, get_sources. munfold.
  rewrite Hctx. reflexivity.
Qed.

(** C2, as the code has it.  When the wait reports readiness and
    [srt_accept] returns [SRT_INVALID_SOCK], the callback does exactly
    this: the wait, the accept, one warning, [srt_clearlasterror]; it
    registers nobody and returns FALSE.  GLib therefore takes the accept
    source out of the server's context: with that source the only one
    attached, as [start] leaves it, the context is empty afterwards and no
    later iteration of the loop accepts anybody.  The loop itself keeps
    running. *)
Theorem accept_failure_removes_accept_source
    (priv : gstsrtserversink.GstSRTServerSinkPrivate) (rt : Runtime) :
  let wait := oracle (rt_world rt)
                (srt_epoll_wait_read (gstsrtserversink.srt_poll_id priv)
                   (gstsrtserversink.poll_timeout priv)) in
  let accept := oracle wait.2 (srt_accept (gstsrtserversink.sock priv)) in
  ret wait.1 ≠ -1 ->
  ret accept.1 = SRT_INVALID_SOCK ->
  ∃ rt1 rt2,
    gstsrtserversink.idle_listen_callback priv rt = Some ((FALSE, priv), rt1)
    ∧ new_events rt rt1 =
        [ECall (srt_epoll_wait_read (gstsrtserversink.srt_poll_id priv)
                  (gstsrtserversink.poll_timeout priv)) wait.1;
         ECall (srt_accept (gstsrtserversink.sock priv)) accept.1;
         ELog LWarning;
         ECall srt_clearlasterror (oracle accept.2 srt_clearlasterror).1]
    ∧ logged LWarning (new_events rt rt1) = 1%nat
    ∧ signals SIG_CLIENT_ADDED (new_events rt rt1) = []
    ∧ rt_heap rt1 = rt_heap rt
    ∧ gstsrtserversink.dispatch CtxServer cb_idle_listen_callback priv rt = Some (priv, rt2)
    ∧ rt_server_ctx rt2 = g_list_remove (rt_server_ctx rt) cb_idle_listen_callback
    ∧ (rt_server_ctx rt = [cb_idle_listen_callback] ->
         rt_server_ctx rt2 = []
         ∧ ∀ n, gstsrtserversink.thread_func n priv rt2 = Some (priv, rt2)).
Proof.
  intros wait accept Hwait Haccept.
  assert (Hcb : ∃ rt1, gstsrtserversink.idle_listen_callback priv rt = Some ((FALSE, priv), rt1)
            ∧ rt_trace rt1 = rt_trace rt ++
                [ECall (srt_epoll_wait_read (gstsrtserversink.srt_poll_id priv)
                          (gstsrtserversink.poll_timeout priv)) wait.1;
                 ECall (srt_accept (gstsrtserversink.sock priv)) accept.1;
                 ELog LWarning;
                 ECall srt_clearlasterror (oracle accept.2 srt_clearlasterror).1]
            ∧ rt_heap rt1 = rt_heap rt
            ∧ rt_server_ctx rt1 = rt_server_ctx rt).
  { unfold gstsrtserversink.idle_listen_callback.
    bind_step ltac:(apply call_run). fold wait.
    destruct (Z.eqb_spec (ret wait.1) (-1)) as [Hw|_]; [contradiction|].
    bind_step ltac:(apply call_run). fold accept.
    rewrite Haccept, Z.eqb_refl.
    bind_step ltac:(reflexivity).
    bind_step ltac:(apply call_run).
    eexists. split; [reflexivity|]. simpl. repeat split. }
  destruct Hcb as (rt1 & Hrun & Ht1 & Hh1 & Hc1).
  assert (Hd : gstsrtserversink.dispatch CtxServer cb_idle_listen_callback priv rt =
               Some (priv,
                     mkRuntime (rt_world rt1) (rt_heap rt1) (rt_default_ctx rt1)
                       (g_list_remove (rt_server_ctx rt) cb_idle_listen_callback)
                       (rt_trace rt1 ++ [ESourceRemove CtxServer cb_idle_listen_callback]))).
  { unfold gstsrtserversink.dispatch, gstsrtserversink.g_source_destroy.
    bind_step ltac:(exact Hrun). cbn [FALSE].
    bind_step ltac:(erewrite bind_run by reflexivity;
                    erewrite bind_run by reflexivity; reflexivity).
    rewrite Hc1. reflexivity. }
  eexists rt1, _. split; [exact Hrun|].
  rewrite (new_events_app rt rt1 _ Ht1).
  split; [reflexivity|].
  split; [reflexivity|]. split; [reflexivity|]. split; [exact Hh1|].
  split; [exact Hd|]. split; [reflexivity|].
  intros Hctx. cbn [rt_server_ctx]. rewrite Hctx. split; [reflexivity|].
  intros n. apply thread_func_idle. reflexivity.
Qed.

End accept.

Lemma accept_failure_removes_accept_source_witness :
  let E := flaky_accept in
  let rt := listening E O in
  ∃ rt1 rt2,
    gstsrtserversink.idle_listen_callback server_listening rt =
      Some ((FALSE, server_listening), rt1)
    ∧ new_events rt rt1 =
        [ECall (srt_epoll_wait_read 7 (-1)) (reply 0);
         ECall (srt_accept 3) (reply SRT_INVALID_SOCK);
         ELog LWarning;
         ECall srt_clearlasterror (reply 0)]
    ∧ gstsrtserversink.dispatch CtxServer cb_idle_listen_callback server_listening rt =
        Some (server_listening, rt2)
    ∧ rt_server_ctx rt2 = []
    ∧ gstsrtserversink.thread_func 5 server_listening rt2 = Some (server_listening, rt2).
Proof.
  intros E rt.
  destruct (@accept_failure_removes_accept_source E server_listening rt)
    as (rt1 & rt2 & Hrun & Hev & _ & _ & _ & Hd & _ & Hgone).
  - vm_compute. discriminate.
  - reflexivity.
  - destruct (Hgone eq_refl) as [Hctx Hloop].
    exists rt1, rt2. split; [exact Hrun|]. split; [exact Hev|]. split; [exact Hd|].
    split; [exact Hctx|apply Hloop].
Defined.

(** C2, as the claim has it, fails.  The first accept fails; the network
    would hand out socket 11 on the next one.  Three iterations of the
    server's loop make one [srt_accept] call, not three: after the failed
    one the context has no source left, and nobody is ever registered. *)
Lemma failed_accept_ends_accepting :
  let E := flaky_accept in
  let rt := listening E O in
  ∃ priv' rt',
    gstsrtserversink.thread_func 3 server_listening rt = Some (priv', rt')
    ∧ new_events rt rt' =
        [ECall (srt_epoll_wait_read 7 (-1)) (reply 0);
         ECall (srt_accept 3) (reply SRT_INVALID_SOCK);
         ELog LWarning;
         ECall srt_clearlasterror (reply 0);
         ESourceRemove CtxServer cb_idle_listen_callback]
    ∧ rt_server_ctx rt' = []
    ∧ gstsrtserversink.clients priv' = [].
Proof.
  intros E rt. eexists _, _. split; [vm_compute; reflexivity|].
  split; [vm_compute; reflexivity|]. split; reflexivity.
Qed.

(* ===================================================================== *)
(** ** Failing starts *)
(* ===================================================================== *)

(** Split a start function into its paths. *)
Ltac start_paths :=
  repeat first
    [ progress mstep
    | match goal with
      | |- context [Z.eqb ?a ?b] => destruct (Z.eqb_spec a b)
      | |- context [match inet_family ?a with _ => _ end] =>
          let Hf := fresh "Hfam" in destruct (inet_family a) eqn:Hf
      | |- context [match gst_uri_get_host ?u with _ => _ end] =>
          destruct (gst_uri_get_host u)
      | |- context [match g_inet_socket_address_new_from_string ?h ?p with _ => _ end] =>
          destruct (g_inet_socket_address_new_from_string h p)
      end ].

(** C5, as the claim has it, fails: when [srt_bind] fails, [start] returns
    FALSE and closes the socket, but the poll id it created is still open
    when it returns. *)
Lemma failed_bind_leaves_poll_id :
  let E := env_of bind_refused in
  let rt := empty_runtime E tt in
  ∃ priv' rt',
    gstsrtserversink.gst_srt_server_sink_start server_priv0 rt = Some ((FALSE, priv'), rt')
    ∧ new_events rt rt' =
        [ECall (srt_socket G_SOCKET_FAMILY_IPV4) (reply 3);
         ECall (srt_setsockopt_sndsyn 3 0) (reply 0);
         ECall srt_epoll_create (reply 7);
         ECall (srt_epoll_add_usock 7 3 SRT_EPOLL_IN) (reply 0);
         ECall (srt_bind 3 ipv4_localhost 7001) (reply SRT_ERROR);
         ELog LInfo; ELog LWarning;
         ECall (srt_close 3) (reply 0)]
    ∧ epoll_creates (new_events rt rt') = [7]
    ∧ epoll_releases (new_events rt rt') = [].
Proof.
  intros E rt. eexists _, _. split; [vm_compute; reflexivity|].
  split; [vm_compute; reflexivity|]. split; reflexivity.
Qed.

(** When [srt_epoll_create] fails, the branch closes the socket and jumps
    to [out] without touching [ret]: both elements report a successful
    start. *)
Lemma start_without_poll_id_reports_success :
  let E := env_of no_poll_ids in
  let rt := empty_runtime E tt in
  (∃ priv' rt',
     gstsrtserversink.gst_srt_server_sink_start server_priv0 rt = Some ((TRUE, priv'), rt')
     ∧ closes (new_events rt rt') = [3])
  ∧ (∃ priv' rt',
       gstsrtclientsrc.gst_srt_client_src_start client_priv0 rt = Some ((TRUE, priv'), rt')
       ∧ closes (new_events rt rt') = [3]).
Proof.
  intros E rt. split; eexists _, _; (split; [vm_compute; reflexivity|reflexivity]).
Qed.

(** When the thread cannot be made, [start] returns FALSE and leaves the
    socket, the poll id and the attached source as they are. *)
Lemma start_without_thread_keeps_everything :
  let E := env_of no_threads in
  let rt := empty_runtime E tt in
  ∃ priv' rt',
    gstsrtserversink.gst_srt_server_sink_start server_priv0 rt = Some ((FALSE, priv'), rt')
    ∧ closes (new_events rt rt') = []
    ∧ rt_server_ctx rt' = [cb_idle_listen_callback].
Proof.
  intros E rt. eexists _, _. split; [vm_compute; reflexivity|]. split; reflexivity.
Qed.

(** A client whose peer does not listen: [start] returns FALSE and closes
    the socket; the poll id stays. *)
Lemma client_start_connect_refused :
  let E := env_of connect_refused in
  let rt := empty_runtime E tt in
  ∃ priv' rt',
    gstsrtclientsrc.gst_srt_client_src_start client_priv0 rt = Some ((FALSE, priv'), rt')
    ∧ new_events rt rt' =
        [ECall (srt_socket G_SOCKET_FAMILY_IPV4) (reply 3);
         ECall srt_epoll_create (reply 7);
         ECall (srt_epoll_add_usock 7 3 SRT_EPOLL_OUT) (reply 0);
         ECall (srt_connect 3 ipv4_localhost 7000) (reply SRT_ERROR);
         ELog LWarning;
         ECall (srt_close 3) (reply 0)].
Proof.
  intros E rt. eexists _, _. split; vm_compute; reflexivity.
Qed.

(* ===================================================================== *)
(** ** Stopping twice *)
(* ===================================================================== *)

(** C6, as the claim has it, fails: the second [stop] of a client hands the
    socket it closed to [srt_close] again. *)
Lemma second_stop_closes_again :
  let E := env_of calm in
  let rt := empty_runtime E tt in
  ∃ rt1 rt2,
    gstsrtclientsrc.gst_srt_client_src_stop client_connected rt =
      Some ((TRUE, client_connected), rt1)
    ∧ gstsrtclientsrc.gst_srt_client_src_stop client_connected rt1 =
        Some ((TRUE, client_connected), rt2)
    ∧ closes (new_events rt rt2) = [3; 3]
    ∧ epoll_releases (new_events rt rt2) = [7; 7].
Proof.
  intros E rt. eexists _, _. split; [vm_compute; reflexivity|].
  split; [vm_compute; reflexivity|]. split; reflexivity.
Qed.

(** The server's [stop] frees the sessions and their list but leaves
    [priv->clients] pointing at it.  With sessions registered, the first
    [stop] signals and closes each of them once; the second walks the stale
    list and reads a freed session. *)
Lemma second_stop_walks_freed_registry :
  let E := env_of calm in
  let rt := serving E tt in
  ∃ priv1 rt1,
    gstsrtserversink.gst_srt_server_sink_stop server_busy rt = Some ((TRUE, priv1), rt1)
    ∧ signals SIG_CLIENT_REMOVED (new_events rt rt1) = [(11, peer 1); (12, peer 2); (13, peer 3)]
    ∧ closes (new_events rt rt1) = [11; 12; 13; 3]
    ∧ rt_heap rt1 = ∅
    ∧ gstsrtserversink.clients priv1 = [0; 1; 2]%nat
    ∧ gstsrtserversink.gst_srt_server_sink_stop priv1 rt1 = None.
Proof.
  intros E rt. eexists _, _. split; [vm_compute; reflexivity|].
  split; [reflexivity|]. split; [reflexivity|].
  split; [apply map_eq; intros i; vm_compute; destruct i as [|[|[|i]]]; reflexivity|].
  split; [reflexivity|]. vm_compute. reflexivity.
Qed.

(* ===================================================================== *)
(** ** The registry between dispatches *)
(* ===================================================================== *)

Section registry.
Context {E : Env}.

(** A timeout of the readiness wait keeps the accept unit armed. *)
Lemma accept_timeout_rearms (priv : gstsrtserversink.GstSRTServerSinkPrivate) (rt : Runtime) :
  let wait := oracle (rt_world rt)
                (srt_epoll_wait_read (gstsrtserversink.srt_poll_id priv)
                   (gstsrtserversink.poll_timeout priv)) in
  ret wait.1 = -1 ->
  ret (oracle wait.2 srt_getlasterror).1 = SRT_ETIMEOUT ->
  ∃ rt', gstsrtserversink.idle_listen_callback priv rt = Some ((TRUE, priv), rt')
    ∧ rt_server_ctx rt' = rt_server_ctx rt
    ∧ rt_heap rt' = rt_heap rt.
Proof.
  intros wait Hw Ht. unfold gstsrtserversink.idle_listen_callback.
  bind_step ltac:(apply call_run). fold wait. rewrite Hw. cbn [Z.eqb Pos.eqb].
  bind_step ltac:(apply call_run). fold wait. rewrite Ht. cbn [negb Z.eqb Pos.eqb SRT_ETIMEOUT].
  bind_step ltac:(reflexivity).
  bind_step ltac:(apply call_run).
  eexists. split; [reflexivity|]. split; reflexivity.
Qed.

(** A successful accept makes a fresh session with reference count 1, puts
    it at the end of the registry and signals client-added. *)
Lemma accept_registers_session (priv : gstsrtserversink.GstSRTServerSinkPrivate)
    (rt : Runtime) (a : GInetAddress) :
  let wait := oracle (rt_world rt)
                (srt_epoll_wait_read (gstsrtserversink.srt_poll_id priv)
                   (gstsrtserversink.poll_timeout priv)) in
  let accept := oracle wait.2 (srt_accept (gstsrtserversink.sock priv)) in
  ret wait.1 ≠ -1 ->
  ret accept.1 ≠ SRT_INVALID_SOCK ->
  g_inet_address_new_from_bytes (out_bytes accept.1) (out_family accept.1) = Some a ->
  registry_ok rt (gstsrtserversink.clients priv) ->
  ∃ p rt',
    gstsrtserversink.idle_listen_callback priv rt =
      Some ((TRUE, gstsrtserversink.set_clients priv (gstsrtserversink.clients priv ++ [p])), rt')
    ∧ rt_heap rt !! p = None
    ∧ rt_heap rt' = <[p := mkGstSRTClient (ret accept.1) a 1]> (rt_heap rt)
    ∧ signals SIG_CLIENT_ADDED (new_events rt rt') = [(ret accept.1, a)]
    ∧ registry_ok rt' (gstsrtserversink.clients priv ++ [p]).
Proof.
  intros wait accept Hw Ha Haddr [Hnd Hlive].
  unfold gstsrtserversink.idle_listen_callback.
  bind_step ltac:(apply call_run). fold wait.
  destruct (Z.eqb_spec (ret wait.1) (-1)) as [|_]; [contradiction|].
  bind_step ltac:(apply call_run). fold accept.
  destruct (Z.eqb_spec (ret accept.1) SRT_INVALID_SOCK) as [|_]; [contradiction|].
  rewrite Haddr.
  match goal with |- context [mbind _ (gst_srt_client_new _ _) ?r] => set (rt1 := r) end.
  destruct (gst_srt_client_new_ok rt1 (ret accept.1) a Ha)
    as (p & rt2 & Hnew & Hfresh & Hh2 & Hw2 & Ht2).
  bind_step ltac:(exact Hnew).
  unfold g_list_append.
  bind_step ltac:(unfold heap_load; rewrite Hh2, lookup_insert_eq; reflexivity).
  bind_step ltac:(reflexivity).
  bind_step ltac:(reflexivity).
  exists p. eexists. split; [reflexivity|].
  split; [exact Hfresh|]. split; [exact Hh2|].
  split.
  { unfold new_events. cbn [rt_trace]. rewrite Ht2. subst rt1. cbn [rt_trace].
    trace_norm. rewrite drop_app_length. reflexivity. }
  split.
  - apply NoDup_app. split; [exact Hnd|]. split; [|apply NoDup_singleton].
    intros q Hq Hq'. apply list_elem_of_singleton in Hq'. subst q.
    destruct (Hlive p Hq) as [c Hc]. subst rt1. simpl in Hfresh. congruence.
  - intros q Hq. cbn [rt_heap]. rewrite Hh2.
    apply elem_of_app in Hq as [Hq|Hq].
    + destruct (decide (q = p)) as [->|Hne].
      * rewrite lookup_insert_eq. eauto.
      * rewrite lookup_insert_ne by congruence. subst rt1. simpl. now apply Hlive.
    + apply list_elem_of_singleton in Hq. subst q. rewrite lookup_insert_eq. eauto.
Qed.

End registry.

(* ===================================================================== *)
(** ** The queue between submissions *)
(* ===================================================================== *)

Section queue.
Context {E : Env}.

(** The queue never holds more than one buffer: [render] adds one only to
    an empty queue, and the dispatcher leaves it empty. *)
Lemma render_keeps_queue_short (priv priv' : gstsrtserversink.GstSRTServerSinkPrivate)
    (buffer : GstBuffer) (res : GstFlowReturn) (rt rt' : Runtime) :
  gstsrtserversink.gst_srt_server_sink_render priv buffer rt = Some ((res, priv'), rt') ->
  (length (gstsrtserversink.queued_buffers priv) <= 1)%nat ->
  (length (gstsrtserversink.queued_buffers priv') <= 1)%nat.
Proof.
  intros Hrun Hlen.
  destruct (gstsrtserversink.queued_buffers priv) as [|b q] eqn:Hq.
  - rewrite (render_idle priv buffer rt Hq) in Hrun. injection Hrun as _ <- _.
    simpl. lia.
  - rewrite (render_busy priv buffer rt) in Hrun by (rewrite Hq; discriminate).
    injection Hrun as _ <- _. now rewrite Hq.
Qed.

Lemma dispatch_empties_queue (priv priv' : gstsrtserversink.GstSRTServerSinkPrivate)
    (res : gboolean) (rt rt' : Runtime) :
  gstsrtserversink.srt_send_buffer priv rt = Some ((res, priv'), rt') ->
  res = FALSE ∧ gstsrtserversink.queued_buffers priv' = [].
Proof.
  unfold gstsrtserversink.srt_send_buffer. intros Hrun.
  erewrite bind_run in Hrun by reflexivity.
  erewrite bind_run in Hrun by reflexivity.
  cbv beta in Hrun.
  match type of Hrun with
  | context [mbind _ (gstsrtserversink.send_buffers ?q ?c ?g) ?r1] =>
      destruct (gstsrtserversink.send_buffers q c g r1) as [[reg1 rt1]|] eqn:Hin
  end.
  2:{ rewrite bind_fault in Hrun; [discriminate|exact Hin]. }
  erewrite bind_run in Hrun by exact Hin.
  erewrite bind_run in Hrun by reflexivity.
  injection Hrun as <- <- _. split; reflexivity.
Qed.

End queue.

(* ===================================================================== *)
(** ** A run of the server *)
(* ===================================================================== *)

(** The server is started on srt://127.0.0.1:7001 and accepts two peers;
    [B0] is submitted and dispatched to both; the first peer dies; [B1] is
    submitted and dispatched: the second peer is sent it, the first is
    evicted with one client-removed signal, and both submissions were
    answered [GST_FLOW_OK]. *)
Lemma run_two_peers :
  let E := two_peers in
  let rt0 := empty_runtime E O in
  ∃ priv1 rt1 priv2 rt2 priv3 rt3 priv4 rt4 priv5 rt5 priv6 rt6,
    gstsrtserversink.gst_srt_server_sink_start server_priv0 rt0 = Some ((TRUE, priv1), rt1)
    ∧ gstsrtserversink.thread_func 2 priv1 rt1 = Some (priv2, rt2)
    ∧ signals SIG_CLIENT_ADDED (new_events rt1 rt2) = [(11, peer 1); (12, peer 2)]
    ∧ gstsrtserversink.gst_srt_server_sink_render priv2 buffer_B0 rt2 =
        Some ((GST_FLOW_OK, priv3), rt3)
    ∧ gstsrtserversink.g_main_context_iteration CtxDefault priv3 rt3 = Some (priv4, rt4)
    ∧ sends (new_events rt3 rt4) = [(11, [100]); (12, [100])]
    ∧ gstsrtserversink.gst_srt_server_sink_render priv4 buffer_B1 rt4 =
        Some ((GST_FLOW_OK, priv5), rt5)
    ∧ gstsrtserversink.g_main_context_iteration CtxDefault priv5 rt5 = Some (priv6, rt6)
    ∧ sends (new_events rt5 rt6) = [(11, [101]); (12, [101])]
    ∧ send_results (new_events rt5 rt6) = [SRT_ERROR; 0]
    ∧ signals SIG_CLIENT_REMOVED (new_events rt0 rt6) = [(11, peer 1)]
    ∧ closes (new_events rt0 rt6) = [11]
    ∧ length (gstsrtserversink.clients priv6) = 1%nat.
Proof.
  intros E rt0. do 12 eexists.
  split; [vm_compute; reflexivity|].
  split; [vm_compute; reflexivity|].
  split; [vm_compute; reflexivity|].
  split; [vm_compute; reflexivity|].
  split; [vm_compute; reflexivity|].
  split; [vm_compute; reflexivity|].
  split; [vm_compute; reflexivity|].
  split; [vm_compute; reflexivity|].
  split; [vm_compute; reflexivity|].
  split; [vm_compute; reflexivity|].
  split; [vm_compute; reflexivity|].
  split; vm_compute; reflexivity.
Qed.

(* ===================================================================== *)
(** ** The session API at its edges *)
(* ===================================================================== *)

Section session_api.
Context {E : Env}.

(** X1.  [gst_srt_client_new] hands out no session for the invalid socket or
    for a NULL address, and [gst_srt_client_ref] and [gst_srt_client_unref]
    do nothing to NULL: in all four cases the heap and the world are as
    before, nothing is closed, and one critical line is logged. *)
Theorem session_api_rejects_null (rt : Runtime) :
  let rejected := mkRuntime (rt_world rt) (rt_heap rt) (rt_default_ctx rt)
                    (rt_server_ctx rt) (rt_trace rt ++ [ELog LCritical]) in
  (∀ a, gst_srt_client_new (-1) a rt = Some (None, rejected))
  ∧ (∀ s, gst_srt_client_new s None rt = Some (None, rejected))
  ∧ gst_srt_client_ref None rt = Some (None, rejected)
  ∧ gst_srt_client_unref None rt = Some (tt, rejected).
Proof.
  intros rejected.
  split; [intros [a|]; reflexivity|].
  split; [intros s; reflexivity|].
  split; reflexivity.
Qed.

(** X2.  Taking a reference on a live session and giving it back leaves the
    session and everything else exactly as it was, and closes nothing, for
    every count from 1 to the largest [guint]. *)
Theorem ref_then_unref_is_identity (rt : Runtime) (p : loc) (c : GstSRTClient) :
  rt_heap rt !! p = Some c ->
  1 <= ref_count c < guint_modulus ->
  (gst_srt_client_ref (Some p) ;; gst_srt_client_unref (Some p)) rt = Some (tt, rt).
Proof.
  intros Hp Hc.
  erewrite bind_run by (apply gst_srt_client_ref_live; exact Hp).
  unfold gst_srt_client_unref.
  erewrite bind_run by (unfold heap_load; cbn [rt_heap]; rewrite lookup_insert_eq; reflexivity).
  cbn [gstsrt_h.ref_count gstsrt_h.sock gstsrt_h.addr].
  assert (Hback : guint_wrap (guint_wrap (ref_count c + 1) - 1) = ref_count c).
  { unfold guint_wrap, guint_modulus in *.
    destruct (Z.eq_dec (ref_count c) (2 ^ 32 - 1)) as [Hmax|Hmax].
    - rewrite Hmax. reflexivity.
    - rewrite (Z.mod_small (ref_count c + 1)) by lia.
      rewrite Z.mod_small by lia. lia. }
  rewrite Hback.
  destruct (Z.ltb_spec 0 (ref_count c)); [|lia].
  unfold heap_store. cbn [rt_world rt_heap rt_default_ctx rt_server_ctx rt_trace].
  rewrite insert_insert_eq.
  replace (mkGstSRTClient (gstsrt_h.sock c) (gstsrt_h.addr c) (ref_count c)) with c
    by (destruct c; reflexivity).
  rewrite insert_id by exact Hp.
  destruct rt; reflexivity.
Qed.

End session_api.

Lemma ref_then_unref_is_identity_witness :
  let E := env_of calm in
  let rt := serving E tt in
  (gst_srt_client_ref (Some 1%nat) ;; gst_srt_client_unref (Some 1%nat)) rt = Some (tt, rt).
Proof.
  intros E rt.
  apply (@ref_then_unref_is_identity E rt 1%nat (mkGstSRTClient 12 (peer 2) 1)).
  - vm_compute. reflexivity.
  - unfold guint_modulus. simpl. lia.
Defined.

(* ===================================================================== *)
(** ** The client's fill on its other paths *)
(* ===================================================================== *)

Lemma take_mem_write (old new : list Z) (n : nat) :
  (n <= length old)%nat -> (n <= length new)%nat ->
  take n (gstsrtclientsrc.mem_write old new) = take n new.
Proof.
  intros Hold Hnew. unfold gstsrtclientsrc.mem_write.
  rewrite take_app_le by (rewrite length_take; lia).
  rewrite take_take. f_equal. lia.
Qed.

(* ===================================================================== *)
(** ** Setting and reading the URI *)
(* ===================================================================== *)

Section uri_round_trip.
Context {E : Env}.

(** X5.  On both elements, [set_uri] with a string whose scheme is "srt" returns
    TRUE, reports no error, replaces the stored URI by the parsed one under
    the object lock, and [get_uri] afterwards yields the printed form of
    that parsed URI; no other field of the element changes. *)
Theorem set_uri_then_get_uri (uri_ : string) (error : bool) :
  gst_uri_get_scheme (gst_uri_from_string uri_) = Some "srt" ->
  (∀ (priv : gstsrtserversink.GstSRTServerSinkPrivate) (rt : Runtime),
     ∃ rt1 rt2,
       gstsrtserversink.gst_srt_server_sink_uri_set_uri priv uri_ error rt =
         Some ((TRUE, None, gstsrtserversink.set_uri priv (gst_uri_from_string uri_)), rt1)
       ∧ new_events rt rt1 = [ELog LTrace; EObjectLock; EObjectUnlock]
       ∧ gstsrtserversink.gst_srt_server_sink_uri_get_uri
           (gstsrtserversink.set_uri priv (gst_uri_from_string uri_)) rt1 =
           Some (gst_uri_to_string (gst_uri_from_string uri_), rt2))
  ∧
  (∀ (priv : gstsrtclientsrc.GstSrtClientSrcPrivate) (rt : Runtime),
     ∃ rt1 rt2,
       gstsrtclientsrc.gst_srt_client_src_uri_set_uri priv uri_ error rt =
         Some ((TRUE, None, gstsrtclientsrc.set_uri priv (gst_uri_from_string uri_)), rt1)
       ∧ new_events rt rt1 = [ELog LTrace; EObjectLock; EObjectUnlock]
       ∧ gstsrtclientsrc.gst_srt_client_src_uri_get_uri
           (gstsrtclientsrc.set_uri priv (gst_uri_from_string uri_)) rt1 =
           Some (gst_uri_to_string (gst_uri_from_string uri_), rt2)).
Proof.
  intros Hscheme.
  assert (Hcmp : g_strcmp0_eq (gst_uri_get_scheme (gst_uri_from_string uri_)) (Some "srt") = true)
    by now apply g_strcmp0_eq_true.
  split; intros priv rt.
  - unfold gstsrtserversink.gst_srt_server_sink_uri_set_uri,
      gstsrtserversink.gst_srt_server_sink_uri_get_uri,
      gstsrtserversink.SRT_URI_SCHEME.
    mstep. rewrite Hcmp. simpl. eexists _, _. split; [reflexivity|].
    split; [|reflexivity].
    unfold new_events. simpl. trace_norm. apply drop_app_length.
  - unfold gstsrtclientsrc.gst_srt_client_src_uri_set_uri,
      gstsrtclientsrc.gst_srt_client_src_uri_get_uri,
      gstsrtclientsrc.SRT_URI_SCHEME.
    mstep. rewrite Hcmp. simpl. eexists _, _. split; [reflexivity|].
    split; [|reflexivity].
    unfold new_events. simpl. trace_norm. apply drop_app_length.
Qed.

End uri_round_trip.

Lemma set_uri_then_get_uri_witness :
  let E := env_of calm in
  let rt := empty_runtime E tt in
  ∃ priv1 rt1 rt2,
    gstsrtclientsrc.gst_srt_client_src_uri_set_uri client_priv0 "srt://127.0.0.1:7001" true rt =
      Some ((TRUE, None, priv1), rt1)
    ∧ gstsrtclientsrc.gst_srt_client_src_uri_get_uri priv1 rt1 =
        Some (Some "srt://127.0.0.1:7001", rt2).
Proof.
  intros E rt.
  destruct (@set_uri_then_get_uri E "srt://127.0.0.1:7001" true) as [_ Hc]; [reflexivity|].
  destruct (Hc client_priv0 rt) as (rt1 & rt2 & H1 & _ & H2).
  eexists _, rt1, rt2. split; [exact H1|exact H2].
Defined.

(* ===================================================================== *)
(** ** Starts that never reach the network *)
(* ===================================================================== *)

Section start_config.
Context {E : Env}.

(** X6.  When the stored URI has no host, or no port, or a host that is not an
    address, both [start] functions return FALSE after one warning without
    a single library call, and the element is unchanged. *)
Theorem start_rejects_bad_address :
  (∀ (priv : gstsrtserversink.GstSRTServerSinkPrivate) (rt : Runtime),
     (∀ host, gst_uri_get_host (gstsrtserversink.uri priv) = Some host ->
        gst_uri_get_port (gstsrtserversink.uri priv) ≠ GST_URI_NO_PORT ->
        g_inet_socket_address_new_from_string host
          (gst_uri_get_port (gstsrtserversink.uri priv)) = None) ->
     gstsrtserversink.gst_srt_server_sink_start priv rt =
       Some ((FALSE, priv),
             mkRuntime (rt_world rt) (rt_heap rt) (rt_default_ctx rt) (rt_server_ctx rt)
               (rt_trace rt ++ [ELog LWarning])))
  ∧
  (∀ (priv : gstsrtclientsrc.GstSrtClientSrcPrivate) (rt : Runtime),
     (∀ host, gst_uri_get_host (gstsrtclientsrc.uri priv) = Some host ->
        gst_uri_get_port (gstsrtclientsrc.uri priv) ≠ GST_URI_NO_PORT ->
        g_inet_socket_address_new_from_string host
          (gst_uri_get_port (gstsrtclientsrc.uri priv)) = None) ->
     gstsrtclientsrc.gst_srt_client_src_start priv rt =
       Some ((FALSE, priv),
             mkRuntime (rt_world rt) (rt_heap rt) (rt_default_ctx rt) (rt_server_ctx rt)
               (rt_trace rt ++ [ELog LWarning]))).
Proof.
  split; intros priv rt Hbad.
  - unfold gstsrtserversink.gst_srt_server_sink_start.
    destruct (gst_uri_get_host (gstsrtserversink.uri priv)) as [host|]; [|reflexivity].
    destruct (Z.eqb_spec (gst_uri_get_port (gstsrtserversink.uri priv)) GST_URI_NO_PORT)
      as [|Hport]; [reflexivity|].
    rewrite (Hbad host eq_refl Hport). reflexivity.
  - unfold gstsrtclientsrc.gst_srt_client_src_start.
    destruct (gst_uri_get_host (gstsrtclientsrc.uri priv)) as [host|]; [|reflexivity].
    destruct (Z.eqb_spec (gst_uri_get_port (gstsrtclientsrc.uri priv)) GST_URI_NO_PORT)
      as [|Hport]; [reflexivity|].
    rewrite (Hbad host eq_refl Hport). reflexivity.
Qed.

End start_config.

Lemma start_rejects_bad_address_witness :
  let E := env_of calm in
  let rt := empty_runtime E tt in
  let priv := gstsrtclientsrc.mkPriv 0 0 (parse_uri "http://example.org:80") in
  gstsrtclientsrc.gst_srt_client_src_start priv rt =
    Some ((FALSE, priv), mkRuntime tt ∅ [] [] [ELog LWarning]).
Proof.
  intros E rt priv.
  destruct (@start_rejects_bad_address E) as [_ Hc].
  apply (Hc priv rt).
  intros host Hhost _. vm_compute in Hhost. injection Hhost as <-. reflexivity.
Defined.

(* ===================================================================== *)
(** ** The accept unit on its other paths *)
(* ===================================================================== *)

Lemma registry_owned_ok {E : Env} (rt : Runtime) (l : list loc) :
  registry_owned rt l -> registry_ok rt l.
Proof.
  intros [Hnd Hown]. split; [exact Hnd|].
  intros p Hp. destruct (Hown p Hp) as (c & Hc & _). eauto.
Qed.

Lemma peer_of_lookup (h : gmap loc GstSRTClient) (p : loc) (c : GstSRTClient) :
  h !! p = Some c -> peer_of h p = (gstsrt_h.sock c, gstsrt_h.addr c).
Proof. intros H. unfold peer_of, client_at. now rewrite H. Qed.

Section accept_paths.
Context {E : Env}.

(** Everything one run of the accept callback can do to a server whose
    registry owns its sessions: it faults, or it returns having appended at
    most one fresh session. *)
Lemma idle_listen_callback_outcome (priv : gstsrtserversink.GstSRTServerSinkPrivate)
    (rt : Runtime) :
  registry_owned rt (gstsrtserversink.clients priv) ->
  gstsrtserversink.idle_listen_callback priv rt = None
  ∨ ∃ res priv' rt' new evs,
      gstsrtserversink.idle_listen_callback priv rt = Some ((res, priv'), rt')
      ∧ rt_trace rt' = rt_trace rt ++ evs
      ∧ gstsrtserversink.clients priv' = gstsrtserversink.clients priv ++ new
      ∧ gstsrtserversink.queued_buffers priv' = gstsrtserversink.queued_buffers priv
      ∧ (length new <= 1)%nat
      ∧ (res = FALSE -> new = [])
      ∧ signals SIG_CLIENT_ADDED evs = peer_of (rt_heap rt') <$> new
      ∧ signals SIG_CLIENT_REMOVED evs = []
      ∧ closes evs = []
      ∧ sends evs = []
      ∧ rt_default_ctx rt' = rt_default_ctx rt
      ∧ rt_server_ctx rt' = rt_server_ctx rt
      ∧ (∀ q, q ∈ gstsrtserversink.clients priv -> rt_heap rt' !! q = rt_heap rt !! q)
      ∧ registry_owned rt' (gstsrtserversink.clients priv').
Proof.
  intros Hown.
  set (wait := oracle (rt_world rt)
                 (srt_epoll_wait_read (gstsrtserversink.srt_poll_id priv)
                    (gstsrtserversink.poll_timeout priv))).
  unfold gstsrtserversink.idle_listen_callback.
  bind_step ltac:(apply call_run). fold wait.
  destruct (Z.eqb_spec (ret wait.1) (-1)) as [Hw|Hw].
  { (* the wait failed *)
    right. bind_step ltac:(apply call_run).
    set (err := oracle wait.2 srt_getlasterror).
    destruct (Z.eqb (ret err.1) SRT_ETIMEOUT); cbn [negb].
    - bind_step ltac:(reflexivity).
      bind_step ltac:(apply call_run).
      eexists _, priv, _, [], _. split; [reflexivity|].
      split; [cbn [rt_trace]; reflexivity|].
      rewrite app_nil_r.
      split; [reflexivity|]. split; [reflexivity|]. split; [simpl; lia|].
      split; [reflexivity|].
      repeat split; try reflexivity; apply Hown.
    - bind_step ltac:(erewrite bind_run by reflexivity; reflexivity).
      bind_step ltac:(apply call_run).
      eexists _, priv, _, [], _. split; [reflexivity|].
      split; [cbn [rt_trace]; reflexivity|].
      rewrite app_nil_r.
      split; [reflexivity|]. split; [reflexivity|]. split; [simpl; lia|].
      split; [reflexivity|].
      repeat split; try reflexivity; apply Hown. }
  bind_step ltac:(apply call_run).
  set (accept := oracle wait.2 (srt_accept (gstsrtserversink.sock priv))).
  destruct (Z.eqb_spec (ret accept.1) SRT_INVALID_SOCK) as [Ha|Ha].
  { (* the accept failed *)
    right. bind_step ltac:(reflexivity).
    bind_step ltac:(apply call_run).
    eexists _, priv, _, [], _. split; [reflexivity|].
    split; [cbn [rt_trace]; reflexivity|].
    rewrite app_nil_r.
    split; [reflexivity|]. split; [reflexivity|]. split; [simpl; lia|].
    split; [reflexivity|].
    repeat split; try reflexivity; apply Hown. }
  destruct (g_inet_address_new_from_bytes (out_bytes accept.1) (out_family accept.1))
    as [a|] eqn:Haddr.
  2:{ (* no address: the NULL session is read *)
      left. erewrite bind_run by reflexivity. reflexivity. }
  right.
  match goal with |- context [mbind _ (gst_srt_client_new _ _) ?r] => set (rt1 := r) end.
  destruct (gst_srt_client_new_ok rt1 (ret accept.1) a Ha)
    as (p & rt2 & Hnew & Hfresh & Hh2 & Hw2 & Ht2).
  bind_step ltac:(exact Hnew).
  unfold g_list_append.
  bind_step ltac:(unfold heap_load; rewrite Hh2, lookup_insert_eq; reflexivity).
  bind_step ltac:(reflexivity).
  bind_step ltac:(reflexivity).
  destruct Hown as [Hnd Hown].
  assert (Hp : p ∉ gstsrtserversink.clients priv).
  { intros Hin. destruct (Hown p Hin) as (c & Hc & _). subst rt1. simpl in Hfresh. congruence. }
  eexists _, _, _, [p], _. split; [reflexivity|].
  split; [cbn [rt_trace]; rewrite Ht2; subst rt1; cbn [rt_trace]; trace_norm; reflexivity|].
  split; [reflexivity|]. split; [reflexivity|]. split; [simpl; lia|].
  split; [discriminate|].
  cbn [rt_heap rt_default_ctx rt_server_ctx].
  split.
  { simpl. erewrite peer_of_lookup by (rewrite Hh2; apply lookup_insert_eq). reflexivity. }
  split; [reflexivity|]. split; [reflexivity|]. split; [reflexivity|].
  assert (Hctx : rt_default_ctx rt2 = rt_default_ctx rt ∧ rt_server_ctx rt2 = rt_server_ctx rt).
  { unfold gst_srt_client_new in Hnew.
    destruct (Z.eqb_spec (ret accept.1) (-1)); [contradiction|].
    munfold. injection Hnew as _ <-. split; reflexivity. }
  split; [apply Hctx|]. split; [apply Hctx|].
  split.
  { intros q Hq. rewrite Hh2. rewrite lookup_insert_ne by (intros ->; contradiction).
    reflexivity. }
  split.
  - apply NoDup_app. split; [exact Hnd|]. split; [|apply NoDup_singleton].
    intros q Hq Hq'. apply list_elem_of_singleton in Hq'. subst q. contradiction.
  - intros q Hq. cbn [rt_heap]. rewrite Hh2. apply elem_of_app in Hq as [Hq|Hq].
    + rewrite lookup_insert_ne by (intros ->; contradiction). now apply Hown.
    + apply list_elem_of_singleton in Hq. subst q. rewrite lookup_insert_eq. eauto.
Qed.

End accept_paths.

Section server_loop.
Context {E : Env}.

(** One iteration of the server thread's loop, with at most the accept
    unit attached. *)
Lemma server_iteration_outcome (priv : gstsrtserversink.GstSRTServerSinkPrivate)
    (rt : Runtime) :
  registry_owned rt (gstsrtserversink.clients priv) ->
  rt_server_ctx rt = [] ∨ rt_server_ctx rt = [cb_idle_listen_callback] ->
  gstsrtserversink.g_main_context_iteration CtxServer priv rt = None
  ∨ ∃ priv' rt' new evs,
      gstsrtserversink.g_main_context_iteration CtxServer priv rt = Some (priv', rt')
      ∧ rt_trace rt' = rt_trace rt ++ evs
      ∧ gstsrtserversink.clients priv' = gstsrtserversink.clients priv ++ new
      ∧ gstsrtserversink.queued_buffers priv' = gstsrtserversink.queued_buffers priv
      ∧ (length new <= 1)%nat
      ∧ signals SIG_CLIENT_ADDED evs = peer_of (rt_heap rt') <$> new
      ∧ signals SIG_CLIENT_REMOVED evs = []
      ∧ closes evs = []
      ∧ sends evs = []
      ∧ rt_default_ctx rt' = rt_default_ctx rt
      ∧ (rt_server_ctx rt' = [] ∨ rt_server_ctx rt' = [cb_idle_listen_callback])
      ∧ (∀ q, q ∈ gstsrtserversink.clients priv -> rt_heap rt' !! q = rt_heap rt !! q)
      ∧ registry_owned rt' (gstsrtserversink.clients priv').
Proof.
  intros Hown Hctx.
  unfold gstsrtserversink.g_main_context_iteration.
  erewrite bind_run by reflexivity. cbv beta.
  destruct Hctx as [Hctx|Hctx]; rewrite Hctx; cbn [gstsrtserversink.dispatch_all].
  { right. exists priv, rt, [], []. split; [reflexivity|].
    rewrite !app_nil_r. repeat split; auto; try apply Hown; try (simpl; lia). }
  unfold gstsrtserversink.dispatch.
  destruct (idle_listen_callback_outcome priv rt Hown)
    as [Hfault|(res & priv' & rt1 & new & evs & Hrun & Ht & Hcl & Hq & Hlen & Hres & Hadd
                & Hrem & Hclose & Hsend & Hd & Hs & Hkeep & Hown')].
  { left. rewrite bind_fault; [reflexivity|]. rewrite bind_fault; [reflexivity|exact Hfault]. }
  right. destruct res.
  - erewrite bind_run by (erewrite bind_run by exact Hrun; reflexivity).
    exists priv', rt1, new, evs. split; [reflexivity|].
    repeat split; auto; try apply Hown'.
    rewrite Hs, Hctx. now right.
  - erewrite bind_run.
    2:{ erewrite bind_run by exact Hrun. cbv beta iota.
        unfold gstsrtserversink.g_source_destroy.
        erewrite bind_run by (erewrite bind_run by reflexivity;
                              erewrite bind_run by reflexivity; reflexivity).
        reflexivity. }
    cbv beta.
    eexists priv', _, new, (evs ++ [ESourceRemove CtxServer cb_idle_listen_callback]).
    split; [reflexivity|].
    cbn [rt_trace rt_heap rt_default_ctx rt_server_ctx].
    rewrite Ht, Hs, Hctx, signals_app, signals_app, closes_app, sends_app, Hadd, Hrem,
      Hclose, Hsend.
    split; [now rewrite app_assoc|].
    rewrite (Hres eq_refl) in *.
    repeat split; auto; try apply Hown'.
Qed.

(** Any number of iterations of the server thread's loop. *)
Lemma thread_func_outcome (n : nat) :
  ∀ (priv : gstsrtserversink.GstSRTServerSinkPrivate) (rt : Runtime),
    registry_owned rt (gstsrtserversink.clients priv) ->
    rt_server_ctx rt = [] ∨ rt_server_ctx rt = [cb_idle_listen_callback] ->
    gstsrtserversink.thread_func n priv rt = None
    ∨ ∃ priv' rt' new evs,
        gstsrtserversink.thread_func n priv rt = Some (priv', rt')
        ∧ rt_trace rt' = rt_trace rt ++ evs
        ∧ gstsrtserversink.clients priv' = gstsrtserversink.clients priv ++ new
        ∧ gstsrtserversink.queued_buffers priv' = gstsrtserversink.queued_buffers priv
        ∧ (length new <= n)%nat
        ∧ signals SIG_CLIENT_ADDED evs = peer_of (rt_heap rt') <$> new
        ∧ signals SIG_CLIENT_REMOVED evs = []
        ∧ closes evs = []
        ∧ sends evs = []
        ∧ rt_default_ctx rt' = rt_default_ctx rt
        ∧ (rt_server_ctx rt' = [] ∨ rt_server_ctx rt' = [cb_idle_listen_callback])
        ∧ (∀ q, q ∈ gstsrtserversink.clients priv -> rt_heap rt' !! q = rt_heap rt !! q)
        ∧ registry_owned rt' (gstsrtserversink.clients priv').
Proof.
  induction n as [|n IH]; intros priv rt Hown Hctx.
  { right. exists priv, rt, [], []. split; [reflexivity|].
    rewrite !app_nil_r. repeat split; auto; try apply Hown. }
  cbn [gstsrtserversink.thread_func].
  destruct (server_iteration_outcome priv rt Hown Hctx)
    as [Hfault|(priv1 & rt1 & new1 & evs1 & Hrun1 & Ht1 & Hcl1 & Hq1 & Hlen1 & Hadd1
                & Hrem1 & Hclose1 & Hsend1 & Hd1 & Hs1 & Hkeep1 & Hown1)].
  { left. now rewrite bind_fault. }
  erewrite bind_run by exact Hrun1.
  destruct (IH priv1 rt1 Hown1 Hs1)
    as [Hfault|(priv2 & rt2 & new2 & evs2 & Hrun2 & Ht2 & Hcl2 & Hq2 & Hlen2 & Hadd2
                & Hrem2 & Hclose2 & Hsend2 & Hd2 & Hs2 & Hkeep2 & Hown2)].
  { left. exact Hfault. }
  right. exists priv2, rt2, (new1 ++ new2), (evs1 ++ evs2).
  split; [exact Hrun2|].
  pose proof Hown2 as Hown2'. rewrite Hcl2, Hcl1 in Hown2'.
  rewrite Ht2, Ht1, Hcl2, Hcl1, Hq2, Hq1, signals_app, signals_app, closes_app, sends_app,
    Hadd1, Hadd2, Hrem1, Hrem2, Hclose1, Hclose2, Hsend1, Hsend2, Hd2, Hd1, fmap_app,
    length_app, !app_assoc.
  repeat split; auto; try apply Hown2'; try lia.
  - f_equal. apply list_fmap_ext. intros i q Hq.
    unfold peer_of, client_at. rewrite Hkeep2; [reflexivity|].
    rewrite Hcl1. apply elem_of_app. right. eapply list_elem_of_lookup_2; eauto.
  - intros q Hq. rewrite Hkeep2 by (rewrite Hcl1; apply elem_of_app; now left).
    now apply Hkeep1.
Qed.

End server_loop.

(** The events between a state and an explicit later state. *)
Ltac between :=
  unfold new_events; cbn [rt_trace]; rewrite <- ?app_assoc; rewrite drop_app_length;
  cbn [app].


(* ===================================================================== *)
(** ** What the dispatcher does to the sessions it evicts *)
(* ===================================================================== *)


Lemma calls_app (l1 l2 : list Event) : calls (l1 ++ l2) = calls l1 ++ calls l2.
Proof.
  induction l1 as [|e l1 IH]; [reflexivity|].
  destruct e; simpl; rewrite ?IH; reflexivity.
Qed.

Section dispatcher_resources.
Context {E : Env}.

(** The inner loop over sessions the registry owns: as in
    [send_to_clients_spec], and the socket of every evicted session is
    closed, once, and the session is freed. *)
Lemma send_to_clients_owned (data : list Z) (cursor : list loc) :
  ∀ (rt : Runtime) (pre : list loc),
    NoDup (pre ++ cursor) ->
    (∀ p, p ∈ cursor -> ∃ c, rt_heap rt !! p = Some c ∧ ref_count c = 1) ->
    ∃ rt' evs,
      gstsrtserversink.send_to_clients data cursor (pre ++ cursor) rt =
        Some (pre ++ survivors cursor (send_results evs), rt')
      ∧ rt_trace rt' = rt_trace rt ++ evs
      ∧ sends evs = (λ p, (gstsrt_h.sock (client_at (rt_heap rt) p), data)) <$> cursor
      ∧ length (send_results evs) = length cursor
      ∧ signals SIG_CLIENT_REMOVED evs =
          peer_of (rt_heap rt) <$> casualties cursor (send_results evs)
      ∧ signals SIG_CLIENT_ADDED evs = []
      ∧ closes evs =
          (λ p, gstsrt_h.sock (client_at (rt_heap rt) p))
            <$> casualties cursor (send_results evs)
      ∧ element_errors evs = O
      ∧ rt_default_ctx rt' = rt_default_ctx rt
      ∧ rt_server_ctx rt' = rt_server_ctx rt
      ∧ (∀ q, q ∉ casualties cursor (send_results evs) -> rt_heap rt' !! q = rt_heap rt !! q)
      ∧ (∀ q, q ∈ casualties cursor (send_results evs) -> rt_heap rt' !! q = None).
Proof.
  induction cursor as [|p next IH]; intros rt pre Hnd Hlive.
  - exists rt, []. simpl. rewrite !app_nil_r.
    repeat split; auto. intros q Hq. inversion Hq.
  - destruct (Hlive p) as (c & Hc & Hone); [apply list_elem_of_here|].
    assert (Hp_pre : p ∉ pre).
    { intros Hin. apply NoDup_app in Hnd as (_ & Hdisj & _).
      apply (Hdisj p Hin). apply list_elem_of_here. }
    assert (Hp_next : p ∉ next).
    { apply NoDup_app in Hnd as (_ & _ & Hn). now apply NoDup_cons in Hn as [Hn _]. }
    cbn [gstsrtserversink.send_to_clients].
    bind_step ltac:(unfold heap_load; rewrite Hc; reflexivity).
    bind_step ltac:(apply call_run).
    destruct (oracle (rt_world rt) (srt_sendmsg2 (gstsrt_h.sock c) data)) as [r w] eqn:Ho.
    cbn [fst snd].
    destruct (Z.eqb_spec (ret r) SRT_ERROR) as [Herr|Hok].
    + (* the send failed *)
      rewrite g_list_remove_middle by exact Hp_pre.
      bind_step ltac:(reflexivity).
      bind_step ltac:(reflexivity).
      bind_step ltac:(apply (gst_srt_client_unref_last _ p c); [exact Hc|exact Hone]).
      destruct (oracle w (srt_close (gstsrt_h.sock c))) as [rc wc] eqn:Hoc.
      cbn [fst snd].
      match goal with
      | |- context [gstsrtserversink.send_to_clients data next (pre ++ next) ?r3] =>
          set (rt3 := r3)
      end.
      assert (Hheap : ∀ q, q ≠ p -> rt_heap rt3 !! q = rt_heap rt !! q).
      { intros q Hq. subst rt3. cbn [rt_heap]. now apply lookup_delete_ne. }
      destruct (IH rt3 pre)
        as (rt' & evs & Hrun & Ht & Hs & Hlen & Hsig & Hadd & Hcl & Herrs & Hd & Hsv
            & Hkeep & Hfree).
      { apply NoDup_app in Hnd as (Hpre & Hdisj & Hn).
        apply NoDup_app. split; [exact Hpre|]. split.
        - intros x Hx Hx'. apply (Hdisj x Hx). now apply list_elem_of_further.
        - now apply NoDup_cons in Hn as [_ Hn]. }
      { intros q Hq. rewrite Hheap by (intros ->; contradiction).
        apply Hlive. now apply list_elem_of_further. }
      exists rt'.
      exists ([ECall (srt_sendmsg2 (gstsrt_h.sock c) data) r; ELog LWarning;
               ESignal SIG_CLIENT_REMOVED (gstsrt_h.sock c) (gstsrt_h.addr c);
               ECall (srt_close (gstsrt_h.sock c)) rc] ++ evs).
      cbn [app send_results sends signals closes element_errors length casualties survivors].
      rewrite Herr. cbn [Z.eqb SRT_ERROR Pos.eqb].
      split; [exact Hrun|].
      split; [rewrite Ht; subst rt3; cbn [rt_trace]; trace_norm; reflexivity|].
      split.
      { rewrite Hs. cbn [fmap list_fmap]. f_equal.
        - unfold client_at. rewrite Hc. reflexivity.
        - apply list_fmap_ext. intros i q Hq.
          unfold client_at. rewrite Hheap; [reflexivity|].
          intros ->. apply Hp_next. eapply list_elem_of_lookup_2; eauto. }
      split; [now rewrite Hlen|].
      split.
      { rewrite Hsig. cbn [fmap list_fmap]. f_equal.
        - unfold peer_of, client_at. rewrite Hc. reflexivity.
        - apply list_fmap_ext. intros i q Hq.
          unfold peer_of, client_at. rewrite Hheap; [reflexivity|].
          intros ->. apply Hp_next. eapply casualties_subset, list_elem_of_lookup_2; eauto. }
      split; [exact Hadd|].
      split.
      { rewrite Hcl. cbn [fmap list_fmap]. f_equal.
        - unfold client_at. rewrite Hc. reflexivity.
        - apply list_fmap_ext. intros i q Hq.
          unfold client_at. rewrite Hheap; [reflexivity|].
          intros ->. apply Hp_next. eapply casualties_subset, list_elem_of_lookup_2; eauto. }
      split; [exact Herrs|].
      split; [rewrite Hd; reflexivity|].
      split; [rewrite Hsv; reflexivity|].
      split.
      * intros q Hq. apply not_elem_of_cons in Hq as [Hqp Hq].
        rewrite (Hkeep q Hq). now apply Hheap.
      * intros q Hq. apply elem_of_cons in Hq as [->|Hq]; [|now apply Hfree].
        rewrite Hkeep.
        -- subst rt3. cbn [rt_heap]. apply lookup_delete_eq.
        -- intros Hin. apply Hp_next. eapply casualties_subset; eauto.
    + (* the send succeeded *)
      match goal with
      | |- context [gstsrtserversink.send_to_clients data next _ ?r1] => set (rt1 := r1)
      end.
      destruct (IH rt1 (pre ++ [p]))
        as (rt' & evs & Hrun & Ht & Hs & Hlen & Hsig & Hadd & Hcl & Herrs & Hd & Hsv
            & Hkeep & Hfree).
      { rewrite <- app_assoc. exact Hnd. }
      { intros q Hq. apply Hlive. now apply list_elem_of_further. }
      exists rt', (ECall (srt_sendmsg2 (gstsrt_h.sock c) data) r :: evs).
      rewrite <- !app_assoc in Hrun. cbn [app] in Hrun.
      cbn [app send_results sends signals closes element_errors length casualties survivors].
      destruct (Z.eqb_spec (ret r) SRT_ERROR) as [|_]; [contradiction|].
      split; [exact Hrun|].
      split; [rewrite Ht; subst rt1; cbn [rt_trace]; trace_norm; reflexivity|].
      split.
      { rewrite Hs. cbn [fmap list_fmap]. f_equal. unfold client_at. subst rt1.
        cbn [rt_heap]. rewrite Hc. reflexivity. }
      split; [now rewrite Hlen|].
      repeat split; auto.
Qed.

End dispatcher_resources.

Lemma registry_owned_survivors {E : Env} (rt rt' : Runtime) (l : list loc) (rs : list Z) :
  registry_owned rt l ->
  (∀ q, q ∉ casualties l rs -> rt_heap rt' !! q = rt_heap rt !! q) ->
  registry_owned rt' (survivors l rs).
Proof.
  intros [Hnd Hown] Hkeep. split; [now apply survivors_NoDup|].
  intros q Hq. rewrite Hkeep by now apply survivors_not_casualties.
  apply Hown. eapply survivors_subset; eauto.
Qed.

Section dispatch_outcomes.
Context {E : Env}.

(** The dispatch of one mappable buffer over a registry that owns its
    sessions. *)
Lemma srt_send_buffer_mapped (priv : gstsrtserversink.GstSRTServerSinkPrivate)
    (rt : Runtime) (b : GstBuffer) :
  gstsrtserversink.queued_buffers priv = [b] ->
  registry_owned rt (gstsrtserversink.clients priv) ->
  ret (oracle (rt_world rt) (gst_buffer_map b)).1 ≠ 0 ->
  ∃ priv' rt' evs,
    gstsrtserversink.srt_send_buffer priv rt = Some ((FALSE, priv'), rt')
    ∧ rt_trace rt' =
        rt_trace rt
        ++ [ELog LTrace; EMutexLock; ELog LTrace;
            ECall (gst_buffer_map b) (oracle (rt_world rt) (gst_buffer_map b)).1]
        ++ evs ++ [EMutexUnlock]
    ∧ gstsrtserversink.queued_buffers priv' = []
    ∧ gstsrtserversink.clients priv' =
        survivors (gstsrtserversink.clients priv) (send_results evs)
    ∧ sends evs =
        (λ p, (gstsrt_h.sock (client_at (rt_heap rt) p), buf_data b))
          <$> gstsrtserversink.clients priv
    ∧ length (send_results evs) = length (gstsrtserversink.clients priv)
    ∧ signals SIG_CLIENT_REMOVED evs =
        peer_of (rt_heap rt)
          <$> casualties (gstsrtserversink.clients priv) (send_results evs)
    ∧ signals SIG_CLIENT_ADDED evs = []
    ∧ closes evs =
        (λ p, gstsrt_h.sock (client_at (rt_heap rt) p))
          <$> casualties (gstsrtserversink.clients priv) (send_results evs)
    ∧ element_errors evs = O
    ∧ rt_default_ctx rt' = rt_default_ctx rt
    ∧ rt_server_ctx rt' = rt_server_ctx rt
    ∧ (∀ q, q ∉ casualties (gstsrtserversink.clients priv) (send_results evs) ->
            rt_heap rt' !! q = rt_heap rt !! q)
    ∧ (∀ q, q ∈ casualties (gstsrtserversink.clients priv) (send_results evs) ->
            rt_heap rt' !! q = None).
Proof.
  intros Hq [Hnd Hown] Hmap.
  unfold gstsrtserversink.srt_send_buffer. rewrite Hq.
  bind_step ltac:(reflexivity).
  bind_step ltac:(reflexivity).
  set (rt1 := mkRuntime (oracle (rt_world rt) (gst_buffer_map b)).2 (rt_heap rt)
                (rt_default_ctx rt) (rt_server_ctx rt)
                (rt_trace rt ++ [ELog LTrace; EMutexLock; ELog LTrace;
                                 ECall (gst_buffer_map b) (oracle (rt_world rt) (gst_buffer_map b)).1])).
  destruct (send_to_clients_owned (buf_data b) (gstsrtserversink.clients priv) rt1 [])
    as (rt2 & evs & Hrun & Ht2 & Hs & Hlen & Hsig & Hadd & Hcl & Herrs & Hd & Hsv
        & Hkeep & Hfree); [exact Hnd|exact Hown|].
  cbn [app] in Hrun.
  erewrite (bind_run _ _ _ rt2 _).
  2:{ rewrite send_buffers_single by exact Hmap. rt_norm. exact Hrun. }
  cbv beta.
  bind_step ltac:(reflexivity).
  eexists _, _, evs. split; [reflexivity|].
  cbn [rt_trace rt_heap rt_default_ctx rt_server_ctx].
  split; [rewrite Ht2; subst rt1; cbn [rt_trace]; trace_norm; reflexivity|].
  repeat split; auto.
Qed.

(** The dispatch of one buffer that cannot be mapped: an element error,
    and nothing is sent. *)
Lemma srt_send_buffer_unmapped (priv : gstsrtserversink.GstSRTServerSinkPrivate)
    (rt : Runtime) (b : GstBuffer) :
  gstsrtserversink.queued_buffers priv = [b] ->
  ret (oracle (rt_world rt) (gst_buffer_map b)).1 = 0 ->
  gstsrtserversink.srt_send_buffer priv rt =
    Some ((FALSE,
           gstsrtserversink.set_queued_buffers
             (gstsrtserversink.set_clients priv (gstsrtserversink.clients priv)) []),
          mkRuntime (oracle (rt_world rt) (gst_buffer_map b)).2 (rt_heap rt)
            (rt_default_ctx rt) (rt_server_ctx rt)
            (rt_trace rt ++ [ELog LTrace; EMutexLock; ELog LTrace;
                             ECall (gst_buffer_map b) (oracle (rt_world rt) (gst_buffer_map b)).1;
                             EElementError; EMutexUnlock])).
Proof.
  intros Hq Hmap.
  unfold gstsrtserversink.srt_send_buffer. rewrite Hq.
  bind_step ltac:(reflexivity).
  bind_step ltac:(reflexivity).
  erewrite bind_run.
  2:{ cbn [gstsrtserversink.send_buffers].
      bind_step ltac:(reflexivity).
      bind_step ltac:(apply call_run).
      rewrite Hmap. cbn [Z.eqb].
      bind_step ltac:(reflexivity).
      reflexivity. }
  cbv beta.
  bind_step ltac:(reflexivity).
  reflexivity.
Qed.

(** The dispatch of an empty queue. *)
Lemma srt_send_buffer_empty (priv : gstsrtserversink.GstSRTServerSinkPrivate)
    (rt : Runtime) :
  gstsrtserversink.queued_buffers priv = [] ->
  gstsrtserversink.srt_send_buffer priv rt =
    Some ((FALSE,
           gstsrtserversink.set_queued_buffers
             (gstsrtserversink.set_clients priv (gstsrtserversink.clients priv)) []),
          mkRuntime (rt_world rt) (rt_heap rt) (rt_default_ctx rt) (rt_server_ctx rt)
            (rt_trace rt ++ [ELog LTrace; EMutexLock; EMutexUnlock])).
Proof.
  intros Hq.
  unfold gstsrtserversink.srt_send_buffer. rewrite Hq.
  bind_step ltac:(reflexivity).
  bind_step ltac:(reflexivity).
  erewrite bind_run by reflexivity.
  cbv beta.
  bind_step ltac:(reflexivity).
  reflexivity.
Qed.

(** Over a registry that owns its sessions and a queue of at most one
    buffer the dispatcher always returns; it empties the queue, adds no
    session and keeps the registry owning what is left in it. *)
Lemma srt_send_buffer_outcome (priv : gstsrtserversink.GstSRTServerSinkPrivate)
    (rt : Runtime) :
  registry_owned rt (gstsrtserversink.clients priv) ->
  (length (gstsrtserversink.queued_buffers priv) <= 1)%nat ->
  ∃ priv' rt',
    gstsrtserversink.srt_send_buffer priv rt = Some ((FALSE, priv'), rt')
    ∧ gstsrtserversink.queued_buffers priv' = []
    ∧ registry_owned rt' (gstsrtserversink.clients priv')
    ∧ (∀ q, q ∈ gstsrtserversink.clients priv' -> q ∈ gstsrtserversink.clients priv)
    ∧ rt_default_ctx rt' = rt_default_ctx rt
    ∧ rt_server_ctx rt' = rt_server_ctx rt.
Proof.
  intros Hown Hlen.
  destruct (gstsrtserversink.queued_buffers priv) as [|b [|b' q]] eqn:Hq;
    [| |simpl in Hlen; lia].
  - rewrite srt_send_buffer_empty by exact Hq.
    eexists _, _. split; [reflexivity|]. repeat split; auto; apply Hown.
  - destruct (Z.eq_dec (ret (oracle (rt_world rt) (gst_buffer_map b)).1) 0) as [Hmap|Hmap].
    + rewrite (srt_send_buffer_unmapped priv rt b Hq Hmap).
      eexists _, _. split; [reflexivity|]. repeat split; auto; apply Hown.
    + destruct (srt_send_buffer_mapped priv rt b Hq Hown Hmap)
        as (priv' & rt' & evs & Hrun & _ & Hq' & Hcl & _ & _ & _ & _ & _ & _ & Hd & Hs
            & Hkeep & _).
      exists priv', rt'. split; [exact Hrun|]. split; [exact Hq'|].
      rewrite Hcl.
      split; [eapply registry_owned_survivors; eauto|].
      split; [intros q; apply survivors_subset|].
      split; assumption.
Qed.

(** One iteration of the default main context on a server in its
    invariant: it always returns, and the invariant holds again with the
    queue empty. *)
Lemma default_iteration_outcome (priv : gstsrtserversink.GstSRTServerSinkPrivate)
    (rt : Runtime) :
  server_inv rt priv ->
  ∃ priv' rt',
    gstsrtserversink.g_main_context_iteration CtxDefault priv rt = Some (priv', rt')
    ∧ gstsrtserversink.queued_buffers priv' = []
    ∧ (∀ q, q ∈ gstsrtserversink.clients priv' -> q ∈ gstsrtserversink.clients priv)
    ∧ server_inv rt' priv'.
Proof.
  intros (Hown & Hlen & Hd & Hs).
  unfold gstsrtserversink.g_main_context_iteration.
  erewrite bind_run by reflexivity. cbv beta. rewrite Hd.
  destruct (gstsrtserversink.queued_buffers priv) as [|b [|b' q]] eqn:Hq;
    [| |simpl in Hlen; lia]; cbn [length replicate gstsrtserversink.dispatch_all].
  - exists priv, rt. split; [reflexivity|]. split; [exact Hq|]. split; [auto|].
    unfold server_inv. rewrite Hq. auto.
  - destruct (srt_send_buffer_outcome priv rt Hown)
      as (priv' & rt' & Hrun & Hq' & Hown' & Hsub & Hd' & Hs');
      [rewrite Hq; simpl; lia|].
    unfold gstsrtserversink.dispatch.
    erewrite bind_run.
    2:{ erewrite bind_run by exact Hrun. cbv beta iota delta [FALSE].
        unfold gstsrtserversink.g_source_destroy.
        erewrite bind_run by (erewrite bind_run by reflexivity;
                              erewrite bind_run by reflexivity; reflexivity).
        reflexivity. }
    cbv beta.
    eexists priv', _. split; [reflexivity|]. split; [exact Hq'|]. split; [exact Hsub|].
    unfold server_inv. cbn [rt_heap rt_default_ctx rt_server_ctx].
    rewrite Hq', Hd', Hd, Hs'. cbn [length replicate].
    split; [exact Hown'|]. split; [lia|]. split; [reflexivity|exact Hs].
Qed.

(** Every operation of a running server keeps the invariant. *)
Lemma run_op_keeps_inv (op : ServerOp) (priv priv' : gstsrtserversink.GstSRTServerSinkPrivate)
    (rt rt' : Runtime) :
  server_inv rt priv ->
  run_op op priv rt = Some (priv', rt') ->
  server_inv rt' priv'.
Proof.
  intros Hinv Hrun. destruct op as [|b|]; cbn [run_op] in Hrun.
  - destruct Hinv as (Hown & Hlen & Hd & Hs).
    destruct (server_iteration_outcome priv rt Hown Hs)
      as [Hfault|(priv1 & rt1 & new & evs & Hrun1 & _ & _ & Hq1 & _ & _ & _ & _ & _ & Hd1
                  & Hs1 & _ & Hown1)]; [congruence|].
    rewrite Hrun1 in Hrun. injection Hrun as <- <-.
    unfold server_inv. rewrite Hq1, Hd1. auto.
  - destruct Hinv as (Hown & Hlen & Hd & Hs).
    destruct (gstsrtserversink.queued_buffers priv) as [|b0 q] eqn:Hq.
    + erewrite bind_run in Hrun by (apply render_idle; exact Hq).
      injection Hrun as <- <-.
      unfold server_inv. cbn [rt_heap rt_default_ctx rt_server_ctx].
      rewrite Hd. simpl. split; [exact Hown|]. split; [lia|]. split; [reflexivity|exact Hs].
    + erewrite bind_run in Hrun by (apply render_busy; rewrite Hq; discriminate).
      injection Hrun as <- <-.
      unfold server_inv. cbn [rt_heap rt_default_ctx rt_server_ctx]. rewrite Hq. auto.
  - destruct (default_iteration_outcome priv rt Hinv) as (priv1 & rt1 & Hrun1 & _ & _ & Hinv1).
    rewrite Hrun1 in Hrun. injection Hrun as <- <-. exact Hinv1.
Qed.

End dispatch_outcomes.

(* ===================================================================== *)
(** ** Stopping a server that has sessions *)
(* ===================================================================== *)

Lemma epoll_releases_app (l1 l2 : list Event) :
  epoll_releases (l1 ++ l2) = epoll_releases l1 ++ epoll_releases l2.
Proof.
  induction l1 as [|e l1 IH]; [reflexivity|].
  destruct e as [c r| | | | | | | | |]; try exact IH.
  destruct c; simpl; rewrite ?IH; reflexivity.
Qed.

(** The client-removed signals of a list of sessions. *)
Lemma removed_signals_observed (f : loc -> SRTSOCKET * GInetAddress) (l : list loc) :
  let evs := (λ p, ESignal SIG_CLIENT_REMOVED (f p).1 (f p).2) <$> l in
  signals SIG_CLIENT_REMOVED evs = f <$> l
  ∧ closes evs = [] ∧ epoll_releases evs = [] ∧ sends evs = [] ∧ calls evs = [].
Proof.
  induction l as [|p l (IH1 & IH2 & IH3 & IH4 & IH5)]; [repeat split|].
  cbn [fmap list_fmap signals closes epoll_releases sends calls].
  repeat split; try assumption.
  cbn zeta in IH1. rewrite IH1. now destruct (f p).
Qed.

Section stop_with_sessions.
Context {E : Env}.

(** [g_list_foreach (priv->clients, srt_emit_client_removed)]. *)
Lemma foreach_emit_client_removed (l : list loc) : ∀ (rt : Runtime),
  (∀ p, p ∈ l -> is_Some (rt_heap rt !! p)) ->
  gstsrtserversink.g_list_foreach l gstsrtserversink.srt_emit_client_removed rt =
    Some (tt,
          mkRuntime (rt_world rt) (rt_heap rt) (rt_default_ctx rt) (rt_server_ctx rt)
            (rt_trace rt ++
               ((λ p, ESignal SIG_CLIENT_REMOVED (peer_of (rt_heap rt) p).1
                        (peer_of (rt_heap rt) p).2) <$> l))).
Proof.
  induction l as [|p l IH]; intros rt Hlive.
  - destruct rt. simpl. rewrite app_nil_r. reflexivity.
  - destruct (Hlive p) as [c Hc]; [apply list_elem_of_here|].
    cbn [gstsrtserversink.g_list_foreach].
    erewrite bind_run.
    2:{ unfold gstsrtserversink.srt_emit_client_removed.
        bind_step ltac:(unfold heap_load; rewrite Hc; reflexivity).
        reflexivity. }
    rewrite IH by (intros q Hq; apply Hlive; now apply list_elem_of_further).
    cbn [rt_world rt_heap rt_default_ctx rt_server_ctx rt_trace fmap list_fmap].
    rewrite (peer_of_lookup _ p c Hc). rewrite <- app_assoc. reflexivity.
Qed.

(** [g_list_free_full (priv->clients, gst_srt_client_unref)] over sessions
    the registry owns: every socket is closed once, in registry order, and
    every session is freed. *)
Lemma foreach_unref_owned (l : list loc) : ∀ (rt : Runtime),
  NoDup l ->
  (∀ p, p ∈ l -> ∃ c, rt_heap rt !! p = Some c ∧ ref_count c = 1) ->
  ∃ rt' evs,
    gstsrtserversink.g_list_foreach l (fun c => gst_srt_client_unref (Some c)) rt =
      Some (tt, rt')
    ∧ rt_trace rt' = rt_trace rt ++ evs
    ∧ closes evs = (λ p, gstsrt_h.sock (client_at (rt_heap rt) p)) <$> l
    ∧ signals SIG_CLIENT_REMOVED evs = []
    ∧ epoll_releases evs = []
    ∧ sends evs = []
    ∧ rt_default_ctx rt' = rt_default_ctx rt
    ∧ rt_server_ctx rt' = rt_server_ctx rt
    ∧ (∀ q, q ∈ l -> rt_heap rt' !! q = None)
    ∧ (∀ q, q ∉ l -> rt_heap rt' !! q = rt_heap rt !! q)
    ∧ calls evs = (λ p, srt_close (gstsrt_h.sock (client_at (rt_heap rt) p))) <$> l.
Proof.
  induction l as [|p l IH]; intros rt Hnd Hown.
  - exists rt, []. simpl. rewrite app_nil_r. repeat split; auto.
    intros q Hq. inversion Hq.
  - destruct (Hown p) as (c & Hc & Hone); [apply list_elem_of_here|].
    apply NoDup_cons in Hnd as [Hp Hnd].
    cbn [gstsrtserversink.g_list_foreach].
    bind_step ltac:(apply (gst_srt_client_unref_last _ p c); [exact Hc|exact Hone]).
    destruct (oracle (rt_world rt) (srt_close (gstsrt_h.sock c))) as [rc wc] eqn:Hoc.
    cbn [fst snd].
    match goal with
    | |- context [gstsrtserversink.g_list_foreach l _ ?r1] => set (rt1 := r1)
    end.
    assert (Hheap : ∀ q, q ≠ p -> rt_heap rt1 !! q = rt_heap rt !! q).
    { intros q Hq. subst rt1. cbn [rt_heap]. now apply lookup_delete_ne. }
    destruct (IH rt1 Hnd)
      as (rt' & evs & Hrun & Ht & Hcl & Hsig & Hrel & Hsend & Hd & Hs & Hfree & Hkeep
          & Hcalls).
    { intros q Hq. rewrite Hheap by (intros ->; contradiction).
      apply Hown. now apply list_elem_of_further. }
    exists rt', (ECall (srt_close (gstsrt_h.sock c)) rc :: evs).
    split; [exact Hrun|].
    split; [rewrite Ht; subst rt1; cbn [rt_trace]; trace_norm; reflexivity|].
    cbn [closes signals epoll_releases sends fmap list_fmap].
    split.
    { rewrite Hcl. f_equal.
      - unfold client_at. rewrite Hc. reflexivity.
      - apply list_fmap_ext. intros i q Hq. unfold client_at.
        rewrite Hheap; [reflexivity|].
        intros ->. apply Hp. eapply list_elem_of_lookup_2; eauto. }
    split; [exact Hsig|]. split; [exact Hrel|]. split; [exact Hsend|].
    split; [rewrite Hd; reflexivity|]. split; [rewrite Hs; reflexivity|].
    split.
    { intros q Hq. apply elem_of_cons in Hq as [->|Hq]; [|now apply Hfree].
      rewrite Hkeep by exact Hp. subst rt1. cbn [rt_heap]. apply lookup_delete_eq. }
    split.
    { intros q Hq. apply not_elem_of_cons in Hq as [Hqp Hq].
      rewrite Hkeep by exact Hq. now apply Hheap. }
    cbn [calls]. rewrite Hcalls. f_equal.
    + unfold client_at. rewrite Hc. reflexivity.
    + apply list_fmap_ext. intros i q Hq. unfold client_at.
      rewrite Hheap; [reflexivity|].
      intros ->. apply Hp. eapply list_elem_of_lookup_2; eauto.
Qed.

(** One [stop] of a server whose registry owns its sessions. *)
Lemma server_stop_outcome (priv : gstsrtserversink.GstSRTServerSinkPrivate) (rt : Runtime) :
  registry_owned rt (gstsrtserversink.clients priv) ->
  ∃ priv' rt' evs,
    gstsrtserversink.gst_srt_server_sink_stop priv rt = Some ((TRUE, priv'), rt')
    ∧ rt_trace rt' = rt_trace rt ++ evs
    ∧ signals SIG_CLIENT_REMOVED evs = peer_of (rt_heap rt) <$> gstsrtserversink.clients priv
    ∧ closes evs =
        ((λ p, gstsrt_h.sock (client_at (rt_heap rt) p)) <$> gstsrtserversink.clients priv)
        ++ [gstsrtserversink.sock priv]
    ∧ epoll_releases evs = [gstsrtserversink.srt_poll_id priv]
    ∧ sends evs = []
    ∧ gstsrtserversink.clients priv' = gstsrtserversink.clients priv
    ∧ (∀ q, q ∈ gstsrtserversink.clients priv -> rt_heap rt' !! q = None)
    ∧ (∀ q, q ∉ gstsrtserversink.clients priv -> rt_heap rt' !! q = rt_heap rt !! q)
    ∧ calls evs =
        ((λ p, srt_close (gstsrt_h.sock (client_at (rt_heap rt) p)))
           <$> gstsrtserversink.clients priv)
        ++ [srt_epoll_remove_usock (gstsrtserversink.srt_poll_id priv)
              (gstsrtserversink.sock priv);
            srt_epoll_release (gstsrtserversink.srt_poll_id priv);
            srt_close (gstsrtserversink.sock priv)]
        ++ (if gstsrtserversink.loop priv then [g_main_loop_quit; g_thread_join] else [])
    ∧ rt_server_ctx rt' =
        (if gstsrtserversink.server_source priv
         then g_list_remove (rt_server_ctx rt) cb_idle_listen_callback
         else rt_server_ctx rt)
    ∧ rt_default_ctx rt' = rt_default_ctx rt
    ∧ priv' =
        gstsrtserversink.mkPriv (gstsrtserversink.sock priv)
          (gstsrtserversink.srt_poll_id priv) (gstsrtserversink.poll_timeout priv)
          (gstsrtserversink.uri priv) false false false
          (gstsrtserversink.thread priv && negb (gstsrtserversink.loop priv))
          (gstsrtserversink.clients priv) (gstsrtserversink.queued_buffers priv).
Proof.
  intros [Hnd Hown].
  destruct priv as [s eid tmo u l c src th cl q].
  cbn [gstsrtserversink.clients gstsrtserversink.sock gstsrtserversink.srt_poll_id] in *.
  unfold gstsrtserversink.gst_srt_server_sink_stop.
  cbn [gstsrtserversink.clients gstsrtserversink.sock gstsrtserversink.srt_poll_id
       gstsrtserversink.loop gstsrtserversink.server_source gstsrtserversink.poll_timeout
       gstsrtserversink.uri gstsrtserversink.thread gstsrtserversink.queued_buffers].
  bind_step ltac:(reflexivity).
  bind_step ltac:(apply foreach_emit_client_removed; intros p Hp;
                  destruct (Hown p Hp) as (c0 & Hc0 & _); exists c0; exact Hc0).
  match goal with
  | |- context [mbind _ (gstsrtserversink.g_list_foreach cl _) ?r2] => set (rt2 := r2)
  end.
  destruct (foreach_unref_owned cl rt2 Hnd Hown)
    as (rt3 & evs3 & Hrun3 & Ht3 & Hcl3 & Hsig3 & Hrel3 & Hsend3 & Hd3 & Hs3 & Hfree3 & Hkeep3
        & Hcalls3).
  bind_step ltac:(exact Hrun3).
  destruct (removed_signals_observed (peer_of (rt_heap rt)) cl)
    as (Hsg & Hsc & Hsr & Hss & Hsk).
  cbn zeta in Hsg, Hsc, Hsr, Hss, Hsk.
  subst rt2. cbn [rt_trace rt_heap] in *.
  unfold gstsrtserversink.g_source_destroy, get_sources, set_sources.
  destruct l, src, th; mstep; eexists _, _, _; (split; [reflexivity|]);
    cbn [rt_trace rt_heap rt_server_ctx rt_default_ctx]; rewrite Ht3, Hs3, Hd3;
    (split; [rewrite <- !app_assoc; cbn [app]; reflexivity|]);
    cbn [signals closes epoll_releases sends calls];
    rewrite ?signals_app, ?closes_app, ?epoll_releases_app, ?sends_app, ?calls_app,
      ?Hsg, ?Hsc, ?Hsr, ?Hss, ?Hsk, ?Hcl3, ?Hsig3, ?Hrel3, ?Hsend3, ?Hcalls3;
    cbn [signals closes epoll_releases sends calls app]; rewrite ?app_nil_r;
    repeat split; auto.
Qed.

End stop_with_sessions.

(* ===================================================================== *)
(** ** The accept loop *)
(* ===================================================================== *)

Section accept_loop.
Context {E : Env}.

(** X9.  The accept loop only ever appends.  When [n] iterations of the server
    thread's loop return, the registry is the old one followed by at most
    [n] new sessions, one client-added signal was emitted for each of them,
    in order, and nothing else happened to the sessions: no client-removed
    signal, no close, no send, the old sessions untouched, the queue as it
    was; and the registry still owns each of its sessions with one
    reference. *)
Theorem accept_loop_only_appends (n : nat)
    (priv priv' : gstsrtserversink.GstSRTServerSinkPrivate) (rt rt' : Runtime) :
  registry_owned rt (gstsrtserversink.clients priv) ->
  rt_server_ctx rt = [] ∨ rt_server_ctx rt = [cb_idle_listen_callback] ->
  gstsrtserversink.thread_func n priv rt = Some (priv', rt') ->
  ∃ new,
    gstsrtserversink.clients priv' = gstsrtserversink.clients priv ++ new
    ∧ (length new <= n)%nat
    ∧ signals SIG_CLIENT_ADDED (new_events rt rt') = peer_of (rt_heap rt') <$> new
    ∧ signals SIG_CLIENT_REMOVED (new_events rt rt') = []
    ∧ closes (new_events rt rt') = []
    ∧ sends (new_events rt rt') = []
    ∧ gstsrtserversink.queued_buffers priv' = gstsrtserversink.queued_buffers priv
    ∧ (∀ q, q ∈ gstsrtserversink.clients priv -> rt_heap rt' !! q = rt_heap rt !! q)
    ∧ registry_owned rt' (gstsrtserversink.clients priv').
Proof.
  intros Hown Hctx Hrun.
  destruct (thread_func_outcome n priv rt Hown Hctx)
    as [Hfault|(priv1 & rt1 & new & evs & Hrun1 & Ht & Hcl & Hq & Hlen & Hadd & Hrem
                & Hclose & Hsend & _ & _ & Hkeep & Hown1)]; [congruence|].
  rewrite Hrun1 in Hrun. injection Hrun as <- <-.
  rewrite (new_events_app rt rt1 evs Ht).
  exists new. repeat split; auto; apply Hown1.
Qed.

(** X10.  A failed readiness wait.  The iteration returns with the element's
    data as it was; the library was asked for the wait, the last error and
    to clear it, and not for a connection.  After a timeout the accept unit
    stays armed and nothing is logged at debug level; after any other
    error one debug line is logged and the unit is taken out of the server
    thread's context. *)
Theorem accept_wait_failure (priv : gstsrtserversink.GstSRTServerSinkPrivate) (rt : Runtime) :
  let wait := oracle (rt_world rt)
                (srt_epoll_wait_read (gstsrtserversink.srt_poll_id priv)
                   (gstsrtserversink.poll_timeout priv)) in
  let err := oracle wait.2 srt_getlasterror in
  ret wait.1 = -1 ->
  rt_server_ctx rt = [cb_idle_listen_callback] ->
  ∃ rt',
    gstsrtserversink.g_main_context_iteration CtxServer priv rt = Some (priv, rt')
    ∧ calls (new_events rt rt') =
        [srt_epoll_wait_read (gstsrtserversink.srt_poll_id priv)
           (gstsrtserversink.poll_timeout priv);
         srt_getlasterror; srt_clearlasterror]
    ∧ rt_heap rt' = rt_heap rt
    ∧ (ret err.1 = SRT_ETIMEOUT ->
       rt_server_ctx rt' = [cb_idle_listen_callback]
       ∧ logged LDebug (new_events rt rt') = O)
    ∧ (ret err.1 ≠ SRT_ETIMEOUT ->
       rt_server_ctx rt' = []
       ∧ logged LDebug (new_events rt rt') = 1%nat).
Proof.
  intros wait err Hw Hctx.
  unfold gstsrtserversink.g_main_context_iteration.
  erewrite bind_run by reflexivity. cbv beta. rewrite Hctx.
  cbn [gstsrtserversink.dispatch_all]. rewrite bind_ret_r.
  unfold gstsrtserversink.dispatch, gstsrtserversink.idle_listen_callback.
  destruct (Z.eqb_spec (ret err.1) SRT_ETIMEOUT) as [He|He].
  - erewrite bind_run.
    2:{ bind_step ltac:(apply call_run). fold wait. rewrite Hw. cbn [Z.eqb Pos.eqb].
        bind_step ltac:(apply call_run). fold wait err. rewrite He.
        cbn [negb Z.eqb Pos.eqb SRT_ETIMEOUT].
        bind_step ltac:(reflexivity).
        bind_step ltac:(apply call_run).
        reflexivity. }
    cbv beta iota delta [TRUE].
    eexists. split; [reflexivity|].
    between.
    split; [reflexivity|]. split; [reflexivity|].
    split; [intros _; split; [exact Hctx|reflexivity]|].
    intros Hne. contradiction.
  - erewrite bind_run.
    2:{ bind_step ltac:(apply call_run). fold wait. rewrite Hw. cbn [Z.eqb Pos.eqb].
        bind_step ltac:(apply call_run). fold wait err.
        destruct (Z.eqb_spec (ret err.1) SRT_ETIMEOUT) as [|_]; [contradiction|].
        cbn [negb].
        bind_step ltac:(erewrite bind_run by reflexivity; reflexivity).
        bind_step ltac:(apply call_run).
        reflexivity. }
    cbv beta iota delta [FALSE].
    unfold gstsrtserversink.g_source_destroy.
    erewrite bind_run by (erewrite bind_run by reflexivity;
                          erewrite bind_run by reflexivity; reflexivity).
    eexists. split; [reflexivity|].
    between.
    cbn [rt_heap rt_server_ctx]. rewrite Hctx.
    split; [reflexivity|]. split; [reflexivity|].
    split; [intros Heq; contradiction|].
    intros _. split; reflexivity.
Qed.

(** X11.  A peer outside the internet families.  When the wait and the accept
    succeed but [sa_family] is neither IPv4 nor IPv6, no address object is
    made, the session constructor refuses to make a session, and the
    callback reads the socket of the NULL session: the run does not
    return. *)
Theorem accept_unknown_family_faults (priv : gstsrtserversink.GstSRTServerSinkPrivate)
    (rt : Runtime) :
  let wait := oracle (rt_world rt)
                (srt_epoll_wait_read (gstsrtserversink.srt_poll_id priv)
                   (gstsrtserversink.poll_timeout priv)) in
  let accept := oracle wait.2 (srt_accept (gstsrtserversink.sock priv)) in
  ret wait.1 ≠ -1 ->
  ret accept.1 ≠ SRT_INVALID_SOCK ->
  out_family accept.1 ≠ G_SOCKET_FAMILY_IPV4 ->
  out_family accept.1 ≠ G_SOCKET_FAMILY_IPV6 ->
  gstsrtserversink.idle_listen_callback priv rt = None
  ∧ ∀ n, rt_server_ctx rt = [cb_idle_listen_callback] ->
         gstsrtserversink.thread_func (S n) priv rt = None.
Proof.
  intros wait accept Hw Ha H4 H6.
  assert (Hcb : gstsrtserversink.idle_listen_callback priv rt = None).
  { unfold gstsrtserversink.idle_listen_callback.
    bind_step ltac:(apply call_run). fold wait.
    destruct (Z.eqb_spec (ret wait.1) (-1)) as [|_]; [contradiction|].
    bind_step ltac:(apply call_run). fold wait accept.
    destruct (Z.eqb_spec (ret accept.1) SRT_INVALID_SOCK) as [|_]; [contradiction|].
    assert (Haddr : g_inet_address_new_from_bytes (out_bytes accept.1) (out_family accept.1)
                    = None).
    { unfold g_inet_address_new_from_bytes.
      destruct (out_family accept.1); try reflexivity; contradiction. }
    rewrite Haddr. erewrite bind_run by reflexivity. reflexivity. }
  split; [exact Hcb|].
  intros n Hctx. cbn [gstsrtserversink.thread_func].
  apply bind_fault. unfold gstsrtserversink.g_main_context_iteration.
  erewrite bind_run by reflexivity. cbv beta. rewrite Hctx.
  cbn [gstsrtserversink.dispatch_all].
  apply bind_fault. unfold gstsrtserversink.dispatch. now apply bind_fault.
Qed.

(** X12.  A successful accept, as the server thread's loop runs it.  The
    iteration returns with one fresh session appended to the registry; the
    session holds the accepted socket and the peer's address with
    reference count 1; one client-added signal carries that socket and
    address; the accept unit stays armed. *)
Theorem accept_success_registers (priv : gstsrtserversink.GstSRTServerSinkPrivate)
    (rt : Runtime) (a : GInetAddress) :
  let wait := oracle (rt_world rt)
                (srt_epoll_wait_read (gstsrtserversink.srt_poll_id priv)
                   (gstsrtserversink.poll_timeout priv)) in
  let accept := oracle wait.2 (srt_accept (gstsrtserversink.sock priv)) in
  ret wait.1 ≠ -1 ->
  ret accept.1 ≠ SRT_INVALID_SOCK ->
  g_inet_address_new_from_bytes (out_bytes accept.1) (out_family accept.1) = Some a ->
  registry_owned rt (gstsrtserversink.clients priv) ->
  rt_server_ctx rt = [cb_idle_listen_callback] ->
  ∃ p priv' rt',
    gstsrtserversink.g_main_context_iteration CtxServer priv rt = Some (priv', rt')
    ∧ priv' = gstsrtserversink.set_clients priv (gstsrtserversink.clients priv ++ [p])
    ∧ rt_heap rt !! p = None
    ∧ rt_heap rt' = <[p := mkGstSRTClient (ret accept.1) a 1]> (rt_heap rt)
    ∧ signals SIG_CLIENT_ADDED (new_events rt rt') = [(ret accept.1, a)]
    ∧ rt_server_ctx rt' = [cb_idle_listen_callback]
    ∧ registry_owned rt' (gstsrtserversink.clients priv').
Proof.
  intros wait accept Hw Ha Haddr Hown Hctx.
  destruct (accept_registers_session priv rt a Hw Ha Haddr (registry_owned_ok _ _ Hown))
    as (p & rt' & Hrun & Hfresh & Hheap & Hsig & _).
  assert (Hs : rt_server_ctx rt' = rt_server_ctx rt
               ∧ registry_owned rt' (gstsrtserversink.clients priv ++ [p])).
  { destruct (idle_listen_callback_outcome priv rt Hown)
      as [Hf|(res & priv1 & rt1 & new & evs & Hrun1 & _ & _ & _ & _ & _ & _ & _ & _ & _ & _
              & Hs1 & _ & Hown1)]; [congruence|].
    rewrite Hrun in Hrun1. injection Hrun1 as _ <- <-. split; [exact Hs1|exact Hown1]. }
  destruct Hs as [Hs Hown'].
  unfold gstsrtserversink.g_main_context_iteration.
  erewrite bind_run by reflexivity. cbv beta. rewrite Hctx.
  cbn [gstsrtserversink.dispatch_all]. rewrite bind_ret_r.
  unfold gstsrtserversink.dispatch.
  erewrite bind_run by exact Hrun. cbv beta iota delta [TRUE].
  exists p. eexists _, rt'. split; [reflexivity|].
  split; [reflexivity|]. split; [exact Hfresh|]. split; [exact Hheap|].
  split; [exact Hsig|]. split; [congruence|exact Hown'].
Qed.

End accept_loop.

(* ===================================================================== *)
(** ** The running server: submissions, dispatches, accepts *)
(* ===================================================================== *)

Section running_server.
Context {E : Env}.

(** A submission or an iteration of the default main context returns on
    every server in its invariant, with no session added. *)
Lemma run_op_returns (op : ServerOp) (priv : gstsrtserversink.GstSRTServerSinkPrivate)
    (rt : Runtime) :
  server_inv rt priv ->
  op ≠ OpServerLoop ->
  ∃ priv' rt',
    run_op op priv rt = Some (priv', rt')
    ∧ (∀ q, q ∈ gstsrtserversink.clients priv' -> q ∈ gstsrtserversink.clients priv).
Proof.
  intros Hinv Hop. destruct op as [|b|]; [congruence| |]; cbn [run_op].
  - destruct (gstsrtserversink.queued_buffers priv) as [|b0 q] eqn:Hq.
    + erewrite bind_run by (apply render_idle; exact Hq).
      eexists _, _. split; [reflexivity|]. auto.
    + erewrite bind_run by (apply render_busy; rewrite Hq; discriminate).
      eexists _, _. split; [reflexivity|]. auto.
  - destruct (default_iteration_outcome priv rt Hinv) as (priv1 & rt1 & Hrun1 & _ & Hsub & _).
    eauto.
Qed.


(** X14.  The producer and the dispatcher never fail.  On a server in its
    invariant, any sequence of submissions and iterations of the default
    main context returns; it adds no session to the registry, and the
    invariant holds afterwards. *)
Theorem submit_and_dispatch_always_return (ops : list ServerOp) :
  ∀ (priv : gstsrtserversink.GstSRTServerSinkPrivate) (rt : Runtime),
    server_inv rt priv ->
    OpServerLoop ∉ ops ->
    ∃ priv' rt',
      run_ops ops priv rt = Some (priv', rt')
      ∧ (∀ q, q ∈ gstsrtserversink.clients priv' -> q ∈ gstsrtserversink.clients priv)
      ∧ server_inv rt' priv'.
Proof.
  induction ops as [|op ops IH]; intros priv rt Hinv Hops.
  - exists priv, rt. split; [reflexivity|]. auto.
  - apply not_elem_of_cons in Hops as [Hop Hops].
    destruct (run_op_returns op priv rt Hinv) as (priv1 & rt1 & Hrun1 & Hsub1); [congruence|].
    destruct (IH priv1 rt1) as (priv2 & rt2 & Hrun2 & Hsub2 & Hinv2);
      [eapply run_op_keeps_inv; eauto|exact Hops|].
    exists priv2, rt2. cbn [run_ops].
    erewrite bind_run by exact Hrun1.
    split; [exact Hrun2|]. split; [auto|exact Hinv2].
Qed.


(** X16.  A buffer that cannot be mapped is dropped.  The dispatcher posts one
    element error, sends nothing, evicts nobody and closes nothing, and
    still empties the queue and tells GLib not to call it again. *)
Theorem dispatch_unmappable_buffer (priv : gstsrtserversink.GstSRTServerSinkPrivate)
    (rt : Runtime) (b : GstBuffer) :
  gstsrtserversink.queued_buffers priv = [b] ->
  ret (oracle (rt_world rt) (gst_buffer_map b)).1 = 0 ->
  ∃ priv' rt',
    gstsrtserversink.srt_send_buffer priv rt = Some ((FALSE, priv'), rt')
    ∧ element_errors (new_events rt rt') = 1%nat
    ∧ sends (new_events rt rt') = []
    ∧ signals SIG_CLIENT_REMOVED (new_events rt rt') = []
    ∧ closes (new_events rt rt') = []
    ∧ gstsrtserversink.clients priv' = gstsrtserversink.clients priv
    ∧ gstsrtserversink.queued_buffers priv' = []
    ∧ rt_heap rt' = rt_heap rt.
Proof.
  intros Hq Hmap.
  rewrite (srt_send_buffer_unmapped priv rt b Hq Hmap).
  eexists _, _. split; [reflexivity|].
  between. repeat split; reflexivity.
Qed.

(** X17.  Submit, then dispatch.  On a server in its invariant with an empty
    queue, submitting a mappable buffer and running one iteration of the
    default main context returns, and in between every registered session
    was sent the buffer's bytes, in registry order; afterwards the queue is
    empty, no dispatch is outstanding, and the invariant holds. *)
Theorem submit_then_dispatch_delivers (priv : gstsrtserversink.GstSRTServerSinkPrivate)
    (rt : Runtime) (b : GstBuffer) :
  server_inv rt priv ->
  gstsrtserversink.queued_buffers priv = [] ->
  ret (oracle (rt_world rt) (gst_buffer_map b)).1 ≠ 0 ->
  ∃ priv' rt',
    run_ops [OpSubmit b; OpDefaultLoop] priv rt = Some (priv', rt')
    ∧ sends (new_events rt rt') =
        (λ p, (gstsrt_h.sock (client_at (rt_heap rt) p), buf_data b))
          <$> gstsrtserversink.clients priv
    ∧ gstsrtserversink.clients priv' =
        survivors (gstsrtserversink.clients priv) (send_results (new_events rt rt'))
    ∧ gstsrtserversink.queued_buffers priv' = []
    ∧ rt_default_ctx rt' = []
    ∧ server_inv rt' priv'.
Proof.
  intros (Hown & Hlen & Hd & Hs) Hq Hmap.
  rewrite Hq in Hd. cbn [length replicate] in Hd.
  cbn [run_ops run_op].
  erewrite bind_run by (erewrite bind_run by (apply render_idle; exact Hq); reflexivity).
  rewrite bind_ret_r.
  set (priv1 := gstsrtserversink.set_queued_buffers priv [b]).
  match goal with
  | |- context [gstsrtserversink.g_main_context_iteration CtxDefault priv1 ?r] =>
      set (rt1 := r)
  end.
  destruct (srt_send_buffer_mapped priv1 rt1 b eq_refl Hown Hmap)
    as (priv' & rt' & evs & Hrun & Ht & Hq' & Hcl & Hsend & _ & _ & _ & _ & _ & Hd' & Hs'
        & Hkeep & _).
  unfold gstsrtserversink.g_main_context_iteration.
  erewrite bind_run by reflexivity. cbv beta.
  replace (rt_default_ctx rt1) with [cb_srt_send_buffer]
    by (subst rt1; cbn [rt_default_ctx]; rewrite Hd; reflexivity).
  cbn [gstsrtserversink.dispatch_all]. rewrite bind_ret_r.
  unfold gstsrtserversink.dispatch.
  erewrite bind_run by exact Hrun. cbv beta iota delta [FALSE].
  unfold gstsrtserversink.g_source_destroy.
  erewrite bind_run by (erewrite bind_run by reflexivity;
                        erewrite bind_run by reflexivity; reflexivity).
  eexists priv', _. split; [reflexivity|].
  assert (Hd1 : rt_default_ctx rt' = [cb_srt_send_buffer])
    by (rewrite Hd'; subst rt1; cbn [rt_default_ctx]; rewrite Hd; reflexivity).
  unfold new_events. cbn [rt_trace rt_heap rt_default_ctx rt_server_ctx].
  rewrite Ht, Hd1. subst rt1. cbn [rt_trace rt_heap rt_server_ctx] in *.
  rewrite <- !app_assoc, drop_app_length. cbn [app sends send_results].
  rewrite sends_app, send_results_app. cbn [sends send_results]. rewrite !app_nil_r.
  split; [exact Hsend|]. split; [exact Hcl|]. split; [exact Hq'|].
  split; [reflexivity|].
  unfold server_inv. cbn [rt_heap rt_default_ctx rt_server_ctx].
  rewrite Hq', Hs', Hcl. cbn [length replicate].
  split; [eapply registry_owned_survivors; eauto|].
  split; [lia|]. split; [reflexivity|exact Hs].
Qed.

(** X18.  Stopping a server that has sessions.  The first [stop] of a server
    whose registry owns its sessions returns TRUE; it signals
    client-removed once for every session, in registry order; it closes
    every session's socket once, in registry order, and then the listening
    socket; it releases the poll id once; every session is freed.  The
    registry field itself is left as it was: it keeps naming the freed
    sessions. *)
Theorem stop_releases_sessions (priv : gstsrtserversink.GstSRTServerSinkPrivate)
    (rt : Runtime) :
  registry_owned rt (gstsrtserversink.clients priv) ->
  ∃ priv' rt',
    gstsrtserversink.gst_srt_server_sink_stop priv rt = Some ((TRUE, priv'), rt')
    ∧ signals SIG_CLIENT_REMOVED (new_events rt rt') =
        peer_of (rt_heap rt) <$> gstsrtserversink.clients priv
    ∧ closes (new_events rt rt') =
        ((λ p, gstsrt_h.sock (client_at (rt_heap rt) p)) <$> gstsrtserversink.clients priv)
        ++ [gstsrtserversink.sock priv]
    ∧ epoll_releases (new_events rt rt') = [gstsrtserversink.srt_poll_id priv]
    ∧ sends (new_events rt rt') = []
    ∧ (∀ q, q ∈ gstsrtserversink.clients priv -> rt_heap rt' !! q = None)
    ∧ gstsrtserversink.clients priv' = gstsrtserversink.clients priv.
Proof.
  intros Hown.
  destruct (server_stop_outcome priv rt Hown)
    as (priv' & rt' & evs & Hrun & Ht & Hsig & Hcl & Hrel & Hsend & Hreg & Hfree & _).
  exists priv', rt'. rewrite (new_events_app rt rt' evs Ht).
  repeat split; assumption.
Qed.

End running_server.

(* ===================================================================== *)
(** ** Object properties *)
(* ===================================================================== *)

Section properties.
Context {E : Env}.

(** Whatever the accept callback goes on to do, its first library call is
    the readiness wait on the element's poll id with the element's poll
    timeout. *)
Lemma idle_listen_callback_first_call (priv : gstsrtserversink.GstSRTServerSinkPrivate)
    (rt : Runtime) :
  let wait := srt_epoll_wait_read (gstsrtserversink.srt_poll_id priv)
                (gstsrtserversink.poll_timeout priv) in
  gstsrtserversink.idle_listen_callback priv rt = None
  ∨ ∃ res priv' rt' evs,
      gstsrtserversink.idle_listen_callback priv rt = Some ((res, priv'), rt')
      ∧ rt_trace rt' = rt_trace rt ++ ECall wait (oracle (rt_world rt) wait).1 :: evs.
Proof.
  intros wait.
  unfold gstsrtserversink.idle_listen_callback.
  bind_step ltac:(apply call_run). fold wait.
  destruct (Z.eqb (ret (oracle (rt_world rt) wait).1) (-1)).
  { right. bind_step ltac:(apply call_run).
    destruct (Z.eqb (ret (oracle (oracle (rt_world rt) wait).2 srt_getlasterror).1)
                SRT_ETIMEOUT); cbn [negb].
    - bind_step ltac:(reflexivity).
      bind_step ltac:(apply call_run).
      eexists _, _, _, _. split; reflexivity.
    - bind_step ltac:(erewrite bind_run by reflexivity; reflexivity).
      bind_step ltac:(apply call_run).
      eexists _, _, _, _. split; reflexivity. }
  bind_step ltac:(apply call_run).
  set (accept := oracle (oracle (rt_world rt) wait).2 (srt_accept (gstsrtserversink.sock priv))).
  destruct (Z.eqb_spec (ret accept.1) SRT_INVALID_SOCK) as [Ha|Ha].
  { right. bind_step ltac:(reflexivity).
    bind_step ltac:(apply call_run).
    eexists _, _, _, _. split; reflexivity. }
  destruct (g_inet_address_new_from_bytes (out_bytes accept.1) (out_family accept.1))
    as [a|] eqn:Haddr.
  2:{ left. erewrite bind_run by reflexivity. reflexivity. }
  right.
  match goal with |- context [mbind _ (gst_srt_client_new _ _) ?r] => set (rt1 := r) end.
  destruct (gst_srt_client_new_ok rt1 (ret accept.1) a Ha)
    as (p & rt2 & Hnew & Hfresh & Hh2 & Hw2 & Ht2).
  bind_step ltac:(exact Hnew).
  unfold g_list_append.
  bind_step ltac:(unfold heap_load; rewrite Hh2, lookup_insert_eq; reflexivity).
  bind_step ltac:(reflexivity).
  bind_step ltac:(reflexivity).
  eexists _, _, _, _. split; [reflexivity|].
  cbn [rt_trace]. rewrite Ht2. subst rt1. cbn [rt_trace]. trace_norm. reflexivity.
Qed.

(** X19.  The poll-timeout property.  Setting it stores the value and changes
    no other field; reading it back yields the value; and the next run of
    the accept callback, if it returns, began by waiting on the element's
    poll id with that value as its timeout.  Neither accessor calls the
    library or logs. *)
Theorem poll_timeout_property_reaches_wait
    (priv : gstsrtserversink.GstSRTServerSinkPrivate) (v : Z) (value : GValue)
    (rt : Runtime) :
  let priv' := gstsrtserversink_object.set_poll_timeout priv v in
  gstsrtserversink_object.gst_srt_server_sink_set_property priv
    gstsrtserversink_object.PROP_POLL_TIMEOUT (GInt v) rt = Some (priv', rt)
  ∧ gstsrtserversink_object.gst_srt_server_sink_get_property priv'
      gstsrtserversink_object.PROP_POLL_TIMEOUT value rt = Some (GInt v, rt)
  ∧ gstsrtserversink.clients priv' = gstsrtserversink.clients priv
  ∧ gstsrtserversink.uri priv' = gstsrtserversink.uri priv
  ∧ gstsrtserversink.queued_buffers priv' = gstsrtserversink.queued_buffers priv
  ∧ (gstsrtserversink.idle_listen_callback priv' rt = None
     ∨ ∃ res priv2 rt2 r evs,
         gstsrtserversink.idle_listen_callback priv' rt = Some ((res, priv2), rt2)
         ∧ new_events rt rt2 =
             ECall (srt_epoll_wait_read (gstsrtserversink.srt_poll_id priv) v) r :: evs).
Proof.
  intros priv'.
  split; [reflexivity|]. split; [reflexivity|].
  split; [reflexivity|]. split; [reflexivity|]. split; [reflexivity|].
  destruct (idle_listen_callback_first_call priv' rt)
    as [Hf|(res & priv2 & rt2 & evs & Hrun & Ht)]; [now left|].
  right. eexists res, priv2, rt2, _, evs. split; [exact Hrun|].
  exact (new_events_app rt rt2 _ Ht).
Qed.

(** X20.  The uri property refuses quietly.  Setting it to NULL, or to a string
    whose scheme is not "srt", leaves every field of the element as it was;
    the only trace is one log line at trace level: no error is reported to
    anybody. *)
Theorem uri_property_rejects_silently
    (priv : gstsrtserversink.GstSRTServerSinkPrivate) (value : GValue) (rt : Runtime) :
  (∀ s, g_value_get_string value = Some s ->
        gst_uri_get_scheme (gst_uri_from_string s) ≠ Some "srt") ->
  ∃ rt',
    gstsrtserversink_object.gst_srt_server_sink_set_property priv
      gstsrtserversink_object.PROP_URI value rt = Some (priv, rt')
    ∧ new_events rt rt' = [ELog LTrace]
    ∧ rt_heap rt' = rt_heap rt.
Proof.
  intros Hbad.
  unfold gstsrtserversink_object.gst_srt_server_sink_set_property.
  cbn [Z.eqb Pos.eqb gstsrtserversink_object.PROP_URI].
  destruct (g_value_get_string value) as [s|] eqn:Hv.
  - assert (Hcmp : g_strcmp0_eq (gst_uri_get_scheme (gst_uri_from_string s)) (Some "srt")
                   = false).
    { destruct (g_strcmp0_eq _ _) eqn:Hc; [|reflexivity].
      apply g_strcmp0_eq_true in Hc. destruct (Hbad s eq_refl Hc). }
    erewrite bind_run.
    2:{ unfold gstsrtserversink.gst_srt_server_sink_uri_set_uri,
          gstsrtserversink.SRT_URI_SCHEME.
        bind_step ltac:(reflexivity). rewrite Hcmp. cbn [negb]. reflexivity. }
    cbv beta iota.
    eexists. split; [reflexivity|]. split; [between; reflexivity|reflexivity].
  - bind_step ltac:(reflexivity).
    eexists. split; [reflexivity|]. split; [between; reflexivity|reflexivity].
Qed.

(** X21.  The uri property round trip.  Setting it to a string whose scheme is
    "srt" stores the parsed URI and changes no other field, and reading
    the property back yields the printed form of that parsed URI. *)
Theorem uri_property_round_trip
    (priv : gstsrtserversink.GstSRTServerSinkPrivate) (s : string) (value : GValue)
    (rt : Runtime) :
  gst_uri_get_scheme (gst_uri_from_string s) = Some "srt" ->
  ∃ rt1 rt2,
    gstsrtserversink_object.gst_srt_server_sink_set_property priv
      gstsrtserversink_object.PROP_URI (GString (Some s)) rt =
      Some (gstsrtserversink.set_uri priv (gst_uri_from_string s), rt1)
    ∧ gstsrtserversink_object.gst_srt_server_sink_get_property
        (gstsrtserversink.set_uri priv (gst_uri_from_string s))
        gstsrtserversink_object.PROP_URI value rt1 =
        Some (GString (gst_uri_to_string (gst_uri_from_string s)), rt2)
    ∧ new_events rt rt2 =
        [ELog LTrace; EObjectLock; EObjectUnlock; EObjectLock; EObjectUnlock].
Proof.
  intros Hscheme.
  assert (Hcmp : g_strcmp0_eq (gst_uri_get_scheme (gst_uri_from_string s)) (Some "srt") = true)
    by now apply g_strcmp0_eq_true.
  destruct (gst_uri_from_string s) as [u|] eqn:Hu; [|discriminate Hscheme].
  unfold gstsrtserversink_object.gst_srt_server_sink_set_property,
    gstsrtserversink_object.gst_srt_server_sink_get_property.
  cbn [Z.eqb Pos.eqb gstsrtserversink_object.PROP_URI g_value_get_string
       gstsrtserversink.uri gstsrtserversink.set_uri].
  unfold gstsrtserversink.gst_srt_server_sink_uri_set_uri,
    gstsrtserversink.gst_srt_server_sink_uri_get_uri, gstsrtserversink.SRT_URI_SCHEME.
  rewrite Hu, Hcmp. mstep.
  eexists _, _. split; [reflexivity|]. split; [reflexivity|].
  unfold new_events. simpl. trace_norm. apply drop_app_length.
Qed.

End properties.

(* ===================================================================== *)
(** ** The theorems above on concrete servers *)
(* ===================================================================== *)

Lemma three_sessions_owned {E : Env} (w : World) (d s : list GSourceFunc) (tr : list Event) :
  registry_owned (mkRuntime w three_sessions d s tr) [0; 1; 2]%nat.
Proof.
  split; [apply (bool_decide_unpack _); vm_compute; exact I|].
  intros p Hp. elim_in Hp; eexists; (split; [vm_compute; reflexivity|reflexivity]).
Qed.

Lemma server_idle_inv {E : Env} (w : World) : server_inv (waiting E w) server_idle.
Proof.
  split; [apply three_sessions_owned|].
  split; [simpl; lia|]. split; [reflexivity|]. right. reflexivity.
Qed.

Lemma accept_loop_only_appends_witness :
  let E := two_peers in
  let rt := listening E O in
  ∃ priv' rt',
    gstsrtserversink.thread_func 2 server_listening rt = Some (priv', rt')
    ∧ length (gstsrtserversink.clients priv') = 2%nat
    ∧ closes (new_events rt rt') = []
    ∧ registry_owned rt' (gstsrtserversink.clients priv').
Proof.
  intros E rt.
  destruct (gstsrtserversink.thread_func 2 server_listening rt) as [[priv' rt']|] eqn:Hrun;
    [|vm_compute in Hrun; discriminate].
  destruct (@accept_loop_only_appends E 2 server_listening priv' rt rt')
    as (new & Hcl & Hlen & Hadd & Hrem & Hclose & Hsend & Hq & Hkeep & Hown).
  - split; [constructor|]. intros p Hp. inversion Hp.
  - right. reflexivity.
  - exact Hrun.
  - exists priv', rt'. split; [reflexivity|].
    split; [vm_compute in Hrun; injection Hrun as <- _; reflexivity|].
    split; assumption.
Defined.

Lemma accept_wait_failure_witness :
  let E := env_of (wait_fails 1) in
  let rt := listening E tt in
  ∃ rt',
    gstsrtserversink.g_main_context_iteration CtxServer server_listening rt =
      Some (server_listening, rt')
    ∧ rt_server_ctx rt' = []
    ∧ logged LDebug (new_events rt rt') = 1%nat.
Proof.
  intros E rt.
  destruct (@accept_wait_failure E server_listening rt)
    as (rt' & Hrun & Hcalls & Hheap & Hto & Herr).
  - reflexivity.
  - reflexivity.
  - destruct Herr as [Hctx Hlog]; [vm_compute; discriminate|].
    exists rt'. split; [exact Hrun|]. split; assumption.
Defined.

Lemma accept_unknown_family_faults_witness :
  let E := env_of unix_peer in
  gstsrtserversink.idle_listen_callback server_listening (listening E tt) = None
  ∧ gstsrtserversink.thread_func 3 server_listening (listening E tt) = None.
Proof.
  intros E.
  destruct (@accept_unknown_family_faults E server_listening (listening E tt))
    as [Hcb Hloop]; try (vm_compute; discriminate).
  split; [exact Hcb|]. apply Hloop. reflexivity.
Defined.

Lemma accept_success_registers_witness :
  let E := env_of calm in
  let rt := waiting E tt in
  ∃ p priv' rt',
    gstsrtserversink.g_main_context_iteration CtxServer server_idle rt = Some (priv', rt')
    ∧ gstsrtserversink.clients priv' = [0; 1; 2; p]%nat
    ∧ signals SIG_CLIENT_ADDED (new_events rt rt') = [(11, peer 2)]
    ∧ rt_server_ctx rt' = [cb_idle_listen_callback].
Proof.
  intros E rt.
  destruct (@accept_success_registers E server_idle rt (peer 2))
    as (p & priv' & rt' & Hrun & Hpriv & Hfresh & Hheap & Hsig & Hctx & Hown).
  - vm_compute. discriminate.
  - vm_compute. discriminate.
  - reflexivity.
  - apply three_sessions_owned.
  - reflexivity.
  - exists p, priv', rt'. split; [exact Hrun|].
    split; [rewrite Hpriv; reflexivity|]. split; assumption.
Defined.


Lemma submit_and_dispatch_always_return_witness :
  let E := env_of lossy in
  let rt := waiting E tt in
  ∃ priv' rt',
    run_ops [OpSubmit buffer_B0; OpSubmit buffer_B1; OpDefaultLoop] server_idle rt =
      Some (priv', rt')
    ∧ server_inv rt' priv'.
Proof.
  intros E rt.
  destruct (@submit_and_dispatch_always_return E
              [OpSubmit buffer_B0; OpSubmit buffer_B1; OpDefaultLoop] server_idle rt)
    as (priv' & rt' & Hrun & _ & Hinv).
  - apply server_idle_inv.
  - intros Hin. elim_in Hin.
  - exists priv', rt'. split; assumption.
Defined.


Lemma dispatch_unmappable_buffer_witness :
  let E := env_of map_refused in
  let rt := serving E tt in
  ∃ priv' rt',
    gstsrtserversink.srt_send_buffer server_busy rt = Some ((FALSE, priv'), rt')
    ∧ element_errors (new_events rt rt') = 1%nat
    ∧ sends (new_events rt rt') = []
    ∧ gstsrtserversink.queued_buffers priv' = [].
Proof.
  intros E rt.
  destruct (@dispatch_unmappable_buffer E server_busy rt buffer_B0)
    as (priv' & rt' & Hrun & Herr & Hsend & _ & _ & _ & Hq & _).
  - reflexivity.
  - reflexivity.
  - exists priv', rt'. repeat split; assumption.
Defined.

Lemma submit_then_dispatch_delivers_witness :
  let E := env_of calm in
  let rt := waiting E tt in
  ∃ priv' rt',
    run_ops [OpSubmit buffer_B0; OpDefaultLoop] server_idle rt = Some (priv', rt')
    ∧ sends (new_events rt rt') = [(11, [100]); (12, [100]); (13, [100])]
    ∧ gstsrtserversink.queued_buffers priv' = [].
Proof.
  intros E rt.
  destruct (@submit_then_dispatch_delivers E server_idle rt buffer_B0)
    as (priv' & rt' & Hrun & Hsend & _ & Hq & _).
  - apply server_idle_inv.
  - reflexivity.
  - vm_compute. discriminate.
  - exists priv', rt'. split; [exact Hrun|]. split; [rewrite Hsend; reflexivity|exact Hq].
Defined.

Lemma stop_releases_sessions_witness :
  let E := env_of calm in
  let rt := serving E tt in
  ∃ priv' rt',
    gstsrtserversink.gst_srt_server_sink_stop server_busy rt = Some ((TRUE, priv'), rt')
    ∧ signals SIG_CLIENT_REMOVED (new_events rt rt') = [(11, peer 1); (12, peer 2); (13, peer 3)]
    ∧ closes (new_events rt rt') = [11; 12; 13; 3]
    ∧ gstsrtserversink.clients priv' = [0; 1; 2]%nat
    ∧ rt_heap rt' !! 0%nat = None.
Proof.
  intros E rt.
  destruct (@stop_releases_sessions E server_busy rt)
    as (priv' & rt' & Hrun & Hsig & Hclose & _ & _ & Hfree & Hreg).
  - apply three_sessions_owned.
  - exists priv', rt'. split; [exact Hrun|].
    split; [rewrite Hsig; vm_compute; reflexivity|].
    split; [rewrite Hclose; vm_compute; reflexivity|].
    split; [exact Hreg|]. apply Hfree. apply list_elem_of_here.
Defined.

Lemma uri_property_rejects_silently_witness :
  let E := env_of calm in
  let rt := empty_runtime E tt in
  ∃ rt',
    gstsrtserversink_object.gst_srt_server_sink_set_property server_priv0
      gstsrtserversink_object.PROP_URI (GString (Some "http://example.org:80")) rt =
      Some (server_priv0, rt')
    ∧ new_events rt rt' = [ELog LTrace].
Proof.
  intros E rt.
  destruct (@uri_property_rejects_silently E server_priv0
              (GString (Some "http://example.org:80")) rt) as (rt' & Hrun & Hev & _).
  - intros s [= <-]. vm_compute. discriminate.
  - exists rt'. split; assumption.
Defined.

Lemma uri_property_round_trip_witness :
  let E := env_of calm in
  let rt := empty_runtime E tt in
  ∃ priv' rt1 rt2,
    gstsrtserversink_object.gst_srt_server_sink_set_property
      gstsrtserversink_object.zeroed gstsrtserversink_object.PROP_URI
      (GString (Some "srt://127.0.0.1:7001")) rt = Some (priv', rt1)
    ∧ gstsrtserversink_object.gst_srt_server_sink_get_property priv'
        gstsrtserversink_object.PROP_URI (GString None) rt1 =
        Some (GString (Some "srt://127.0.0.1:7001"), rt2).
Proof.
  intros E rt.
  destruct (@uri_property_round_trip E gstsrtserversink_object.zeroed
              "srt://127.0.0.1:7001" (GString None) rt) as (rt1 & rt2 & Hset & Hget & _).
  - reflexivity.
  - eexists _, rt1, rt2. split; [exact Hset|exact Hget].
Defined.

(* ===================================================================== *)
(** ** From initialisation to the running server *)
(* ===================================================================== *)

Section bring_up.
Context {E : Env}.

(** X23.  The default URI at initialisation.  The client hands its default
    URI to [set_uri].  When the parser gives it the scheme "srt", the
    parsed URI is stored under the object lock and [get_uri] yields its
    printed form.  When it does not, the URI stays NULL, nothing is
    reported beyond a trace-level log line, and a later [start] logs one
    warning and returns FALSE without calling the library.  The server, in
    contrast, stores whatever the parser makes of its default URI without
    looking at the scheme. *)
Theorem init_stores_default_uri (rt : Runtime) :
  let parsed := gst_uri_from_string "srt://127.0.0.1:7000" in
  (∃ priv rt',
     gstsrtclientsrc_object.gst_srt_client_src_init rt = Some (priv, rt')
     ∧ rt_heap rt' = rt_heap rt
     ∧ (gst_uri_get_scheme parsed = Some "srt" ->
        gstsrtclientsrc.uri priv = parsed
        ∧ new_events rt rt' = [ELog LTrace; EObjectLock; EObjectUnlock]
        ∧ ∃ rt2, gstsrtclientsrc.gst_srt_client_src_uri_get_uri priv rt' =
                   Some (gst_uri_to_string parsed, rt2))
     ∧ (gst_uri_get_scheme parsed ≠ Some "srt" ->
        gstsrtclientsrc.uri priv = None
        ∧ new_events rt rt' = [ELog LTrace]
        ∧ ∃ rt2, gstsrtclientsrc.gst_srt_client_src_start priv rt' = Some ((FALSE, priv), rt2)
                 ∧ new_events rt' rt2 = [ELog LWarning]))
  ∧ gstsrtserversink.uri gstsrtserversink_object.gst_srt_server_sink_init =
      gst_uri_from_string "srt://127.0.0.1:7001".
Proof.
  intros parsed. split; [|reflexivity].
  unfold gstsrtclientsrc_object.gst_srt_client_src_init,
    gstsrtclientsrc.gst_srt_client_src_uri_set_uri, gstsrtclientsrc.SRT_URI_SCHEME,
    gstsrtclientsrc_object.SRT_DEFAULT_URI.
  fold parsed.
  destruct (g_strcmp0_eq (gst_uri_get_scheme parsed) (Some "srt")) eqn:Hcmp.
  - apply g_strcmp0_eq_true in Hcmp.
    mstep. eexists _, _. split; [reflexivity|]. split; [reflexivity|].
    split; [|intros Hne; contradiction].
    intros _. split; [reflexivity|].
    split; [unfold new_events; simpl; trace_norm; apply drop_app_length|].
    unfold gstsrtclientsrc.gst_srt_client_src_uri_get_uri. mstep.
    eexists. reflexivity.
  - assert (Hne : gst_uri_get_scheme parsed ≠ Some "srt").
    { intros Heq. apply g_strcmp0_eq_true in Heq. congruence. }
    mstep. eexists _, _. split; [reflexivity|]. split; [reflexivity|].
    split; [intros Heq; contradiction|].
    intros _. split; [reflexivity|].
    split; [unfold new_events; simpl; trace_norm; apply drop_app_length|].
    unfold gstsrtclientsrc.gst_srt_client_src_start. mstep.
    eexists. split; [reflexivity|].
    unfold new_events. simpl. trace_norm.
    replace (length (rt_trace rt ++ [ELog LTrace]))
      with (length (rt_trace rt) + 1)%nat by (rewrite length_app; reflexivity).
    rewrite <- drop_drop, drop_app_length. reflexivity.
Qed.

End bring_up.

Lemma init_stores_default_uri_witness :
  let E := env_of calm in
  let rt := empty_runtime E tt in
  ∃ priv rt' rt2,
    gstsrtclientsrc_object.gst_srt_client_src_init rt = Some (priv, rt')
    ∧ gstsrtclientsrc.gst_srt_client_src_uri_get_uri priv rt' =
        Some (Some "srt://127.0.0.1:7000", rt2).
Proof.
  intros E rt.
  destruct (@init_stores_default_uri E rt) as [(priv & rt' & Hrun & _ & Hgood & _) _].
  destruct Hgood as (_ & _ & rt2 & Hget); [reflexivity|].
  exists priv, rt', rt2. split; [exact Hrun|exact Hget].
Defined.

(* ===================================================================== *)
(** ** The accept callback and the mutex *)
(* ===================================================================== *)

Section accept_lock.
Context {E : Env}.

(** X24.  The accept callback never touches [priv->mutex].  Whenever a run
    of the callback returns, no event of the run takes or gives up the
    mutex, also when the run appended a session to the registry that the
    dispatcher walks with the mutex held. *)
Theorem accept_takes_no_lock (priv priv' : gstsrtserversink.GstSRTServerSinkPrivate)
    (res : gboolean) (rt rt' : Runtime) :
  gstsrtserversink.idle_listen_callback priv rt = Some ((res, priv'), rt') ->
  lock_free (new_events rt rt')
  ∧ (gstsrtserversink.clients priv' = gstsrtserversink.clients priv
     ∨ ∃ p, gstsrtserversink.clients priv' = gstsrtserversink.clients priv ++ [p]).
Proof.
  unfold gstsrtserversink.idle_listen_callback.
  set (wait := oracle (rt_world rt)
                 (srt_epoll_wait_read (gstsrtserversink.srt_poll_id priv)
                    (gstsrtserversink.poll_timeout priv))).
  bind_step ltac:(apply call_run). fold wait.
  destruct (Z.eqb (ret wait.1) (-1)).
  { bind_step ltac:(apply call_run).
    destruct (Z.eqb (ret (oracle wait.2 srt_getlasterror).1) SRT_ETIMEOUT); cbn [negb].
    - bind_step ltac:(reflexivity).
      bind_step ltac:(apply call_run).
      intros [= <- <- <-]. split; [|now left].
      between. repeat constructor.
    - bind_step ltac:(erewrite bind_run by reflexivity; reflexivity).
      bind_step ltac:(apply call_run).
      intros [= <- <- <-]. split; [|now left].
      between. repeat constructor. }
  bind_step ltac:(apply call_run).
  set (accept := oracle wait.2 (srt_accept (gstsrtserversink.sock priv))).
  destruct (Z.eqb_spec (ret accept.1) SRT_INVALID_SOCK) as [Ha|Ha].
  { bind_step ltac:(reflexivity).
    bind_step ltac:(apply call_run).
    intros [= <- <- <-]. split; [|now left].
    between. repeat constructor. }
  destruct (g_inet_address_new_from_bytes (out_bytes accept.1) (out_family accept.1))
    as [a|] eqn:Haddr.
  2:{ erewrite bind_run by reflexivity. discriminate. }
  match goal with |- context [mbind _ (gst_srt_client_new _ _) ?r] => set (rt1 := r) end.
  destruct (gst_srt_client_new_ok rt1 (ret accept.1) a Ha)
    as (p & rt2 & Hnew & Hfresh & Hh2 & Hw2 & Ht2).
  bind_step ltac:(exact Hnew).
  unfold g_list_append.
  bind_step ltac:(unfold heap_load; rewrite Hh2, lookup_insert_eq; reflexivity).
  bind_step ltac:(reflexivity).
  bind_step ltac:(reflexivity).
  intros [= <- <- <-]. split; [|right; exists p; reflexivity].
  unfold new_events. cbn [rt_trace]. rewrite Ht2. subst rt1. cbn [rt_trace].
  rewrite <- ?app_assoc, drop_app_length. repeat constructor.
Qed.

End accept_lock.

Lemma accept_takes_no_lock_witness :
  let E := env_of calm in
  let rt := waiting E tt in
  ∃ priv' rt',
    gstsrtserversink.idle_listen_callback server_idle rt = Some ((TRUE, priv'), rt')
    ∧ length (gstsrtserversink.clients priv') = 4%nat
    ∧ lock_free (new_events rt rt').
Proof.
  intros E rt.
  destruct (gstsrtserversink.idle_listen_callback server_idle rt)
    as [[[res priv'] rt']|] eqn:Hrun; [|vm_compute in Hrun; discriminate].
  destruct (@accept_takes_no_lock E server_idle priv' res rt rt' Hrun) as [Hfree _].
  assert (Hres : res = TRUE ∧ length (gstsrtserversink.clients priv') = 4%nat).
  { vm_compute in Hrun. injection Hrun as <- <- _. split; reflexivity. }
  destruct Hres as [-> Hlen].
  exists priv', rt'. split; [reflexivity|]. split; assumption.
Defined.

(* ===================================================================== *)
(** ** The client's fill, path by path *)
(* ===================================================================== *)

Section fill_paths.
Context {E : Env}.
Variables (priv : gstsrtclientsrc.GstSrtClientSrcPrivate) (base_time : Z)
  (outbuf : GstBuffer) (rt : Runtime).

(** The library's answers to the calls [fill] makes, in the order it makes
    them. *)
Let WAIT := srt_epoll_wait_write (gstsrtclientsrc.srt_poll_id priv) (-1).
Let MAP := gst_buffer_map outbuf.
Let RECV := srt_recvmsg (gstsrtclientsrc.srt_sock priv) (gst_buffer_get_size outbuf).
Let wait := oracle (rt_world rt) WAIT.
Let map := oracle wait.2 MAP.
Let recv := oracle map.2 RECV.
Let clock := oracle recv.2 gst_clock_get_time.

(** The mapped memory after the receive. *)
Let written := mkGstBuffer (gstsrtclientsrc.mem_write (buf_data outbuf) (out_bytes recv.1))
                 (buf_pts outbuf).

Lemma fill_wait_failed :
  ret wait.1 = -1 ->
  gstsrtclientsrc.gst_srt_client_src_fill priv base_time outbuf rt =
    Some ((GST_FLOW_ERROR, outbuf),
          mkRuntime wait.2 (rt_heap rt) (rt_default_ctx rt) (rt_server_ctx rt)
            (rt_trace rt ++ [ECall WAIT wait.1; ELog LDebug])).
Proof.
  intros Hw. unfold gstsrtclientsrc.gst_srt_client_src_fill.
  bind_step ltac:(apply call_run). fold WAIT wait. rewrite Hw. cbn [Z.eqb Pos.eqb].
  bind_step ltac:(reflexivity). reflexivity.
Qed.

Lemma fill_map_failed :
  ret wait.1 ≠ -1 -> ret map.1 = 0 ->
  gstsrtclientsrc.gst_srt_client_src_fill priv base_time outbuf rt =
    Some ((GST_FLOW_ERROR, outbuf),
          mkRuntime map.2 (rt_heap rt) (rt_default_ctx rt) (rt_server_ctx rt)
            (rt_trace rt ++ [ECall WAIT wait.1; ECall MAP map.1; EElementError])).
Proof.
  intros Hw Hm. unfold gstsrtclientsrc.gst_srt_client_src_fill.
  bind_step ltac:(apply call_run). fold WAIT wait.
  destruct (Z.eqb_spec (ret wait.1) (-1)) as [|_]; [contradiction|].
  bind_step ltac:(apply call_run). fold MAP map. rewrite Hm. cbn [Z.eqb].
  bind_step ltac:(reflexivity). reflexivity.
Qed.

Lemma fill_recv_failed :
  ret wait.1 ≠ -1 -> ret map.1 ≠ 0 -> ret recv.1 = SRT_ERROR ->
  gstsrtclientsrc.gst_srt_client_src_fill priv base_time outbuf rt =
    Some ((GST_FLOW_ERROR, written),
          mkRuntime recv.2 (rt_heap rt) (rt_default_ctx rt) (rt_server_ctx rt)
            (rt_trace rt ++ [ECall WAIT wait.1; ECall MAP map.1; ECall RECV recv.1;
                             ELog LWarning])).
Proof.
  intros Hw Hm Hr. unfold gstsrtclientsrc.gst_srt_client_src_fill.
  bind_step ltac:(apply call_run). fold WAIT wait.
  destruct (Z.eqb_spec (ret wait.1) (-1)) as [|_]; [contradiction|].
  bind_step ltac:(apply call_run). fold MAP map.
  destruct (Z.eqb_spec (ret map.1) 0) as [|_]; [contradiction|].
  bind_step ltac:(apply call_run). fold RECV recv. rewrite Hr. cbn [Z.eqb Pos.eqb SRT_ERROR].
  bind_step ltac:(reflexivity). reflexivity.
Qed.

Lemma fill_recv_eof :
  ret wait.1 ≠ -1 -> ret map.1 ≠ 0 -> ret recv.1 = 0 ->
  gstsrtclientsrc.gst_srt_client_src_fill priv base_time outbuf rt =
    Some ((GST_FLOW_EOS, written),
          mkRuntime recv.2 (rt_heap rt) (rt_default_ctx rt) (rt_server_ctx rt)
            (rt_trace rt ++ [ECall WAIT wait.1; ECall MAP map.1; ECall RECV recv.1])).
Proof.
  intros Hw Hm Hr. unfold gstsrtclientsrc.gst_srt_client_src_fill.
  bind_step ltac:(apply call_run). fold WAIT wait.
  destruct (Z.eqb_spec (ret wait.1) (-1)) as [|_]; [contradiction|].
  bind_step ltac:(apply call_run). fold MAP map.
  destruct (Z.eqb_spec (ret map.1) 0) as [|_]; [contradiction|].
  bind_step ltac:(apply call_run). fold RECV recv. rewrite Hr. cbn [Z.eqb Pos.eqb SRT_ERROR].
  reflexivity.
Qed.

Lemma fill_recv_some :
  ret wait.1 ≠ -1 -> ret map.1 ≠ 0 -> ret recv.1 ≠ SRT_ERROR -> ret recv.1 ≠ 0 ->
  let stamped := mkGstBuffer (buf_data written)
                   (Some (guint64_wrap (ret clock.1 - base_time))) in
  gstsrtclientsrc.gst_srt_client_src_fill priv base_time outbuf rt =
    Some ((GST_FLOW_OK, gst_buffer_resize stamped (ret recv.1)),
          mkRuntime clock.2 (rt_heap rt) (rt_default_ctx rt) (rt_server_ctx rt)
            (rt_trace rt ++ [ECall WAIT wait.1; ECall MAP map.1; ECall RECV recv.1;
                             ECall gst_clock_get_time clock.1]
               ++ (if gst_buffer_resize_fits stamped (ret recv.1) then [] else [ELog LCritical])
               ++ [ELog LLog])).
Proof.
  intros Hw Hm He Hz stamped. unfold gstsrtclientsrc.gst_srt_client_src_fill.
  bind_step ltac:(apply call_run). fold WAIT wait.
  destruct (Z.eqb_spec (ret wait.1) (-1)) as [|_]; [contradiction|].
  bind_step ltac:(apply call_run). fold MAP map.
  destruct (Z.eqb_spec (ret map.1) 0) as [|_]; [contradiction|].
  bind_step ltac:(apply call_run). fold RECV recv.
  destruct (Z.eqb_spec (ret recv.1) SRT_ERROR) as [|_]; [contradiction|].
  destruct (Z.eqb_spec (ret recv.1) 0) as [|_]; [contradiction|].
  bind_step ltac:(apply call_run). fold clock written stamped.
  destruct (gst_buffer_resize_fits stamped (ret recv.1)).
  - bind_step ltac:(reflexivity). bind_step ltac:(reflexivity). reflexivity.
  - bind_step ltac:(reflexivity). bind_step ltac:(reflexivity). reflexivity.
Qed.

End fill_paths.

Lemma gst_buffer_resize_within (d : list Z) (pts : option Z) (n : Z) :
  0 <= n <= Z.of_nat (length d) ->
  gst_buffer_resize (mkGstBuffer d pts) n = mkGstBuffer (take (Z.to_nat n) d) pts
  ∧ gst_buffer_resize_fits (mkGstBuffer d pts) n = true
  ∧ gst_buffer_get_size (mkGstBuffer (take (Z.to_nat n) d) pts) = n.
Proof.
  intros Hn. unfold gst_buffer_resize, gst_buffer_resize_fits, gst_buffer_get_size.
  cbn [buf_data buf_pts].
  destruct (Z.leb_spec 0 n); [|lia].
  destruct (Z.leb_spec (-1) n); [|lia].
  destruct (Z.leb_spec n (Z.of_nat (length d))); [|lia].
  split; [reflexivity|]. split; [reflexivity|].
  rewrite length_take. lia.
Qed.

(** A resize leaves the timestamp alone, and a refused one the size too. *)
Lemma gst_buffer_resize_pts (b : GstBuffer) (n : Z) :
  buf_pts (gst_buffer_resize b n) = buf_pts b.
Proof. unfold gst_buffer_resize. destruct (_ && _); reflexivity. Qed.

Section fill.
Context {E : Env}.


(** C8, as the code has it.  When the wait and the map succeed and
    [srt_recvmsg] returns [n], neither [SRT_ERROR] nor 0, [fill] returns
    [GST_FLOW_OK] after reading the clock once, after the receive, and the
    buffer's presentation timestamp is that clock time minus the element's
    base time, in 64-bit unsigned arithmetic: the running time, not the
    clock time.  When [0 < n] and [n] is at most the size of the buffer,
    which is the limit [srt_recvmsg] was given, the buffer is resized to
    exactly [n] bytes, the first [n] bytes of the mapped memory, and the
    resize is not refused.  When [n] is negative the resize is refused
    with a critical message and the buffer keeps its size. *)
Theorem fill_stamps_running_time_and_trims
    (priv : gstsrtclientsrc.GstSrtClientSrcPrivate)
    (base_time : Z) (outbuf : GstBuffer) (rt : Runtime) :
  let WAIT := srt_epoll_wait_write (gstsrtclientsrc.srt_poll_id priv) (-1) in
  let RECV := srt_recvmsg (gstsrtclientsrc.srt_sock priv) (gst_buffer_get_size outbuf) in
  let wait := oracle (rt_world rt) WAIT in
  let map := oracle wait.2 (gst_buffer_map outbuf) in
  let recv := oracle map.2 RECV in
  let clock := oracle recv.2 gst_clock_get_time in
  ret wait.1 ≠ -1 ->
  ret map.1 ≠ 0 ->
  ret recv.1 ≠ SRT_ERROR ->
  ret recv.1 ≠ 0 ->
  ∃ buf' rt',
    gstsrtclientsrc.gst_srt_client_src_fill priv base_time outbuf rt =
      Some ((GST_FLOW_OK, buf'), rt')
    ∧ calls (new_events rt rt') = [WAIT; gst_buffer_map outbuf; RECV; gst_clock_get_time]
    ∧ buf_pts buf' = Some (guint64_wrap (ret clock.1 - base_time))
    ∧ (0 < ret recv.1 <= gst_buffer_get_size outbuf ->
       gst_buffer_get_size buf' = ret recv.1
       ∧ buf_data buf' =
           take (Z.to_nat (ret recv.1))
             (gstsrtclientsrc.mem_write (buf_data outbuf) (out_bytes recv.1))
       ∧ logged LCritical (new_events rt rt') = O)
    ∧ (ret recv.1 < 0 ->
       gst_buffer_get_size buf' = gst_buffer_get_size outbuf
       ∧ logged LCritical (new_events rt rt') = 1%nat).
Proof.
  intros WAIT RECV wait map recv clock Hw Hm He Hz.
  rewrite (fill_recv_some priv base_time outbuf rt Hw Hm He Hz).
  cbn [buf_data buf_pts]. fold WAIT RECV wait map recv clock.
  eexists _, _. split; [reflexivity|]. between.
  split; [destruct (gst_buffer_resize_fits _ _); reflexivity|].
  split; [apply gst_buffer_resize_pts|].
  split.
  - intros Hn.
    destruct (gst_buffer_resize_within
                (gstsrtclientsrc.mem_write (buf_data outbuf) (out_bytes recv.1))
                (Some (guint64_wrap (ret clock.1 - base_time))) (ret recv.1))
      as (Hresize & Hfits & Hsize).
    { rewrite length_mem_write. unfold gst_buffer_get_size in Hn. lia. }
    rewrite Hresize, Hfits. split; [exact Hsize|]. split; reflexivity.
  - intros Hn. unfold SRT_ERROR in He.
    unfold gst_buffer_resize, gst_buffer_resize_fits.
    destruct (Z.leb_spec 0 (ret recv.1)); [lia|].
    destruct (Z.leb_spec (-1) (ret recv.1)); [lia|].
    cbn [andb]. split; [|reflexivity].
    unfold gst_buffer_get_size. cbn [buf_data]. now rewrite length_mem_write.
Qed.

(** X3.  [fill] waits, maps and receives in that order and gives up at the
    first failure.  When the wait returns -1 the wait is its only library
    call, one debug line is logged, and the buffer is untouched.  When the
    wait succeeds and the map fails, the wait and the map are its only
    calls, one element error is posted, and the buffer is untouched.
    When both succeed it receives exactly once, asking for the size of the
    buffer, and reads the clock only when the receive returned neither
    [SRT_ERROR] nor 0.  Whenever the answer is not [GST_FLOW_OK], the
    buffer keeps its size and its timestamp. *)
Theorem fill_gives_up_early (priv : gstsrtclientsrc.GstSrtClientSrcPrivate)
    (base_time : Z) (outbuf : GstBuffer) (rt : Runtime) :
  let WAIT := srt_epoll_wait_write (gstsrtclientsrc.srt_poll_id priv) (-1) in
  let RECV := srt_recvmsg (gstsrtclientsrc.srt_sock priv) (gst_buffer_get_size outbuf) in
  let wait := oracle (rt_world rt) WAIT in
  let map := oracle wait.2 (gst_buffer_map outbuf) in
  let recv := oracle map.2 RECV in
  ∃ flow buf' rt',
    gstsrtclientsrc.gst_srt_client_src_fill priv base_time outbuf rt = Some ((flow, buf'), rt')
    ∧ (ret wait.1 = -1 ->
       calls (new_events rt rt') = [WAIT]
       ∧ logged LDebug (new_events rt rt') = 1%nat
       ∧ flow = GST_FLOW_ERROR ∧ buf' = outbuf)
    ∧ (ret wait.1 ≠ -1 -> ret map.1 = 0 ->
       calls (new_events rt rt') = [WAIT; gst_buffer_map outbuf]
       ∧ element_errors (new_events rt rt') = 1%nat
       ∧ flow = GST_FLOW_ERROR ∧ buf' = outbuf)
    ∧ (ret wait.1 ≠ -1 -> ret map.1 ≠ 0 ->
       element_errors (new_events rt rt') = O
       ∧ (ret recv.1 = SRT_ERROR ∨ ret recv.1 = 0 ->
          calls (new_events rt rt') = [WAIT; gst_buffer_map outbuf; RECV])
       ∧ (ret recv.1 ≠ SRT_ERROR -> ret recv.1 ≠ 0 ->
          calls (new_events rt rt') =
            [WAIT; gst_buffer_map outbuf; RECV; gst_clock_get_time]))
    ∧ (flow ≠ GST_FLOW_OK ->
       buf_pts buf' = buf_pts outbuf
       ∧ gst_buffer_get_size buf' = gst_buffer_get_size outbuf).
Proof.
  intros WAIT RECV wait map recv.
  destruct (Z.eq_dec (ret wait.1) (-1)) as [Hw|Hw].
  { rewrite (fill_wait_failed priv base_time outbuf rt Hw).
    eexists _, _, _. split; [reflexivity|]. between.
    split; [intros _; repeat split|]. split; [intros; contradiction|].
    split; [intros; contradiction|]. intros _. split; reflexivity. }
  destruct (Z.eq_dec (ret map.1) 0) as [Hm|Hm].
  { rewrite (fill_map_failed priv base_time outbuf rt Hw Hm).
    eexists _, _, _. split; [reflexivity|]. between.
    split; [intros; contradiction|]. split; [intros _ _; repeat split|].
    split; [intros; contradiction|]. intros _. split; reflexivity. }
  assert (Hkeep : gst_buffer_get_size
                    (mkGstBuffer (gstsrtclientsrc.mem_write (buf_data outbuf) (out_bytes recv.1))
                       (buf_pts outbuf)) = gst_buffer_get_size outbuf).
  { unfold gst_buffer_get_size. cbn [buf_data]. now rewrite length_mem_write. }
  destruct (Z.eq_dec (ret recv.1) SRT_ERROR) as [He|He].
  { rewrite (fill_recv_failed priv base_time outbuf rt Hw Hm He).
    eexists _, _, _. split; [reflexivity|]. between.
    split; [intros; contradiction|]. split; [intros; contradiction|].
    split; [|intros _; split; [reflexivity|exact Hkeep]].
    intros _ _. split; [reflexivity|]. split; [reflexivity|]. intros; contradiction. }
  destruct (Z.eq_dec (ret recv.1) 0) as [Hz|Hz].
  { rewrite (fill_recv_eof priv base_time outbuf rt Hw Hm Hz).
    eexists _, _, _. split; [reflexivity|]. between.
    split; [intros; contradiction|]. split; [intros; contradiction|].
    split; [|intros _; split; [reflexivity|exact Hkeep]].
    intros _ _. split; [reflexivity|]. split; [reflexivity|]. intros; contradiction. }
  rewrite (fill_recv_some priv base_time outbuf rt Hw Hm He Hz).
  eexists _, _, _. split; [reflexivity|]. between.
  split; [intros; contradiction|]. split; [intros; contradiction|].
  split; [|intros Hflow; congruence].
  intros _ _.
  split; [destruct (gst_buffer_resize_fits _ _); reflexivity|].
  split; [intros [|]; contradiction|].
  intros _ _. destruct (gst_buffer_resize_fits _ _); reflexivity.
Qed.

(** X4.  [fill] hands back what the library delivered.  When the wait and
    the map succeed and [srt_recvmsg] returns [n > 0], at most the size of
    the buffer, having written [n] bytes, [fill] returns [GST_FLOW_OK] with
    a buffer that holds exactly those [n] bytes, stamped with the clock
    time minus the base time. *)
Theorem fill_delivers_received_bytes (priv : gstsrtclientsrc.GstSrtClientSrcPrivate)
    (base_time : Z) (outbuf : GstBuffer) (rt : Runtime) :
  let wait := oracle (rt_world rt)
                (srt_epoll_wait_write (gstsrtclientsrc.srt_poll_id priv) (-1)) in
  let map := oracle wait.2 (gst_buffer_map outbuf) in
  let recv := oracle map.2
                (srt_recvmsg (gstsrtclientsrc.srt_sock priv) (gst_buffer_get_size outbuf)) in
  let clock := oracle recv.2 gst_clock_get_time in
  ret wait.1 ≠ -1 ->
  ret map.1 ≠ 0 ->
  0 < ret recv.1 <= gst_buffer_get_size outbuf ->
  ret recv.1 = Z.of_nat (length (out_bytes recv.1)) ->
  ∃ rt',
    gstsrtclientsrc.gst_srt_client_src_fill priv base_time outbuf rt =
      Some ((GST_FLOW_OK,
             mkGstBuffer (out_bytes recv.1) (Some (guint64_wrap (ret clock.1 - base_time)))),
            rt').
Proof.
  intros wait map recv clock Hw Hm Hn Hlen.
  assert (He : ret recv.1 ≠ SRT_ERROR) by (unfold SRT_ERROR; lia).
  assert (Hz : ret recv.1 ≠ 0) by lia.
  rewrite (fill_recv_some priv base_time outbuf rt Hw Hm He Hz).
  cbn [buf_data buf_pts].
  destruct (gst_buffer_resize_within
              (gstsrtclientsrc.mem_write (buf_data outbuf) (out_bytes recv.1))
              (Some (guint64_wrap (ret clock.1 - base_time))) (ret recv.1))
    as (Hresize & _ & _).
  { rewrite length_mem_write. unfold gst_buffer_get_size in Hn. lia. }
  fold wait map recv clock. rewrite Hresize.
  assert (Hnat : Z.to_nat (ret recv.1) = length (out_bytes recv.1)) by lia.
  rewrite take_mem_write by (unfold gst_buffer_get_size in Hn; lia).
  rewrite Hnat, firstn_all.
  eexists. reflexivity.
Qed.

End fill.



Lemma fill_stamps_running_time_and_trims_witness :
  let E := env_of receiving in
  let rt := empty_runtime E tt in
  ∃ rt',
    gstsrtclientsrc.gst_srt_client_src_fill client_priv0 40 outbuf0 rt =
      Some ((GST_FLOW_OK, mkGstBuffer [1; 2; 3] (Some 60)), rt').
Proof.
  intros E rt.
  destruct (@fill_stamps_running_time_and_trims E client_priv0 40 outbuf0 rt)
    as (buf' & rt' & Hrun & _ & Hpts & Hfit & _).
  - discriminate.
  - discriminate.
  - discriminate.
  - discriminate.
  - destruct Hfit as (_ & Hdata & _); [vm_compute; split; [reflexivity|discriminate]|].
    exists rt'. rewrite Hrun. destruct buf' as [d p]. simpl in Hpts, Hdata. subst d p.
    reflexivity.
Defined.

Lemma fill_gives_up_early_witness :
  let E := env_of map_refused in
  let rt := empty_runtime E tt in
  ∃ rt',
    gstsrtclientsrc.gst_srt_client_src_fill client_priv0 0 outbuf0 rt =
      Some ((GST_FLOW_ERROR, outbuf0), rt')
    ∧ calls (new_events rt rt') = [srt_epoll_wait_write 0 (-1); gst_buffer_map outbuf0]
    ∧ element_errors (new_events rt rt') = 1%nat.
Proof.
  intros E rt.
  destruct (@fill_gives_up_early E client_priv0 0 outbuf0 rt)
    as (flow & buf' & rt' & Hrun & _ & Hmap & _).
  destruct Hmap as (Hcalls & Herr & -> & ->); [discriminate|reflexivity|].
  exists rt'. split; [exact Hrun|]. split; assumption.
Defined.

Lemma fill_delivers_received_bytes_witness :
  let E := env_of receiving in
  let rt := empty_runtime E tt in
  ∃ rt',
    gstsrtclientsrc.gst_srt_client_src_fill client_priv0 40 outbuf0 rt =
      Some ((GST_FLOW_OK, mkGstBuffer [1; 2; 3] (Some 60)), rt').
Proof.
  intros E rt.
  destruct (@fill_delivers_received_bytes E client_priv0 40 outbuf0 rt) as (rt' & Hrun).
  - discriminate.
  - discriminate.
  - vm_compute. split; [reflexivity|discriminate].
  - reflexivity.
  - exists rt'. exact Hrun.
Defined.

(* ===================================================================== *)
(** ** The two starts, path by path *)
(* ===================================================================== *)

(** Split a start into its paths, naming the library's answers in the
    order the calls are made. *)
Ltac start_cases :=
  repeat first
    [ progress (munfold; simpl)
    | match goal with
      | |- context [oracle ?w ?c] =>
          lazymatch w with context [oracle _ _] => fail | _ => idtac end;
          lazymatch c with context [oracle _ _] => fail | _ => idtac end;
          let r := fresh "r" in
          let w' := fresh "w" in
          let Ho := fresh "Ho" in
          destruct (oracle w c) as [r w'] eqn:Ho; simpl
      | |- context [Z.eqb ?a ?b] => destruct (Z.eqb_spec a b)
      | |- context [match inet_family ?a with _ => _ end] =>
          let Hf := fresh "Hfam" in destruct (inet_family a) eqn:Hf
      end ].

(** Close one path of a start: the hypotheses that contradict it, or the
    result it computes. *)
Ltac on_path :=
  intros; unfold g_list_append; cbn [app];
  repeat match goal with
         | H : _ ∨ _ |- _ => destruct H
         | H : ¬ (_ ∨ _) |- _ => exfalso; apply H; first [left; congruence | right; congruence]
         end;
  first [ contradiction | congruence | reflexivity
        | unfold SRT_ERROR in *; congruence ].

Section server_start_paths.
Context {E : Env}.
Variables (priv : gstsrtserversink.GstSRTServerSinkPrivate) (rt : Runtime)
  (host : string) (a : GInetAddress).

(** The calls [start] makes once the URI gave it an address, and the
    library's answers to them, in the order it makes them. *)
Let port := gst_uri_get_port (gstsrtserversink.uri priv).
Let SOCKET := srt_socket (inet_family a).
Let sk := oracle (rt_world rt) SOCKET.
Let s := ret sk.1.
Let NONBLOCK := srt_setsockopt_sndsyn s 0.
Let nb := oracle sk.2 NONBLOCK.
Let ep := oracle nb.2 srt_epoll_create.
Let eid := ret ep.1.
Let ADD := srt_epoll_add_usock eid s SRT_EPOLL_IN.
Let ad := oracle ep.2 ADD.
Let BIND := srt_bind s a (g_inet_socket_address_get_port port).
Let bd := oracle ad.2 BIND.
Let LISTEN := srt_listen s 1.
Let ls := oracle bd.2 LISTEN.
Let th := oracle ls.2 g_thread_try_new.
Let bound := gstsrtserversink.set_srt_poll_id (gstsrtserversink.set_sock priv s) eid.
Let looping (thread : bool) :=
  gstsrtserversink.set_thread
    (gstsrtserversink.set_loop
       (gstsrtserversink.set_server_source (gstsrtserversink.set_context bound true) true)
       true) thread.

Hypothesis Hhost : gst_uri_get_host (gstsrtserversink.uri priv) = Some host.
Hypothesis Hport : port ≠ GST_URI_NO_PORT.
Hypothesis Hres : g_inet_socket_address_new_from_string host port = Some a.

Lemma server_start_outcome :
  let run := gstsrtserversink.gst_srt_server_sink_start priv rt in
  let state w ctx evs :=
    mkRuntime w (rt_heap rt) (rt_default_ctx rt) ctx (rt_trace rt ++ evs) in
  let internet := inet_family a = G_SOCKET_FAMILY_IPV4 ∨ inet_family a = G_SOCKET_FAMILY_IPV6 in
  (s = SRT_ERROR ->
   run = Some ((FALSE, gstsrtserversink.set_sock priv s),
               state sk.2 (rt_server_ctx rt) [ECall SOCKET sk.1; ELog LWarning]))
  ∧ (s ≠ SRT_ERROR -> eid = -1 ->
     run = Some ((TRUE, bound),
                 state (oracle ep.2 (srt_close s)).2 (rt_server_ctx rt)
                   [ECall SOCKET sk.1; ECall NONBLOCK nb.1; ECall srt_epoll_create ep.1;
                    ELog LWarning; ECall (srt_close s) (oracle ep.2 (srt_close s)).1]))
  ∧ (s ≠ SRT_ERROR -> eid ≠ -1 -> ¬ internet ->
     run = Some ((FALSE, bound),
                 state (oracle ad.2 (srt_close s)).2 (rt_server_ctx rt)
                   [ECall SOCKET sk.1; ECall NONBLOCK nb.1; ECall srt_epoll_create ep.1;
                    ECall ADD ad.1; ELog LWarning;
                    ECall (srt_close s) (oracle ad.2 (srt_close s)).1]))
  ∧ (s ≠ SRT_ERROR -> eid ≠ -1 -> internet -> ret bd.1 = SRT_ERROR ->
     run = Some ((FALSE, bound),
                 state (oracle bd.2 (srt_close s)).2 (rt_server_ctx rt)
                   [ECall SOCKET sk.1; ECall NONBLOCK nb.1; ECall srt_epoll_create ep.1;
                    ECall ADD ad.1; ECall BIND bd.1; ELog LInfo; ELog LWarning;
                    ECall (srt_close s) (oracle bd.2 (srt_close s)).1]))
  ∧ (s ≠ SRT_ERROR -> eid ≠ -1 -> internet -> ret bd.1 ≠ SRT_ERROR ->
     ret ls.1 = SRT_ERROR ->
     run = Some ((FALSE, bound),
                 state (oracle ls.2 (srt_close s)).2 (rt_server_ctx rt)
                   [ECall SOCKET sk.1; ECall NONBLOCK nb.1; ECall srt_epoll_create ep.1;
                    ECall ADD ad.1; ECall BIND bd.1; ELog LInfo; ECall LISTEN ls.1;
                    ELog LWarning; ECall (srt_close s) (oracle ls.2 (srt_close s)).1]))
  ∧ (s ≠ SRT_ERROR -> eid ≠ -1 -> internet -> ret bd.1 ≠ SRT_ERROR ->
     ret ls.1 ≠ SRT_ERROR -> ret th.1 = 0 ->
     run = Some ((FALSE, looping false),
                 state th.2 [cb_idle_listen_callback]
                   [ECall SOCKET sk.1; ECall NONBLOCK nb.1; ECall srt_epoll_create ep.1;
                    ECall ADD ad.1; ECall BIND bd.1; ELog LInfo; ECall LISTEN ls.1;
                    ESourceAttach CtxServer cb_idle_listen_callback; EMutexLock;
                    ECall g_thread_try_new th.1; ELog LWarning; EMutexUnlock]))
  ∧ (s ≠ SRT_ERROR -> eid ≠ -1 -> internet -> ret bd.1 ≠ SRT_ERROR ->
     ret ls.1 ≠ SRT_ERROR -> ret th.1 ≠ 0 ->
     run = Some ((TRUE, looping true),
                 state th.2 [cb_idle_listen_callback]
                   [ECall SOCKET sk.1; ECall NONBLOCK nb.1; ECall srt_epoll_create ep.1;
                    ECall ADD ad.1; ECall BIND bd.1; ELog LInfo; ECall LISTEN ls.1;
                    ESourceAttach CtxServer cb_idle_listen_callback; EMutexLock;
                    ECall g_thread_try_new th.1; EMutexUnlock])).
Proof.
  cbv zeta.
  unfold gstsrtserversink.gst_srt_server_sink_start, gstsrtserversink.start_bound,
    gstsrtserversink.start_loop, gstsrtserversink.g_source_attach, get_sources, set_sources.
  rewrite Hhost.
  destruct (Z.eqb_spec (gst_uri_get_port (gstsrtserversink.uri priv)) GST_URI_NO_PORT)
    as [Hp|_]; [destruct (Hport Hp)|].
  fold port. rewrite Hres.
  unfold looping, bound, th, ls, LISTEN, bd, BIND, ad, ADD, eid, ep, nb, NONBLOCK, s, sk, SOCKET.
  clear Hhost Hport Hres.
  start_cases; trace_norm; repeat split; on_path.
Qed.

End server_start_paths.

Section client_start_paths.
Context {E : Env}.
Variables (priv : gstsrtclientsrc.GstSrtClientSrcPrivate) (rt : Runtime)
  (host : string) (a : GInetAddress).

Let port := gst_uri_get_port (gstsrtclientsrc.uri priv).
Let SOCKET := srt_socket (inet_family a).
Let sk := oracle (rt_world rt) SOCKET.
Let s := ret sk.1.
Let ep := oracle sk.2 srt_epoll_create.
Let eid := ret ep.1.
Let ADD := srt_epoll_add_usock eid s SRT_EPOLL_OUT.
Let ad := oracle ep.2 ADD.
Let CONNECT := srt_connect s a (g_inet_socket_address_get_port port).
Let cn := oracle ad.2 CONNECT.
Let connected := gstsrtclientsrc.set_srt_poll_id (gstsrtclientsrc.set_srt_sock priv s) eid.

Hypothesis Hhost : gst_uri_get_host (gstsrtclientsrc.uri priv) = Some host.
Hypothesis Hport : port ≠ GST_URI_NO_PORT.
Hypothesis Hres : g_inet_socket_address_new_from_string host port = Some a.

Lemma client_start_outcome :
  let run := gstsrtclientsrc.gst_srt_client_src_start priv rt in
  let state w evs :=
    mkRuntime w (rt_heap rt) (rt_default_ctx rt) (rt_server_ctx rt) (rt_trace rt ++ evs) in
  let internet := inet_family a = G_SOCKET_FAMILY_IPV4 ∨ inet_family a = G_SOCKET_FAMILY_IPV6 in
  (s = SRT_ERROR ->
   run = Some ((FALSE, gstsrtclientsrc.set_srt_sock priv s),
               state sk.2 [ECall SOCKET sk.1; ELog LWarning]))
  ∧ (s ≠ SRT_ERROR -> eid = -1 ->
     run = Some ((TRUE, connected),
                 state (oracle ep.2 (srt_close s)).2
                   [ECall SOCKET sk.1; ECall srt_epoll_create ep.1; ELog LWarning;
                    ECall (srt_close s) (oracle ep.2 (srt_close s)).1]))
  ∧ (s ≠ SRT_ERROR -> eid ≠ -1 -> ¬ internet ->
     run = Some ((FALSE, connected),
                 state (oracle ad.2 (srt_close s)).2
                   [ECall SOCKET sk.1; ECall srt_epoll_create ep.1; ECall ADD ad.1;
                    ELog LWarning; ECall (srt_close s) (oracle ad.2 (srt_close s)).1]))
  ∧ (s ≠ SRT_ERROR -> eid ≠ -1 -> internet -> ret cn.1 = SRT_ERROR ->
     run = Some ((FALSE, connected),
                 state (oracle cn.2 (srt_close s)).2
                   [ECall SOCKET sk.1; ECall srt_epoll_create ep.1; ECall ADD ad.1;
                    ECall CONNECT cn.1; ELog LWarning;
                    ECall (srt_close s) (oracle cn.2 (srt_close s)).1]))
  ∧ (s ≠ SRT_ERROR -> eid ≠ -1 -> internet -> ret cn.1 ≠ SRT_ERROR ->
     run = Some ((TRUE, connected),
                 state cn.2
                   [ECall SOCKET sk.1; ECall srt_epoll_create ep.1; ECall ADD ad.1;
                    ECall CONNECT cn.1])).
Proof.
  cbv zeta.
  unfold gstsrtclientsrc.gst_srt_client_src_start.
  rewrite Hhost.
  destruct (Z.eqb_spec (gst_uri_get_port (gstsrtclientsrc.uri priv)) GST_URI_NO_PORT)
    as [Hp|_]; [destruct (Hport Hp)|].
  fold port. rewrite Hres.
  unfold connected, cn, CONNECT, ad, ADD, eid, ep, s, sk, SOCKET.
  clear Hhost Hport Hres.
  start_cases; trace_norm; repeat split; on_path.
Qed.

End client_start_paths.

Section start_frame.
Context {E : Env}.

(** [start] always returns, and on every path it leaves the registry, the
    queue, the sessions and the default main context as they were; the
    server thread's context is as it was, or a new one that holds the
    accept unit and nothing else.  Every start that returns FALSE has
    logged one warning; every start that returns TRUE with a poll id has
    logged none, ended with [g_thread_try_new], and left the loop, the
    thread, the source and the context in place. *)
Lemma start_keeps_sessions (priv : gstsrtserversink.GstSRTServerSinkPrivate) (rt : Runtime) :
  ∃ res priv' rt',
    gstsrtserversink.gst_srt_server_sink_start priv rt = Some ((res, priv'), rt')
    ∧ gstsrtserversink.clients priv' = gstsrtserversink.clients priv
    ∧ gstsrtserversink.queued_buffers priv' = gstsrtserversink.queued_buffers priv
    ∧ gstsrtserversink.poll_timeout priv' = gstsrtserversink.poll_timeout priv
    ∧ gstsrtserversink.uri priv' = gstsrtserversink.uri priv
    ∧ rt_heap rt' = rt_heap rt
    ∧ rt_default_ctx rt' = rt_default_ctx rt
    ∧ (rt_server_ctx rt' = rt_server_ctx rt
       ∨ rt_server_ctx rt' = [cb_idle_listen_callback])
    ∧ (res = FALSE -> logged LWarning (new_events rt rt') = 1%nat)
    ∧ (res = TRUE -> gstsrtserversink.srt_poll_id priv' ≠ -1 ->
       logged LWarning (new_events rt rt') = O
       ∧ last (calls (new_events rt rt')) = Some g_thread_try_new
       ∧ rt_server_ctx rt' = [cb_idle_listen_callback]
       ∧ gstsrtserversink.loop priv' = true
       ∧ gstsrtserversink.thread priv' = true
       ∧ gstsrtserversink.server_source priv' = true
       ∧ gstsrtserversink.context priv' = true).
Proof.
  unfold gstsrtserversink.gst_srt_server_sink_start, gstsrtserversink.start_bound,
    gstsrtserversink.start_loop, gstsrtserversink.g_source_attach.
  start_paths; eexists _, _, _; (split; [reflexivity|]);
    unfold new_events; simpl; trace_norm; rewrite ?drop_app_length, ?app_nil_r, ?drop_all;
    (split; [reflexivity|]); (split; [reflexivity|]); (split; [reflexivity|]);
    (split; [reflexivity|]); (split; [reflexivity|]); (split; [reflexivity|]);
    (split; [first [left; reflexivity | right; reflexivity]|]);
    (split; [intros Hres; first [discriminate Hres | reflexivity]|]);
    intros Hres Hid; first [discriminate Hres | contradiction | idtac].
  all: repeat split.
Qed.

End start_frame.

(** Settle the statements about one path: the ones whose premises
    contradict the path, and the ones the path computes. *)
Ltac path_facts :=
  repeat match goal with
         | |- _ ∧ _ => split
         | |- _ -> _ => intro
         end;
  first [ contradiction | congruence | reflexivity
        | unfold SRT_ERROR in *; congruence ].

(* ===================================================================== *)
(** ** Failing starts *)
(* ===================================================================== *)

Section start.
Context {E : Env}.

(** C5 on the code.  Once the URI has given an internet address, what
    [start] returns and which library calls it makes is decided by the
    library's answers, step by step.  A failed [srt_socket], [srt_bind],
    [srt_listen], [srt_connect] or [g_thread_try_new] makes [start] return
    FALSE; a failed [srt_epoll_create] makes it return TRUE.  After a
    failed [srt_epoll_create], [srt_bind], [srt_listen] or [srt_connect]
    the last call is the [srt_close] of the socket; after a failed
    [g_thread_try_new] nothing is closed and the accept unit, the loop and
    the context stay in place.  No path calls [srt_epoll_release]: the
    poll id made by [srt_epoll_create] outlives every failure after it. *)
Theorem start_failure_paths :
  (∀ (priv : gstsrtserversink.GstSRTServerSinkPrivate) (rt : Runtime)
     (host : string) (a : GInetAddress),
     let port := gst_uri_get_port (gstsrtserversink.uri priv) in
     let sk := oracle (rt_world rt) (srt_socket (inet_family a)) in
     let s := ret sk.1 in
     let nb := oracle sk.2 (srt_setsockopt_sndsyn s 0) in
     let ep := oracle nb.2 srt_epoll_create in
     let eid := ret ep.1 in
     let ad := oracle ep.2 (srt_epoll_add_usock eid s SRT_EPOLL_IN) in
     let bd := oracle ad.2 (srt_bind s a (g_inet_socket_address_get_port port)) in
     let ls := oracle bd.2 (srt_listen s 1) in
     let th := oracle ls.2 g_thread_try_new in
     let setup := [srt_socket (inet_family a); srt_setsockopt_sndsyn s 0; srt_epoll_create] in
     let binding := [srt_epoll_add_usock eid s SRT_EPOLL_IN;
                     srt_bind s a (g_inet_socket_address_get_port port)] in
     gst_uri_get_host (gstsrtserversink.uri priv) = Some host ->
     port ≠ GST_URI_NO_PORT ->
     g_inet_socket_address_new_from_string host port = Some a ->
     inet_family a = G_SOCKET_FAMILY_IPV4 ∨ inet_family a = G_SOCKET_FAMILY_IPV6 ->
     ∃ res priv' rt',
       gstsrtserversink.gst_srt_server_sink_start priv rt = Some ((res, priv'), rt')
       ∧ epoll_releases (new_events rt rt') = []
       ∧ (s = SRT_ERROR ->
          res = FALSE ∧ calls (new_events rt rt') = [srt_socket (inet_family a)])
       ∧ (s ≠ SRT_ERROR -> eid = -1 ->
          res = TRUE ∧ calls (new_events rt rt') = setup ++ [srt_close s])
       ∧ (s ≠ SRT_ERROR -> eid ≠ -1 -> ret bd.1 = SRT_ERROR ->
          res = FALSE ∧ calls (new_events rt rt') = setup ++ binding ++ [srt_close s])
       ∧ (s ≠ SRT_ERROR -> eid ≠ -1 -> ret bd.1 ≠ SRT_ERROR -> ret ls.1 = SRT_ERROR ->
          res = FALSE
          ∧ calls (new_events rt rt') = setup ++ binding ++ [srt_listen s 1; srt_close s])
       ∧ (s ≠ SRT_ERROR -> eid ≠ -1 -> ret bd.1 ≠ SRT_ERROR -> ret ls.1 ≠ SRT_ERROR ->
          ret th.1 = 0 ->
          res = FALSE
          ∧ calls (new_events rt rt') = setup ++ binding ++ [srt_listen s 1; g_thread_try_new]
          ∧ rt_server_ctx rt' = [cb_idle_listen_callback]
          ∧ gstsrtserversink.loop priv' = true
          ∧ gstsrtserversink.server_source priv' = true
          ∧ gstsrtserversink.context priv' = true
          ∧ gstsrtserversink.sock priv' = s
          ∧ gstsrtserversink.srt_poll_id priv' = eid))
  ∧
  (∀ (priv : gstsrtclientsrc.GstSrtClientSrcPrivate) (rt : Runtime)
     (host : string) (a : GInetAddress),
     let port := gst_uri_get_port (gstsrtclientsrc.uri priv) in
     let sk := oracle (rt_world rt) (srt_socket (inet_family a)) in
     let s := ret sk.1 in
     let ep := oracle sk.2 srt_epoll_create in
     let eid := ret ep.1 in
     let ad := oracle ep.2 (srt_epoll_add_usock eid s SRT_EPOLL_OUT) in
     let cn := oracle ad.2 (srt_connect s a (g_inet_socket_address_get_port port)) in
     gst_uri_get_host (gstsrtclientsrc.uri priv) = Some host ->
     port ≠ GST_URI_NO_PORT ->
     g_inet_socket_address_new_from_string host port = Some a ->
     inet_family a = G_SOCKET_FAMILY_IPV4 ∨ inet_family a = G_SOCKET_FAMILY_IPV6 ->
     ∃ res priv' rt',
       gstsrtclientsrc.gst_srt_client_src_start priv rt = Some ((res, priv'), rt')
       ∧ epoll_releases (new_events rt rt') = []
       ∧ (s = SRT_ERROR ->
          res = FALSE ∧ calls (new_events rt rt') = [srt_socket (inet_family a)])
       ∧ (s ≠ SRT_ERROR -> eid = -1 ->
          res = TRUE
          ∧ calls (new_events rt rt') =
              [srt_socket (inet_family a); srt_epoll_create; srt_close s])
       ∧ (s ≠ SRT_ERROR -> eid ≠ -1 -> ret cn.1 = SRT_ERROR ->
          res = FALSE
          ∧ calls (new_events rt rt') =
              [srt_socket (inet_family a); srt_epoll_create;
               srt_epoll_add_usock eid s SRT_EPOLL_OUT;
               srt_connect s a (g_inet_socket_address_get_port port);
               srt_close s])).
Proof.
  split.
  - intros priv rt host a port sk s nb ep eid ad bd ls th setup binding Hhost Hport Hres Hfam.
    destruct (server_start_outcome priv rt host a Hhost Hport Hres)
      as (P1 & P2 & _ & P4 & P5 & P6 & P7).
    cbv zeta in P1, P2, P4, P5, P6, P7.
    destruct (Z.eq_dec s SRT_ERROR) as [H1|H1].
    { rewrite (P1 H1). eexists _, _, _. split; [reflexivity|]. between. path_facts. }
    destruct (Z.eq_dec eid (-1)) as [H2|H2].
    { rewrite (P2 H1 H2). eexists _, _, _. split; [reflexivity|]. between. path_facts. }
    destruct (Z.eq_dec (ret bd.1) SRT_ERROR) as [H3|H3].
    { rewrite (P4 H1 H2 Hfam H3). eexists _, _, _. split; [reflexivity|]. between.
      path_facts. }
    destruct (Z.eq_dec (ret ls.1) SRT_ERROR) as [H4|H4].
    { rewrite (P5 H1 H2 Hfam H3 H4). eexists _, _, _. split; [reflexivity|]. between.
      path_facts. }
    destruct (Z.eq_dec (ret th.1) 0) as [H5|H5].
    { rewrite (P6 H1 H2 Hfam H3 H4 H5). eexists _, _, _. split; [reflexivity|]. between.
      path_facts. }
    rewrite (P7 H1 H2 Hfam H3 H4 H5). eexists _, _, _. split; [reflexivity|]. between.
    path_facts.
  - intros priv rt host a port sk s ep eid ad cn Hhost Hport Hres Hfam.
    destruct (client_start_outcome priv rt host a Hhost Hport Hres)
      as (P1 & P2 & _ & P4 & P5).
    cbv zeta in P1, P2, P4, P5.
    destruct (Z.eq_dec s SRT_ERROR) as [H1|H1].
    { rewrite (P1 H1). eexists _, _, _. split; [reflexivity|]. between. path_facts. }
    destruct (Z.eq_dec eid (-1)) as [H2|H2].
    { rewrite (P2 H1 H2). eexists _, _, _. split; [reflexivity|]. between. path_facts. }
    destruct (Z.eq_dec (ret cn.1) SRT_ERROR) as [H3|H3].
    { rewrite (P4 H1 H2 Hfam H3). eexists _, _, _. split; [reflexivity|]. between.
      path_facts. }
    rewrite (P5 H1 H2 Hfam H3). eexists _, _, _. split; [reflexivity|]. between.
    path_facts.
Qed.

End start.

Lemma start_failure_paths_witness :
  let E := env_of bind_refused in
  let rt := empty_runtime E tt in
  ∃ priv' rt',
    gstsrtserversink.gst_srt_server_sink_start server_priv0 rt = Some ((FALSE, priv'), rt')
    ∧ calls (new_events rt rt') =
        [srt_socket G_SOCKET_FAMILY_IPV4; srt_setsockopt_sndsyn 3 0; srt_epoll_create;
         srt_epoll_add_usock 7 3 SRT_EPOLL_IN; srt_bind 3 ipv4_localhost 7001; srt_close 3]
    ∧ epoll_releases (new_events rt rt') = [].
Proof.
  intros E rt.
  destruct (@start_failure_paths E) as [Hserver _].
  destruct (Hserver server_priv0 rt "127.0.0.1" ipv4_localhost)
    as (res & priv' & rt' & Hrun & Hrel & _ & _ & Hbind & _).
  - reflexivity.
  - discriminate.
  - reflexivity.
  - left. reflexivity.
  - destruct Hbind as [-> Hcalls];
      [vm_compute; discriminate|vm_compute; discriminate|reflexivity|].
    exists priv', rt'. split; [exact Hrun|]. split; [exact Hcalls|exact Hrel].
Defined.

(* ===================================================================== *)
(** ** A start that succeeds, and the stop after it *)
(* ===================================================================== *)

Section start_stop.
Context {E : Env}.

(** X7.  On an element whose registry owns its sessions (an empty registry
    does), a server start in which every call succeeds returns TRUE after
    exactly these calls, in this order: the socket for the family of the
    URI's address, blocking sends switched off, a poll id, the socket
    registered for read readiness, the bind to the URI's address and to
    the URI's port as a [guint16], the listen with backlog 1, the thread.
    The server thread's context is then a new one with the accept unit as
    its only source, whatever was attached before.  The [stop] after it
    returns TRUE; it closes every session's socket, takes the listening
    socket out of the poll id, releases the poll id, closes the listening
    socket, quits and joins the loop, in this order, and leaves the context
    without a source and the loop, thread, source and context fields
    cleared. *)
Theorem server_start_then_stop (priv : gstsrtserversink.GstSRTServerSinkPrivate)
    (rt : Runtime) (host : string) (a : GInetAddress) :
  let port := gst_uri_get_port (gstsrtserversink.uri priv) in
  let sk := oracle (rt_world rt) (srt_socket (inet_family a)) in
  let s := ret sk.1 in
  let nb := oracle sk.2 (srt_setsockopt_sndsyn s 0) in
  let ep := oracle nb.2 srt_epoll_create in
  let eid := ret ep.1 in
  let ad := oracle ep.2 (srt_epoll_add_usock eid s SRT_EPOLL_IN) in
  let bd := oracle ad.2 (srt_bind s a (g_inet_socket_address_get_port port)) in
  let ls := oracle bd.2 (srt_listen s 1) in
  let th := oracle ls.2 g_thread_try_new in
  gst_uri_get_host (gstsrtserversink.uri priv) = Some host ->
  port ≠ GST_URI_NO_PORT ->
  g_inet_socket_address_new_from_string host port = Some a ->
  inet_family a = G_SOCKET_FAMILY_IPV4 ∨ inet_family a = G_SOCKET_FAMILY_IPV6 ->
  s ≠ SRT_ERROR -> eid ≠ -1 -> ret bd.1 ≠ SRT_ERROR -> ret ls.1 ≠ SRT_ERROR ->
  ret th.1 ≠ 0 ->
  registry_owned rt (gstsrtserversink.clients priv) ->
  ∃ priv1 rt1 priv2 rt2,
    gstsrtserversink.gst_srt_server_sink_start priv rt = Some ((TRUE, priv1), rt1)
    ∧ calls (new_events rt rt1) =
        [srt_socket (inet_family a); srt_setsockopt_sndsyn s 0; srt_epoll_create;
         srt_epoll_add_usock eid s SRT_EPOLL_IN;
         srt_bind s a (port mod 2 ^ 16); srt_listen s 1; g_thread_try_new]
    ∧ gstsrtserversink.sock priv1 = s
    ∧ gstsrtserversink.srt_poll_id priv1 = eid
    ∧ gstsrtserversink.clients priv1 = gstsrtserversink.clients priv
    ∧ rt_server_ctx rt1 = [cb_idle_listen_callback]
    ∧ gstsrtserversink.gst_srt_server_sink_stop priv1 rt1 = Some ((TRUE, priv2), rt2)
    ∧ calls (new_events rt1 rt2) =
        ((λ p, srt_close (gstsrt_h.sock (client_at (rt_heap rt) p)))
           <$> gstsrtserversink.clients priv)
        ++ [srt_epoll_remove_usock eid s; srt_epoll_release eid; srt_close s;
            g_main_loop_quit; g_thread_join]
    ∧ rt_server_ctx rt2 = []
    ∧ gstsrtserversink.loop priv2 = false
    ∧ gstsrtserversink.thread priv2 = false
    ∧ gstsrtserversink.server_source priv2 = false
    ∧ gstsrtserversink.context priv2 = false.
Proof.
  intros port sk s nb ep eid ad bd ls th Hhost Hport Hres Hfam H1 H2 H3 H4 H5 Hown.
  destruct (server_start_outcome priv rt host a Hhost Hport Hres) as (_ & _ & _ & _ & _ & _ & P7).
  cbv zeta in P7. rewrite (P7 H1 H2 Hfam H3 H4 H5).
  match goal with
  | |- context [Some ((TRUE, ?p), ?r)] => set (priv1 := p); set (rt1 := r)
  end.
  destruct (server_stop_outcome priv1 rt1 Hown)
    as (priv2 & rt2 & evs & Hstop & Ht & _ & _ & _ & _ & _ & _ & _ & Hcalls & Hctx & _ & Hpriv).
  subst priv2.
  eexists priv1, rt1, _, rt2. split; [reflexivity|].
  rewrite (new_events_app rt1 rt2 evs Ht), Hcalls, Hctx.
  split; [subst rt1; between; reflexivity|].
  split; [reflexivity|]. split; [reflexivity|]. split; [reflexivity|].
  split; [reflexivity|]. split; [exact Hstop|].
  repeat split; reflexivity.
Qed.

(** X8.  A client start in which every call succeeds returns TRUE after
    exactly these calls, in this order: the socket for the family of the
    URI's address, a poll id, the socket registered for write readiness,
    the connect to the URI's address and to the URI's port as a
    [guint16].  The [stop] after it returns TRUE, takes the socket out of
    the poll id, releases the poll id and closes the socket, in this order,
    and leaves the element's fields as they are. *)
Theorem client_start_then_stop (priv : gstsrtclientsrc.GstSrtClientSrcPrivate)
    (rt : Runtime) (host : string) (a : GInetAddress) :
  let port := gst_uri_get_port (gstsrtclientsrc.uri priv) in
  let sk := oracle (rt_world rt) (srt_socket (inet_family a)) in
  let s := ret sk.1 in
  let ep := oracle sk.2 srt_epoll_create in
  let eid := ret ep.1 in
  let ad := oracle ep.2 (srt_epoll_add_usock eid s SRT_EPOLL_OUT) in
  let cn := oracle ad.2 (srt_connect s a (g_inet_socket_address_get_port port)) in
  gst_uri_get_host (gstsrtclientsrc.uri priv) = Some host ->
  port ≠ GST_URI_NO_PORT ->
  g_inet_socket_address_new_from_string host port = Some a ->
  inet_family a = G_SOCKET_FAMILY_IPV4 ∨ inet_family a = G_SOCKET_FAMILY_IPV6 ->
  s ≠ SRT_ERROR -> eid ≠ -1 -> ret cn.1 ≠ SRT_ERROR ->
  let priv1 := gstsrtclientsrc.set_srt_poll_id (gstsrtclientsrc.set_srt_sock priv s) eid in
  ∃ rt1 rt2,
    gstsrtclientsrc.gst_srt_client_src_start priv rt = Some ((TRUE, priv1), rt1)
    ∧ calls (new_events rt rt1) =
        [srt_socket (inet_family a); srt_epoll_create;
         srt_epoll_add_usock eid s SRT_EPOLL_OUT;
         srt_connect s a (port mod 2 ^ 16)]
    ∧ gstsrtclientsrc.gst_srt_client_src_stop priv1 rt1 = Some ((TRUE, priv1), rt2)
    ∧ calls (new_events rt1 rt2) =
        [srt_epoll_remove_usock eid s; srt_epoll_release eid; srt_close s].
Proof.
  intros port sk s ep eid ad cn Hhost Hport Hres Hfam H1 H2 H3 priv1.
  destruct (client_start_outcome priv rt host a Hhost Hport Hres) as (_ & _ & _ & _ & P5).
  cbv zeta in P5. rewrite (P5 H1 H2 Hfam H3).
  assert (Hstop : ∀ rt1 : Runtime, ∃ rt2,
            gstsrtclientsrc.gst_srt_client_src_stop priv1 rt1 = Some ((TRUE, priv1), rt2)
            ∧ calls (new_events rt1 rt2) =
                [srt_epoll_remove_usock eid s; srt_epoll_release eid; srt_close s]).
  { intros rt1. unfold gstsrtclientsrc.gst_srt_client_src_stop. mstep.
    eexists. split; [reflexivity|]. between. reflexivity. }
  match goal with
  | |- context [Some ((TRUE, ?p), ?r)] => destruct (Hstop r) as (rt2 & Hrun2 & Hcalls2)
  end.
  eexists _, rt2. split; [reflexivity|].
  split; [between; reflexivity|]. split; [exact Hrun2|exact Hcalls2].
Qed.

(** X22.  Bringing the server up.  A freshly initialised element, in a
    process where nothing is attached to either main context, satisfies
    the invariant of a running server.  And [start] on an element in the
    invariant always returns, whether it succeeds or fails, and the
    invariant holds afterwards: the registry, the queue, the sessions, the
    poll timeout and the URI are as they were, and the server thread's
    context is as it was or a new one holding the accept unit alone.  A
    start that returns FALSE has logged exactly one warning.  A start that
    returns TRUE with a poll id other than -1 has logged none; its last
    library call made the thread, the accept unit is the only source of
    the server thread's context, and the loop, thread, source and context
    fields are set. *)
Theorem start_establishes_invariant :
  (∀ rt : Runtime,
     rt_default_ctx rt = [] -> rt_server_ctx rt = [] ->
     server_inv rt gstsrtserversink_object.gst_srt_server_sink_init)
  ∧
  (∀ (priv : gstsrtserversink.GstSRTServerSinkPrivate) (rt : Runtime),
     server_inv rt priv ->
     ∃ res priv' rt',
       gstsrtserversink.gst_srt_server_sink_start priv rt = Some ((res, priv'), rt')
       ∧ server_inv rt' priv'
       ∧ gstsrtserversink.clients priv' = gstsrtserversink.clients priv
       ∧ gstsrtserversink.queued_buffers priv' = gstsrtserversink.queued_buffers priv
       ∧ gstsrtserversink.poll_timeout priv' = gstsrtserversink.poll_timeout priv
       ∧ gstsrtserversink.uri priv' = gstsrtserversink.uri priv
       ∧ rt_heap rt' = rt_heap rt
       ∧ (rt_server_ctx rt' = rt_server_ctx rt
          ∨ rt_server_ctx rt' = [cb_idle_listen_callback])
       ∧ (res = FALSE -> logged LWarning (new_events rt rt') = 1%nat)
       ∧ (res = TRUE -> gstsrtserversink.srt_poll_id priv' ≠ -1 ->
          logged LWarning (new_events rt rt') = O
          ∧ last (calls (new_events rt rt')) = Some g_thread_try_new
          ∧ rt_server_ctx rt' = [cb_idle_listen_callback]
          ∧ gstsrtserversink.loop priv' = true
          ∧ gstsrtserversink.thread priv' = true
          ∧ gstsrtserversink.server_source priv' = true
          ∧ gstsrtserversink.context priv' = true)).
Proof.
  split.
  - intros rt Hd Hs. unfold server_inv. cbn. rewrite Hd, Hs.
    split; [split; [constructor|intros p Hp; inversion Hp]|].
    split; [lia|]. split; [reflexivity|]. now left.
  - intros priv rt (Hown & Hlen & Hd & Hs).
    destruct (start_keeps_sessions priv rt)
      as (res & priv' & rt' & Hrun & Hcl & Hq & Hpt & Hu & Hh & Hd' & Hs' & Hfail & Hok).
    exists res, priv', rt'. split; [exact Hrun|].
    split.
    { unfold server_inv, registry_owned. rewrite Hcl, Hq, Hh, Hd'.
      split; [exact Hown|]. split; [exact Hlen|]. split; [exact Hd|].
      destruct Hs' as [->| ->]; [exact Hs|now right]. }
    split; [exact Hcl|]. split; [exact Hq|]. split; [exact Hpt|]. split; [exact Hu|].
    split; [exact Hh|]. split; [exact Hs'|]. split; [exact Hfail|exact Hok].
Qed.

End start_stop.

Lemma server_start_then_stop_witness :
  let E := env_of calm in
  let rt := empty_runtime E tt in
  ∃ priv1 rt1 priv2 rt2,
    gstsrtserversink.gst_srt_server_sink_start server_priv_70000 rt = Some ((TRUE, priv1), rt1)
    ∧ calls (new_events rt rt1) =
        [srt_socket G_SOCKET_FAMILY_IPV4; srt_setsockopt_sndsyn 3 0; srt_epoll_create;
         srt_epoll_add_usock 7 3 SRT_EPOLL_IN; srt_bind 3 ipv4_localhost 4464;
         srt_listen 3 1; g_thread_try_new]
    ∧ gstsrtserversink.gst_srt_server_sink_stop priv1 rt1 = Some ((TRUE, priv2), rt2)
    ∧ calls (new_events rt1 rt2) =
        [srt_epoll_remove_usock 7 3; srt_epoll_release 7; srt_close 3;
         g_main_loop_quit; g_thread_join]
    ∧ rt_server_ctx rt2 = [].
Proof.
  intros E rt.
  destruct (@server_start_then_stop E server_priv_70000 rt "127.0.0.1" ipv4_localhost)
    as (priv1 & rt1 & priv2 & rt2 & Hstart & Hc1 & _ & _ & _ & _ & Hstop & Hc2 & Hctx & _).
  - reflexivity.
  - discriminate.
  - reflexivity.
  - left. reflexivity.
  - vm_compute. discriminate.
  - vm_compute. discriminate.
  - vm_compute. discriminate.
  - vm_compute. discriminate.
  - vm_compute. discriminate.
  - split; [constructor|]. intros p Hp. inversion Hp.
  - exists priv1, rt1, priv2, rt2. split; [exact Hstart|]. split; [exact Hc1|].
    split; [exact Hstop|]. split; [exact Hc2|exact Hctx].
Defined.

Lemma client_start_then_stop_witness :
  let E := env_of calm in
  let rt := empty_runtime E tt in
  ∃ priv1 rt1 rt2,
    gstsrtclientsrc.gst_srt_client_src_start client_priv_70000 rt = Some ((TRUE, priv1), rt1)
    ∧ calls (new_events rt rt1) =
        [srt_socket G_SOCKET_FAMILY_IPV4; srt_epoll_create;
         srt_epoll_add_usock 7 3 SRT_EPOLL_OUT; srt_connect 3 ipv4_localhost 4464]
    ∧ gstsrtclientsrc.gst_srt_client_src_stop priv1 rt1 = Some ((TRUE, priv1), rt2)
    ∧ calls (new_events rt1 rt2) =
        [srt_epoll_remove_usock 7 3; srt_epoll_release 7; srt_close 3].
Proof.
  intros E rt.
  destruct (@client_start_then_stop E client_priv_70000 rt "127.0.0.1" ipv4_localhost)
    as (rt1 & rt2 & Hstart & Hc1 & Hstop & Hc2).
  - reflexivity.
  - discriminate.
  - reflexivity.
  - left. reflexivity.
  - vm_compute. discriminate.
  - vm_compute. discriminate.
  - vm_compute. discriminate.
  - eexists _, rt1, rt2. split; [exact Hstart|]. split; [exact Hc1|].
    split; [exact Hstop|exact Hc2].
Defined.

Lemma start_establishes_invariant_witness :
  let E := env_of calm in
  let rt := waiting E tt in
  ∃ priv' rt',
    gstsrtserversink.gst_srt_server_sink_start server_idle rt = Some ((TRUE, priv'), rt')
    ∧ server_inv rt' priv'
    ∧ rt_server_ctx rt' = [cb_idle_listen_callback]
    ∧ last (calls (new_events rt rt')) = Some g_thread_try_new.
Proof.
  intros E rt.
  destruct (@start_establishes_invariant E) as [_ Hstart].
  destruct (Hstart server_idle rt)
    as (res & priv' & rt' & Hrun & Hinv & _ & _ & _ & _ & _ & _ & _ & Hok).
  - apply server_idle_inv.
  - exists priv', rt'.
    assert (Hres : res = TRUE ∧ gstsrtserversink.srt_poll_id priv' ≠ -1).
    { vm_compute in Hrun. injection Hrun as <- <- _. split; [reflexivity|discriminate]. }
    destruct Hres as [-> Hid].
    destruct (Hok eq_refl Hid) as (_ & Hlast & Hctx & _).
    split; [exact Hrun|]. split; [exact Hinv|]. split; [exact Hctx|exact Hlast].
Defined.

(* ===================================================================== *)
(** ** Stopping an element a second time *)
(* ===================================================================== *)

Section stop_again.
Context {E : Env}.

(** A [stop] whose registry names a freed session reads it: the first
    thing [stop] does with the registry is
    [srt_emit_client_removed (client)], which reads [client->sock]. *)
Lemma server_stop_reads_freed (priv : gstsrtserversink.GstSRTServerSinkPrivate)
    (rt : Runtime) (p : loc) (l : list loc) :
  gstsrtserversink.clients priv = p :: l ->
  rt_heap rt !! p = None ->
  gstsrtserversink.gst_srt_server_sink_stop priv rt = None.
Proof.
  intros Hcl Hp. unfold gstsrtserversink.gst_srt_server_sink_stop.
  bind_step ltac:(reflexivity). rewrite Hcl.
  apply bind_fault. cbn [gstsrtserversink.g_list_foreach].
  apply bind_fault. unfold gstsrtserversink.srt_emit_client_removed.
  apply bind_fault. unfold heap_load. cbn [rt_heap]. rewrite Hp. reflexivity.
Qed.

(** C6 on the code.  Neither [stop] is idempotent.  The client's [stop]
    returns TRUE and leaves the element as it is, so a second call makes
    the same three calls again, on the poll id already released and the
    socket already closed.  The first [stop] of a server whose registry
    owns its sessions returns TRUE after signalling client-removed for
    every session, closing every session's socket, and the same three
    calls, then quitting and joining the loop if there is one.  It frees
    the sessions but leaves the registry naming them.  So a second [stop]
    of a server that had sessions reads a freed session and does not
    return; and a second [stop] of a server that had none returns TRUE
    after making the three calls again, with no signal and the context as
    the first [stop] left it. *)
Theorem stop_twice :
  (∀ (priv : gstsrtclientsrc.GstSrtClientSrcPrivate) (rt : Runtime),
     let again := [srt_epoll_remove_usock (gstsrtclientsrc.srt_poll_id priv)
                     (gstsrtclientsrc.srt_sock priv);
                   srt_epoll_release (gstsrtclientsrc.srt_poll_id priv);
                   srt_close (gstsrtclientsrc.srt_sock priv)] in
     ∃ rt1 rt2,
       gstsrtclientsrc.gst_srt_client_src_stop priv rt = Some ((TRUE, priv), rt1)
       ∧ gstsrtclientsrc.gst_srt_client_src_stop priv rt1 = Some ((TRUE, priv), rt2)
       ∧ calls (new_events rt rt1) = again
       ∧ calls (new_events rt1 rt2) = again)
  ∧
  (∀ (priv : gstsrtserversink.GstSRTServerSinkPrivate) (rt : Runtime),
     let again := [srt_epoll_remove_usock (gstsrtserversink.srt_poll_id priv)
                     (gstsrtserversink.sock priv);
                   srt_epoll_release (gstsrtserversink.srt_poll_id priv);
                   srt_close (gstsrtserversink.sock priv)] in
     registry_owned rt (gstsrtserversink.clients priv) ->
     ∃ priv1 rt1,
       gstsrtserversink.gst_srt_server_sink_stop priv rt = Some ((TRUE, priv1), rt1)
       ∧ signals SIG_CLIENT_REMOVED (new_events rt rt1) =
           peer_of (rt_heap rt) <$> gstsrtserversink.clients priv
       ∧ calls (new_events rt rt1) =
           ((λ p, srt_close (gstsrt_h.sock (client_at (rt_heap rt) p)))
              <$> gstsrtserversink.clients priv)
           ++ again
           ++ (if gstsrtserversink.loop priv then [g_main_loop_quit; g_thread_join] else [])
       ∧ gstsrtserversink.clients priv1 = gstsrtserversink.clients priv
       ∧ (∀ q, q ∈ gstsrtserversink.clients priv -> rt_heap rt1 !! q = None)
       ∧ (gstsrtserversink.clients priv ≠ [] ->
          gstsrtserversink.gst_srt_server_sink_stop priv1 rt1 = None)
       ∧ (gstsrtserversink.clients priv = [] ->
          ∃ rt2,
            gstsrtserversink.gst_srt_server_sink_stop priv1 rt1 = Some ((TRUE, priv1), rt2)
            ∧ calls (new_events rt1 rt2) = again
            ∧ signals SIG_CLIENT_REMOVED (new_events rt1 rt2) = []
            ∧ rt_server_ctx rt2 = rt_server_ctx rt1)).
Proof.
  split.
  - intros priv rt again.
    assert (Hstop : ∀ rt0 : Runtime, ∃ rt',
              gstsrtclientsrc.gst_srt_client_src_stop priv rt0 = Some ((TRUE, priv), rt')
              ∧ calls (new_events rt0 rt') = again).
    { intros rt0. unfold gstsrtclientsrc.gst_srt_client_src_stop. mstep.
      eexists. split; [reflexivity|]. between. reflexivity. }
    destruct (Hstop rt) as (rt1 & Hrun1 & Hcalls1).
    destruct (Hstop rt1) as (rt2 & Hrun2 & Hcalls2).
    exists rt1, rt2. repeat split; assumption.
  - intros priv rt again Hown.
    destruct (server_stop_outcome priv rt Hown)
      as (priv1 & rt1 & evs & Hrun & Ht & Hsig & _ & _ & _ & Hreg & Hfree & _ & Hcalls
          & Hctx & _ & Hpriv).
    exists priv1, rt1. split; [exact Hrun|].
    rewrite (new_events_app rt rt1 evs Ht).
    split; [exact Hsig|]. split; [exact Hcalls|]. split; [exact Hreg|].
    split; [exact Hfree|]. split.
    + intros Hne. destruct (gstsrtserversink.clients priv) as [|p l] eqn:Hcl; [congruence|].
      apply (server_stop_reads_freed priv1 rt1 p l Hreg).
      apply Hfree. apply list_elem_of_here.
    + intros Hnil.
      assert (Hown1 : registry_owned rt1 (gstsrtserversink.clients priv1)).
      { rewrite Hreg, Hnil. split; [constructor|]. intros q Hq. inversion Hq. }
      destruct (server_stop_outcome priv1 rt1 Hown1)
        as (priv2 & rt2 & evs2 & Hrun2 & Ht2 & Hsig2 & _ & _ & _ & _ & _ & _ & Hcalls2
            & Hctx2 & _ & Hpriv2).
      assert (Hsame : priv2 = priv1).
      { rewrite Hpriv2, Hpriv. cbn. now rewrite andb_true_r. }
      clear Hpriv2. subst priv2. exists rt2. split; [exact Hrun2|].
      rewrite (new_events_app rt1 rt2 evs2 Ht2), Hsig2, Hcalls2, Hctx2, Hreg, Hnil.
      rewrite Hpriv. cbn. repeat split; reflexivity.
Qed.

End stop_again.

Lemma stop_twice_witness :
  let E := env_of calm in
  (let rt := empty_runtime E tt in
   ∃ rt1 rt2,
     gstsrtclientsrc.gst_srt_client_src_stop client_connected rt =
       Some ((TRUE, client_connected), rt1)
     ∧ gstsrtclientsrc.gst_srt_client_src_stop client_connected rt1 =
         Some ((TRUE, client_connected), rt2)
     ∧ calls (new_events rt rt1) =
         [srt_epoll_remove_usock 7 3; srt_epoll_release 7; srt_close 3]
     ∧ calls (new_events rt1 rt2) =
         [srt_epoll_remove_usock 7 3; srt_epoll_release 7; srt_close 3])
  ∧
  (let rt := serving E tt in
   ∃ priv1 rt1,
     gstsrtserversink.gst_srt_server_sink_stop server_busy rt = Some ((TRUE, priv1), rt1)
     ∧ calls (new_events rt rt1) =
         [srt_close 11; srt_close 12; srt_close 13;
          srt_epoll_remove_usock 7 3; srt_epoll_release 7; srt_close 3;
          g_main_loop_quit; g_thread_join]
     ∧ gstsrtserversink.clients priv1 = [0; 1; 2]%nat
     ∧ rt_heap rt1 !! 0%nat = None
     ∧ gstsrtserversink.gst_srt_server_sink_stop priv1 rt1 = None).
Proof.
  intros E.
  destruct (@stop_twice E) as [Hclient Hserver].
  split.
  - intros rt. exact (Hclient client_connected rt).
  - intros rt.
    destruct (Hserver server_busy rt)
      as (priv1 & rt1 & Hrun & _ & Hcalls & Hreg & Hfree & Hbad & _).
    + apply three_sessions_owned.
    + exists priv1, rt1. split; [exact Hrun|].
      split; [rewrite Hcalls; vm_compute; reflexivity|].
      split; [exact Hreg|].
      split; [apply Hfree; apply list_elem_of_here|].
      apply Hbad. discriminate.
Defined.
